(** * HumanPose: landmark intersection and adaptive skeleton topology

    A shallow embedding of [humanpose/intersection.py] and
    [humanpose/visualise/skeleton.py], together with the properties of the
    design specification that can be settled on them.

    Python lists are Rocq lists, [dict]s with integer keys are [gmap]s,
    exceptions are an explicit error monad, and the floating point
    arithmetic of the colour gradient is IEEE 754 binary64 as specified by
    [SpecFloat]. *)

From Stdlib Require Import ZArith Lia.
From Stdlib Require Import Floats.SpecFloat.
From stdpp Require Import base option list strings gmap.

Open Scope string_scope.
Open Scope list_scope.

(** ** The Python runtime fragment used by the sources *)

(** The exceptions that the modelled statements can raise. *)
Inductive exn : Type :=
  | ValueError      (* [list.index] of an absent element *)
  | IndexError      (* out of range subscript *)
  | KeyError        (* missing dictionary key *)
  | AttributeError  (* [.keys()] on a list *)
  | UnboundLocalError (* a local read before any assignment *)
  | ZeroDivisionError
  | OverflowError.  (* [int] of an infinity *)

Inductive result (A : Type) : Type :=
  | Ok (a : A)
  | Raise (e : exn).
Arguments Ok {A} a.
Arguments Raise {A} e.

Definition bind {A B} (m : result A) (k : A -> result B) : result B :=
  match m with
  | Ok a => k a
  | Raise e => Raise e
  end.

Notation "x <~ m ;; k" := (bind m (fun x => k))
  (at level 100, m at next level, right associativity).

(** A [for] loop without [break] over a list, threading the loop state. *)
Fixpoint for_each {A S} (body : S -> A -> result S) (l : list A) (s : S)
  : result S :=
  match l with
  | [] => Ok s
  | x :: l' => s' <~ body s x ;; for_each body l' s'
  end.

(** [x in l] for a list [l]. *)
Definition py_in (x : string) (l : list string) : bool :=
  bool_decide (x ∈ l).

(** [l.index(x)]: position of the first occurrence, [ValueError] if none. *)
Fixpoint index (x : string) (l : list string) : result nat :=
  match l with
  | [] => Raise ValueError
  | y :: l' => if decide (y = x) then Ok 0%nat
               else k <~ index x l' ;; Ok (S k)
  end.

(** [enumerate(l)]. *)
Definition enumerate {A} (l : list A) : list (nat * A) :=
  zip (seq 0 (length l)) l.

(** [l[i]] for a list and a non-negative [i]. *)
Definition getitem {A} (l : list A) (i : nat) : result A :=
  match l !! i with
  | Some x => Ok x
  | None => Raise IndexError
  end.

(** [d[key]] for a dictionary with string keys, kept in insertion order. *)
Fixpoint dict_get {V} (d : list (string * V)) (key : string) : result V :=
  match d with
  | [] => Raise KeyError
  | (k, v) :: d' => if decide (k = key) then Ok v else dict_get d' key
  end.

(** *** Numbers: [int] and [float]

    A Python [float] is an IEEE 754 binary64 number; arithmetic rounds to
    nearest, ties to even, which is what [SpecFloat] specifies. *)

Definition prec : Z := 53.
Definition emax : Z := 1024.

Inductive pynum : Type :=
  | PyInt (z : Z)
  | PyFloat (f : spec_float).

(** Conversion of an [int] operand in mixed arithmetic (all integers met
    here are far below 2^1024, where CPython would raise instead). *)
Definition float_of_int (z : Z) : spec_float :=
  binary_normalize prec emax z 0 false.

Definition to_float (x : pynum) : spec_float :=
  match x with
  | PyInt z => float_of_int z
  | PyFloat f => f
  end.

Definition py_arith (zop : Z -> Z -> Z)
    (fop : spec_float -> spec_float -> spec_float) (x y : pynum) : pynum :=
  match x, y with
  | PyInt a, PyInt b => PyInt (zop a b)
  | _, _ => PyFloat (fop (to_float x) (to_float y))
  end.

Definition py_add : pynum -> pynum -> pynum := py_arith Z.add (SFadd prec emax).
Definition py_sub : pynum -> pynum -> pynum := py_arith Z.sub (SFsub prec emax).
Definition py_mul : pynum -> pynum -> pynum := py_arith Z.mul (SFmul prec emax).

(** [a / b] on two [int]s: true division, the correctly rounded quotient. *)
Definition py_truediv (a b : Z) : result pynum :=
  if (b =? 0)%Z then Raise ZeroDivisionError
  else Ok (PyFloat (SFdiv prec emax (float_of_int a) (float_of_int b))).

(** Truncation toward zero of a finite float [(-1)^s * m * 2^e]. *)
Definition trunc_finite (s : bool) (m : positive) (e : Z) : Z :=
  let a := if (0 <=? e)%Z then Z.shiftl (Zpos m) e
           else Z.shiftr (Zpos m) (- e) in
  if s then (- a)%Z else a.

(** [int(x)]. *)
Definition py_int (x : pynum) : result Z :=
  match x with
  | PyInt z => Ok z
  | PyFloat (S754_zero _) => Ok 0%Z
  | PyFloat (S754_finite s m e) => Ok (trunc_finite s m e)
  | PyFloat (S754_infinity _) => Raise OverflowError
  | PyFloat S754_nan => Raise ValueError
  end.

(** [round(x)] of a finite float: to the nearest integer, ties to even.
    The sources never call it; the specification of the gradient does. *)
Definition round_finite (s : bool) (m : positive) (e : Z) : Z :=
  let a :=
    if (0 <=? e)%Z then Z.shiftl (Zpos m) e
    else
      let d := Z.shiftl 1 (- e) in
      let q := (Zpos m / d)%Z in
      let r := (Zpos m mod d)%Z in
      match (2 * r ?= d)%Z with
      | Lt => q
      | Gt => (q + 1)%Z
      | Eq => if Z.even q then q else (q + 1)%Z
      end in
  if s then (- a)%Z else a.

Definition py_round (x : pynum) : result Z :=
  match x with
  | PyInt z => Ok z
  | PyFloat (S754_zero _) => Ok 0%Z
  | PyFloat (S754_finite s m e) => Ok (round_finite s m e)
  | PyFloat (S754_infinity _) => Raise OverflowError
  | PyFloat S754_nan => Raise ValueError
  end.

(** *** numpy arrays

    An [ndarray] is a shape and a flat row-major buffer.  Only integer-list
    indexing along the first axis ([a[vec]]) and along the second axis
    ([a[:, vec]]) is needed.  numpy checks every index against the length
    of the indexed axis before it builds the result, and the indices met
    here are never negative. *)

Section NDArray.
Context {A : Type}.

Record ndarray : Type := mk_ndarray {
  shape : list nat;
  data : list A
}.

(** Number of elements of one entry along the leading axis of [shp]. *)
Definition stride (shp : list nat) : nat := foldr Nat.mul 1%nat shp.

Definition wf (a : ndarray) : Prop := length (data a) = stride (shape a).

(** The [i]-th entry along the leading axis, of [w] elements. *)
Definition entry (w : nat) (buf : list A) (i : nat) : list A :=
  take w (drop (i * w) buf).

(** Bounds check of an index list against an axis of length [n]. *)
Definition check_indices (n : nat) (vec : list nat) : result unit :=
  if forallb (fun i => i <? n)%nat vec then Ok tt else Raise IndexError.

(** Gather along the leading axis of a buffer holding entries of [w]. *)
Definition gather (w : nat) (buf : list A) (vec : list nat) : list A :=
  concat (map (entry w buf) vec).

(** [a[vec]]. *)
Definition take_axis0 (a : ndarray) (vec : list nat) : result ndarray :=
  match shape a with
  | [] => Raise IndexError
  | n :: rest =>
      _ <~ check_indices n vec ;;
      Ok {| shape := length vec :: rest;
            data := gather (stride rest) (data a) vec |}
  end.

(** [a[:, vec]]. *)
Definition take_axis1 (a : ndarray) (vec : list nat) : result ndarray :=
  match shape a with
  | n0 :: n :: rest =>
      _ <~ check_indices n vec ;;
      Ok {| shape := n0 :: length vec :: rest;
            data := concat (map (fun f =>
                      gather (stride rest)
                             (entry (n * stride rest) (data a) f) vec)
                      (seq 0 n0)) |}
  | _ => Raise IndexError
  end.

(** Element access [a[i, j]] and [a[f, i, j]] on the flat buffer, [None]
    out of range. *)
Definition at2 (a : ndarray) (i j : nat) : option A :=
  match shape a with
  | [n; c] =>
      if ((i <? n) && (j <? c))%nat then data a !! (i * c + j)%nat
      else None
  | _ => None
  end.

Definition at3 (a : ndarray) (f i j : nat) : option A :=
  match shape a with
  | [n0; n; c] =>
      if ((f <? n0) && (i <? n) && (j <? c))%nat
      then data a !! ((f * n + i) * c + j)%nat else None
  | _ => None
  end.

(** Length of the landmark axis of a [[landmarks, coordinates]] or
    [[frames, landmarks, coordinates]] array. *)
Definition landmark_axis (a : ndarray) : option nat :=
  match shape a with
  | [n; _] => Some n
  | [_; n; _] => Some n
  | _ => None
  end.

(** Shape of a projection onto [m] landmarks. *)
Definition projected_shape (a : ndarray) (m : nat) : list nat :=
  match shape a with
  | [_; c] => [m; c]
  | [n0; _; c] => [n0; m; c]
  | shp => shp
  end.

(** Element of the projection along [vec] read back from the input:
    [a[vec[k], j]] for two axes, [a[f, vec[k], j]] for three (where [f]
    is the head of [pos]). *)
Definition gathered (a : ndarray) (vec : list nat) (pos : list nat)
  : option A :=
  match shape a, pos with
  | [_; _], [k; j] => i ← vec !! k; at2 a i j
  | [_; _; _], [f; k; j] => i ← vec !! k; at3 a f i j
  | _, _ => None
  end.

Definition at_pos (a : ndarray) (pos : list nat) : option A :=
  match shape a, pos with
  | [_; _], [k; j] => at2 a k j
  | [_; _; _], [f; k; j] => at3 a f k j
  | _, _ => None
  end.

(** The body shared by [Intersection.source] and
    [Intersection.destination], with the index vector as a parameter. *)
Definition project (vec : list nat) (keypoints : ndarray)
  : result (option ndarray) :=
  if (length (shape keypoints) =? 2)%nat then
    r <~ take_axis0 keypoints vec ;; Ok (Some r)
  else if (length (shape keypoints) =? 3)%nat then
    r <~ take_axis1 keypoints vec ;; Ok (Some r)
  else Ok None.
End NDArray.
Arguments ndarray A : clear implicits.


(** ** [intersection.py] *)

Module Intersection.

Record t : Type := mk {
  _src_vec : list nat;
  _dest_vec : list nat;
  landmarks : list string
}.

(** Body of the loop of [Intersection.__init__]. *)
Definition init_body (src : list string) (self : t) (it : nat * string)
  : result t :=
  let '(i, landmark) := it in
  if py_in landmark src then
    k <~ index landmark src ;;
    Ok {| _src_vec := _src_vec self ++ [k];
          _dest_vec := _dest_vec self ++ [i];
          landmarks := landmarks self ++ [landmark] |}
  else Ok self.

(** [Intersection.__init__(self, src, dest)]. *)
Definition __init__ (src dest : list string) : result t :=
  for_each (init_body src) (enumerate dest)
    {| _src_vec := []; _dest_vec := []; landmarks := [] |}.

(** [Intersection.source(self, keypoints)]; [None] is Python's [None],
    returned when neither branch is taken. *)
Definition source {A} (self : t) (keypoints : ndarray A)
  : result (option (ndarray A)) :=
  if (length (shape keypoints) =? 2)%nat then
    r <~ take_axis0 keypoints (_src_vec self) ;; Ok (Some r)
  else if (length (shape keypoints) =? 3)%nat then
    r <~ take_axis1 keypoints (_src_vec self) ;; Ok (Some r)
  else Ok None.

(** [Intersection.destination(self, keypoints)]. *)
Definition destination {A} (self : t) (keypoints : ndarray A)
  : result (option (ndarray A)) :=
  if (length (shape keypoints) =? 2)%nat then
    r <~ take_axis0 keypoints (_dest_vec self) ;; Ok (Some r)
  else if (length (shape keypoints) =? 3)%nat then
    r <~ take_axis1 keypoints (_dest_vec self) ;; Ok (Some r)
  else Ok None.

End Intersection.

(** ** [visualise/skeleton.py] *)

Module _Skeleton.

(** [class Sections(IntFlag)], members in definition order. *)
Inductive Sections : Type :=
  MAIN | HEAD | FACE | HANDS | FEET | FULL | OBJECTS.

Definition value (sec : Sections) : Z :=
  match sec with
  | MAIN => 1
  | HEAD => 2
  | FACE => 4
  | HANDS => 8
  | FEET => 16
  | FULL => 31
  | OBJECTS => 32
  end.

#[global] Instance Sections_eq_dec : EqDecision Sections.
Proof. solve_decision. Defined.

(** [for sec in _Skeleton.Sections].  Up to Python 3.10 the iteration
    yields every member whose value is not a duplicate, [FULL] included;
    from Python 3.11 on a flag made of several bits is an alias and only
    the one-bit members are yielded.  The model iterates over all seven;
    [FULL] never holds a bone or a colour, so both readings agree (see
    [get_bone_list_canonical] and [get_colour_dict_canonical]). *)
Definition Sections_members : list Sections :=
  [MAIN; HEAD; FACE; HANDS; FEET; FULL; OBJECTS].

(** The one-bit members, the iteration order from Python 3.11 on. *)
Definition Sections_canonical : list Sections :=
  [MAIN; HEAD; FACE; HANDS; FEET; OBJECTS].

(** Truth value of [sec & skeleton_sections]. *)
Definition enabled (skeleton_sections : Z) (sec : Sections) : bool :=
  negb (Z.land (value sec) skeleton_sections =? 0)%Z.

Definition _sides : list string := ["left "; "right "].

(** A body part is a list of joints or a child:parent dictionary. *)
Inductive part_shape : Type :=
  | Chain (joints : list string)
  | Tree (joints : list (string * string)).

Definition leg : list string := ["foot"; "ankle"; "knee"; "hip"].
Definition arm : list string :=
  ["hand"; "wrist"; "elbow"; "shoulder"; "clavicle"].
Definition spine : list string :=
  ["head centre"; "head"; "neck"; "shoulder centre"; "thorax";
   "mid torso"; "belly"; "pelvis"].
Definition head : list string := ["head top"; "nose"].
Definition face : list (string * string) :=
  [("ear", "eye"); ("eye", "nose")].
Definition hand : list (string * string) :=
  [("handtip", "hand"); ("thumb", "hand")].
Definition foot : list (string * string) :=
  [("big toe", "ankle"); ("small toe", "foot"); ("heel", "ankle")].
Definition objects : list string := ["stick top"; "stick end"].

Definition _body_parts : list (string * part_shape) :=
  [("leg", Chain leg); ("arm", Chain arm); ("spine", Chain spine);
   ("head", Chain head); ("face", Tree face); ("hand", Tree hand);
   ("foot", Tree foot); ("objects", Chain objects)].

Definition _sided_bodyparts : list string :=
  ["leg"; "arm"; "hand"; "foot"; "face"].

Abbreviation colour := (Z * Z * Z)%type.

(** An entry of [_part_colours]: a tuple, or a start/end dictionary. *)
Inductive part_colour : Type :=
  | Flat (c : colour)
  | Gradient (start end_ : colour).

Definition _part_colours : list (string * part_colour) :=
  [("spine", Gradient (255, 255, 0) (255, 0, 0));
   ("left leg", Gradient (255, 0, 255) (75, 0, 150));
   ("right leg", Gradient (100, 100, 255) (0, 0, 150));
   ("left arm", Gradient (0, 255, 0) (0, 120, 0));
   ("right arm", Gradient (0, 255, 255) (0, 120, 120));
   ("head", Gradient (170, 170, 0) (210, 210, 0));
   ("objects", Gradient (175, 0, 0) (175, 100, 0));
   ("left hand", Flat (120, 255, 120));
   ("right hand", Flat (180, 255, 255));
   ("left foot", Flat (255, 145, 255));
   ("right foot", Flat (130, 180, 255));
   ("left face", Flat (120, 120, 0));
   ("right face", Flat (120, 120, 0))]%Z.

Abbreviation bone := (nat * nat)%type.

(** *** Building blocks of the bone structure *)

(** [[side + lm for lm in connection_list]]. *)
Definition with_side (side : string) (connection_list : list string)
  : list string :=
  map (fun lm => side +:+ lm) connection_list.

(** First loop of [_connect_sequence]: advance the iterator up to the first
    point found in [landmarks]; the result is that point and what is left
    of the iterator.  [None] is the exhausted iterator, on which the second
    loop has nothing to do. *)
Fixpoint seq_first (landmarks pt_it : list string)
  : option (string * list string) :=
  match pt_it with
  | [] => None
  | pt :: rest =>
      if py_in pt landmarks then Some (pt, rest)
      else seq_first landmarks rest
  end.

(** Body of the second loop of [_connect_sequence]; the state is
    [(connections, pt)]. *)
Definition seq_next (landmarks : list string) (st : list bone * string)
    (next_pt : string) : result (list bone * string) :=
  let '(connections, pt) := st in
  if py_in next_pt landmarks then
    a <~ index pt landmarks ;;
    b <~ index next_pt landmarks ;;
    Ok (connections ++ [(a, b)], next_pt)
  else Ok st.

Definition _connect_sequence (landmarks connection_list : list string)
  : result (list bone) :=
  match seq_first landmarks connection_list with
  | None => Ok []
  | Some (pt, pt_it) =>
      st <~ for_each (seq_next landmarks) pt_it ([], pt) ;;
      Ok (fst st)
  end.

Definition _connect_sequence_symmetrically
    (landmarks connection_list : list string) : result (list bone) :=
  for_each (fun connections side =>
              c <~ _connect_sequence landmarks
                     (with_side side connection_list) ;;
              Ok (connections ++ c))
           _sides [].

Definition _connect_tree (landmarks : list string)
    (connection_dict : list (string * string)) : result (list bone) :=
  for_each (fun connections '(src, dest) =>
              if py_in src landmarks && py_in dest landmarks then
                a <~ index src landmarks ;;
                b <~ index dest landmarks ;;
                Ok (connections ++ [(a, b)])
              else Ok connections)
           connection_dict [].

Definition _connect_tree_symmetrically (landmarks : list string)
    (connection_dict : list (string * string)) : result (list bone) :=
  for_each (fun connections side =>
              c <~ _connect_tree landmarks
                     (map (fun '(key, val) => (side +:+ key, side +:+ val))
                          connection_dict) ;;
              Ok (connections ++ c))
           _sides [].

(** [for x in candidates: if x in landmarks: ...; break]: the element at
    which the loop breaks, [None] when it runs into its [else]. *)
Fixpoint first_in (landmarks candidates : list string) : option string :=
  match candidates with
  | [] => None
  | x :: rest =>
      if py_in x landmarks then Some x else first_in landmarks rest
  end.

(** [_limb2spine].  [_sides] has two entries, so [limb_ends] is the list
    [[l; r]] and [tuple(limb_ends)] the bone [(l, r)]. *)
Definition _limb2spine (landmarks : list string) (limb_end : string)
    (spine_attachment spine_list : list string) : result (list bone) :=
  l <~ index ("left " +:+ limb_end) landmarks ;;
  r <~ index ("right " +:+ limb_end) landmarks ;;
  let limb_ends := [l; r] in
  match first_in landmarks spine_attachment with
  | Some attachment =>
      lm <~ index attachment landmarks ;;
      Ok (map (fun end_ => (end_, lm)) limb_ends)
  | None =>
      let connections := [(l, r)] in
      match first_in landmarks spine_list with
      | Some next_spine =>
          lm <~ index next_spine landmarks ;;
          Ok (connections ++ map (fun end_ => (end_, lm)) limb_ends)
      | None =>
          if decide (limb_end <> "hip") then
            for_each (fun connections '(i, side) =>
                        e <~ getitem limb_ends i ;;
                        h <~ index (side +:+ "hip") landmarks ;;
                        Ok (connections ++ [(e, h)]))
                     (enumerate _sides) connections
          else Ok connections
      end
  end.

(** [spine[3:]]. *)
Definition spine_from_shoulders : list string := drop 3 spine.

(** [l[start:stop:-1]] for in-range [stop < start]: the elements at
    [start], [start - 1], ..., [stop + 1]. *)
Definition slice_down {A} (l : list A) (start stop : nat) : list A :=
  omap (fun i => l !! i) (reverse (seq (S stop) (start - stop))).

(** [spine[-2:1:-1]]. *)
Definition spine_from_hips : list string :=
  slice_down spine (length spine - 2) 1.

(** The loop over [("clavicle", "shoulder")] in [_compute_bones]; the
    result is what gets appended to the MAIN bones. *)
Fixpoint shoulder_pass (landmarks shoulder_joints : list string)
  : result (list bone) :=
  match shoulder_joints with
  | [] => Ok []
  | shoulder_joint :: rest =>
      if py_in ("left " +:+ shoulder_joint) landmarks then
        _limb2spine landmarks shoulder_joint ["shoulder centre"; "neck"]
                    spine_from_shoulders
      else shoulder_pass landmarks rest
  end.

(** Inner loop of the head link: the spine point at which it breaks. *)
Fixpoint head_inner (landmarks : list string) (head_pt : string)
    (spine_pts : list string) : option string :=
  match spine_pts with
  | [] => None
  | top_spine :: rest =>
      if py_in head_pt landmarks && py_in top_spine landmarks
      then Some top_spine
      else head_inner landmarks head_pt rest
  end.

(** Outer loop of the head link: what gets appended to the HEAD bones. *)
Fixpoint head_link (landmarks head_pts : list string) : result (list bone) :=
  match head_pts with
  | [] => Ok []
  | head_pt :: rest =>
      match head_inner landmarks head_pt spine with
      | Some top_spine =>
          a <~ index head_pt landmarks ;;
          b <~ index top_spine landmarks ;;
          Ok [(a, b)]
      | None => head_link landmarks rest
      end
  end.

(** [self._bones[sec] = l] on the section dictionary. *)
Definition set_sec {V} (d : Sections -> V) (sec : Sections) (v : V)
  : Sections -> V :=
  fun s => if decide (s = sec) then v else d s.

Definition _compute_bones (landmarks : list string)
  : result (Sections -> list bone) :=
  let _bones : Sections -> list bone := fun _ => [] in
  arms <~ _connect_sequence_symmetrically landmarks arm ;;
  let _bones := set_sec _bones MAIN arms in
  shoulders <~ shoulder_pass landmarks ["clavicle"; "shoulder"] ;;
  let _bones := set_sec _bones MAIN (_bones MAIN ++ shoulders) in
  legs <~ _connect_sequence_symmetrically landmarks leg ;;
  let _bones := set_sec _bones MAIN (_bones MAIN ++ legs) in
  hips <~ _limb2spine landmarks "hip" ["pelvis"] spine_from_hips ;;
  let _bones := set_sec _bones MAIN (_bones MAIN ++ hips) in
  spine_bones <~ _connect_sequence landmarks spine ;;
  let _bones := set_sec _bones MAIN (_bones MAIN ++ spine_bones) in
  head_bones <~ _connect_sequence landmarks head ;;
  let _bones := set_sec _bones HEAD head_bones in
  link <~ head_link landmarks (reverse head) ;;
  let _bones := set_sec _bones HEAD (_bones HEAD ++ link) in
  face_bones <~ _connect_tree_symmetrically landmarks face ;;
  let _bones := set_sec _bones FACE face_bones in
  hand_bones <~ _connect_tree_symmetrically landmarks hand ;;
  let _bones := set_sec _bones HANDS hand_bones in
  foot_bones <~ _connect_tree_symmetrically landmarks foot ;;
  let _bones := set_sec _bones FEET foot_bones in
  object_bones <~ _connect_sequence landmarks objects ;;
  Ok (set_sec _bones OBJECTS object_bones).

(** *** Colours *)

Abbreviation colours_t := (Sections -> gmap nat colour).

(** The [if]/[elif] chain choosing the section of a body part; without a
    match [skeleton_sec] keeps what it held before. *)
Definition section_of (body_part : string) (skeleton_sec : option Sections)
  : option Sections :=
  if bool_decide (body_part = "spine") || bool_decide (body_part = "arm")
     || bool_decide (body_part = "leg") then Some MAIN
  else if bool_decide (body_part = "head") then Some HEAD
  else if bool_decide (body_part = "face") then Some FACE
  else if bool_decide (body_part = "hand") then Some HANDS
  else if bool_decide (body_part = "foot") then Some FEET
  else if bool_decide (body_part = "objects") then Some OBJECTS
  else skeleton_sec.

Definition read_local {V} (x : option V) : result V :=
  match x with
  | Some v => Ok v
  | None => Raise UnboundLocalError
  end.

(** Iterating [joints]: the elements of a list, the keys of a dict. *)
Definition iter_joints (joints : part_shape) : list string :=
  match joints with
  | Chain l => l
  | Tree d => d.*1
  end.

(** [joints.keys()]. *)
Definition keys (joints : part_shape) : result (list string) :=
  match joints with
  | Chain _ => Raise AttributeError
  | Tree d => Ok (d.*1)
  end.

(** [self._colours[sec][key] = c]. *)
Definition set_colour (colours : colours_t) (sec : Sections) (key : nat)
    (c : colour) : colours_t :=
  set_sec colours sec (<[key := c]> (colours sec)).

(** The interpolation parameter [t] of the [i]-th of [n] joints. *)
Definition gradient_t (i n : nat) : result pynum :=
  if (1 <? n)%nat then py_truediv (Z.of_nat i) (Z.of_nat n - 1)
  else Ok (PyInt 1).

(** [int(start[j] * (1 - t) + end[j] * t)]. *)
Definition channel (start_j end_j : Z) (t : pynum) : result Z :=
  py_int (py_add (py_mul (PyInt start_j) (py_sub (PyInt 1) t))
                 (py_mul (PyInt end_j) t)).

(** The tuple over [j in range(3)]. *)
Definition gradient_colour (start end_ : colour) (t : pynum)
  : result colour :=
  let '(s0, s1, s2) := start in
  let '(e0, e1, e2) := end_ in
  c0 <~ channel s0 e0 t ;;
  c1 <~ channel s1 e1 t ;;
  c2 <~ channel s2 e2 t ;;
  Ok (c0, c1, c2).

(** The flat colouring of the present keys of a tree part. *)
Definition colour_flat (landmarks : list string) (sec : Sections)
    (side : string) (c : colour) (joints : list string)
    (colours : colours_t) : result colours_t :=
  for_each (fun colours joint =>
              if py_in (side +:+ joint) landmarks then
                k <~ index (side +:+ joint) landmarks ;;
                Ok (set_colour colours sec k c)
              else Ok colours)
           joints colours.

(** Collecting [part_joints]. *)
Definition collect_part_joints (landmarks : list string) (side : string)
    (joints : list string) : result (list nat) :=
  for_each (fun part_joints joint =>
              if py_in (side +:+ joint) landmarks then
                k <~ index (side +:+ joint) landmarks ;;
                Ok (part_joints ++ [k])
              else Ok part_joints)
           joints [].

(** The gradient colouring of a chain part. *)
Definition colour_gradient (landmarks : list string) (sec : Sections)
    (side : string) (start end_ : colour) (joints : list string)
    (colours : colours_t) : result colours_t :=
  part_joints <~ collect_part_joints landmarks side joints ;;
  if (0 <? length part_joints)%nat then
    for_each (fun colours '(i, joint) =>
                t <~ gradient_t i (length part_joints) ;;
                c <~ gradient_colour start end_ t ;;
                Ok (set_colour colours sec joint c))
             (enumerate part_joints) colours
  else Ok colours.

(** Body of the loop over [sides]. *)
Definition colour_side (landmarks : list string) (sec : Sections)
    (body_part : string) (joints : part_shape) (colours : colours_t)
    (side : string) : result colours_t :=
  pc <~ dict_get _part_colours (side +:+ body_part) ;;
  match pc with
  | Flat c =>
      ks <~ keys joints ;;
      colour_flat landmarks sec side c ks colours
  | Gradient start end_ =>
      colour_gradient landmarks sec side start end_ (iter_joints joints)
                      colours
  end.

(** Body of the loop over [_body_parts.items()]; the state is
    [(self._colours, skeleton_sec)]. *)
Definition colour_part (landmarks : list string)
    (st : colours_t * option Sections) (item : string * part_shape)
  : result (colours_t * option Sections) :=
  let '(colours, skeleton_sec) := st in
  let '(body_part, joints) := item in
  let skeleton_sec := section_of body_part skeleton_sec in
  let sides := if py_in body_part _sided_bodyparts then _sides else [""] in
  colours <~ for_each (fun colours side =>
                         sec <~ read_local skeleton_sec ;;
                         colour_side landmarks sec body_part joints
                                     colours side)
                      sides colours ;;
  Ok (colours, skeleton_sec).

Definition _compute_colours (landmarks : list string) : result colours_t :=
  st <~ for_each (colour_part landmarks) _body_parts (fun _ => ∅, None) ;;
  Ok (fst st).

(** *** The class *)

Record t : Type := mk {
  _bones : Sections -> list bone;
  _colours : colours_t;
  _radius : Z
}.

(** [_Skeleton.__init__(self, landmarks, radius=5)]. *)
Definition __init__ (landmarks : list string) (radius : Z) : result t :=
  bones <~ _compute_bones landmarks ;;
  colours <~ _compute_colours landmarks ;;
  Ok {| _bones := bones; _colours := colours; _radius := radius |}.

(** [get_bone_list], iterating over [members]. *)
Definition get_bone_list_over (members : list Sections) (self : t)
    (skeleton_sections : Z) : list bone :=
  foldl (fun bones sec =>
           if enabled skeleton_sections sec then bones ++ _bones self sec
           else bones)
        [] members.

Definition get_bone_list (self : t) (skeleton_sections : Z) : list bone :=
  get_bone_list_over Sections_members self skeleton_sections.

(** [print_bones]. *)
Definition print_bones (self : t) (landmarks : list string)
    (skeleton_sections : Z) : result (list (string * string)) :=
  for_each (fun names '(b0, b1) =>
              n0 <~ getitem landmarks b0 ;;
              n1 <~ getitem landmarks b1 ;;
              Ok (names ++ [(n0, n1)]))
           (get_bone_list self skeleton_sections) [].

(** [get_colour_dict], iterating over [members]; [colours.update(d)]
    lets the entries of [d] win. *)
Definition get_colour_dict_over (members : list Sections) (self : t)
    (skeleton_sections : Z) : gmap nat colour :=
  foldl (fun colours sec =>
           if enabled skeleton_sections sec then _colours self sec ∪ colours
           else colours)
        ∅ members.

Definition get_colour_dict (self : t) (skeleton_sections : Z)
  : gmap nat colour :=
  get_colour_dict_over Sections_members self skeleton_sections.

End _Skeleton.

(** ** Vocabulary of the statements

    The definitions below belong to the properties, not to the program:
    they name what the statements talk about. *)

(** The names of [l] found in the schema, in the order of [l]. *)
Definition present (landmarks l : list string) : list string :=
  filter (fun name => name ∈ landmarks) l.

(** Position of a name in the schema ([0] for an absent name, for which it
    is never used). *)
Definition idx (landmarks : list string) (name : string) : nat :=
  match index name landmarks with
  | Ok k => k
  | Raise _ => 0%nat
  end.

(** The edges of the path through [l]: every element with its successor. *)
Definition adjacent {A} (l : list A) : list (A * A) := zip l (tail l).

(** The bones of the path through the present names of a chain. *)
Definition chain_path (landmarks connection_list : list string)
  : list (nat * nat) :=
  adjacent (map (idx landmarks) (present landmarks connection_list)).

(** The schema without the name [x]. *)
Definition remove_name (x : string) (landmarks : list string)
  : list string :=
  filter (fun name => name <> x) landmarks.

(** The candidate pairs of the head-to-spine link in the order in which
    the nested loops visit them: head candidates reversed outside, spine
    candidates inside. *)
Definition head_spine_pairs : list (string * string) :=
  flat_map (fun head_pt => map (fun top_spine => (head_pt, top_spine))
                               _Skeleton.spine)
           (reverse _Skeleton.head).

(** Both names of a pair are in the schema. *)
Definition both_in (landmarks : list string) (p : string * string) : bool :=
  py_in p.1 landmarks && py_in p.2 landmarks.

(** The edges of a tree part: one per child:parent pair with both names in
    the schema. *)
Definition tree_edges (landmarks : list string)
    (connection_dict : list (string * string)) : list (nat * nat) :=
  map (fun p => (idx landmarks p.1, idx landmarks p.2))
      (filter (fun p => both_in landmarks p = true) connection_dict).

(** The bone lists of the sections enabled in a mask, in the given order of
    the sections, one after the other. *)
Definition enabled_bones (members : list _Skeleton.Sections)
    (bones : _Skeleton.Sections -> list _Skeleton.bone) (mask : Z)
  : list _Skeleton.bone :=
  concat (map bones (filter (fun sec => _Skeleton.enabled mask sec = true)
                            members)).

(** *** Colours as a sequence of writes *)

(** One assignment [self._colours[sec][landmarks.index(name)] = c]. *)
Abbreviation write := (_Skeleton.Sections * string * (Z * Z * Z))%type.

Definition apply_writes (landmarks : list string) (ws : list write)
    (colours : _Skeleton.Sections -> gmap nat (Z * Z * Z))
  : _Skeleton.Sections -> gmap nat (Z * Z * Z) :=
  foldl (fun cs (w : write) =>
           _Skeleton.set_colour cs w.1.1 (idx landmarks w.1.2) w.2)
        colours ws.

(** The colour of the [i]-th of [n] joints of a gradient, as the loop body
    computes it. *)
Definition gradient_at (start end_ : Z * Z * Z) (i n : nat)
  : result (Z * Z * Z) :=
  t <~ _Skeleton.gradient_t i n ;; _Skeleton.gradient_colour start end_ t.

Definition grad_colour (start end_ : Z * Z * Z) (i n : nat) : Z * Z * Z :=
  match gradient_at start end_ i n with
  | Ok c => c
  | Raise _ => (0, 0, 0)%Z
  end.

(** The gradient computation goes through for every position of every
    count of joints up to [m]. *)
Definition gradient_defined (start end_ : Z * Z * Z) (m : nat) : bool :=
  forallb (fun n =>
             forallb (fun i => match gradient_at start end_ i n with
                               | Ok _ => true
                               | Raise _ => false
                               end)
                     (seq 0 n))
          (seq 0 (S m)).

(** The writes of one side of one body part, over its names [names]. *)
Definition part_writes (landmarks : list string)
    (sec : _Skeleton.Sections) (pc : _Skeleton.part_colour)
    (names : list string) : list write :=
  let ps := present landmarks names in
  match pc with
  | _Skeleton.Flat c => map (fun name => (sec, name, c)) ps
  | _Skeleton.Gradient start end_ =>
      imap (fun i name => (sec, name, grad_colour start end_ i (length ps)))
           ps
  end.

Definition sides_of (body_part : string) : list string :=
  if py_in body_part _Skeleton._sided_bodyparts then _Skeleton._sides
  else [""].

Definition side_names (joints : _Skeleton.part_shape) (side : string)
  : list string :=
  _Skeleton.with_side side (_Skeleton.iter_joints joints).

Definition side_writes (landmarks : list string)
    (sec : _Skeleton.Sections) (body_part : string)
    (joints : _Skeleton.part_shape) (side : string) : list write :=
  match dict_get _Skeleton._part_colours (side +:+ body_part) with
  | Ok pc => part_writes landmarks sec pc (side_names joints side)
  | Raise _ => []
  end.

Definition item_writes (landmarks : list string)
    (item : string * _Skeleton.part_shape) : list write :=
  match _Skeleton.section_of item.1 None with
  | Some sec =>
      flat_map (side_writes landmarks sec item.1 item.2) (sides_of item.1)
  | None => []
  end.

(** Every write of [_compute_colours], in order. *)
Definition all_writes (landmarks : list string) : list write :=
  flat_map (item_writes landmarks) _Skeleton._body_parts.

(** Every name the colouring looks for, in order. *)
Definition coloured_names : list string :=
  flat_map (fun item : string * _Skeleton.part_shape =>
              flat_map (side_names item.2) (sides_of item.1))
           _Skeleton._body_parts.

(** The tables fit together: the section is determined, the colour entry
    exists, a flat colour goes with a dictionary of joints, and a gradient
    is computable for every number of joints the part can have. *)
Definition side_ok (body_part : string) (joints : _Skeleton.part_shape)
    (side : string) : bool :=
  match dict_get _Skeleton._part_colours (side +:+ body_part) with
  | Ok (_Skeleton.Flat _) =>
      match joints with
      | _Skeleton.Tree _ => true
      | _Skeleton.Chain _ => false
      end
  | Ok (_Skeleton.Gradient start end_) =>
      gradient_defined start end_ (length (_Skeleton.iter_joints joints))
  | Raise _ => false
  end.

Definition item_ok (item : string * _Skeleton.part_shape) : bool :=
  match _Skeleton.section_of item.1 None with
  | Some _ => forallb (side_ok item.1 item.2) (sides_of item.1)
  | None => false
  end.

(** The chain-shaped parts, each with its side prefix. *)
Definition chain_parts : list (string * string) :=
  [("", "spine"); ("left ", "leg"); ("right ", "leg"); ("left ", "arm");
   ("right ", "arm"); ("", "head"); ("", "objects")].

(** The channel of a gradient colour as the specification words it,
    [round(start[c]*(1-t) + end[c]*t)], to set against [channel], which
    follows the source. *)
Definition spec_channel (start_j end_j : Z) (t : pynum) : result Z :=
  py_round (py_add (py_mul (PyInt start_j) (py_sub (PyInt 1) t))
                   (py_mul (PyInt end_j) t)).

(** *** Schemas used as examples *)

(** The fixture of the specification's testable properties. *)
Definition fixture : list string :=
  ["nose"; "left hip"; "right hip"; "pelvis"].

(** A right leg with all four joints, and the left hip the hip pass asks
    for. *)
Definition right_leg_schema : list string :=
  ["right foot"; "right ankle"; "right knee"; "right hip"; "left hip"].

(** *** The skeleton by names *)

(** The bone joining the positions of two names. *)
Definition pair_idx (landmarks : list string) (p : string * string)
  : nat * nat :=
  (idx landmarks p.1, idx landmarks p.2).

Definition both_present (landmarks : list string) (p : string * string)
  : Prop :=
  p.1 ∈ landmarks /\ p.2 ∈ landmarks.

(** The edges of a chain, by name. *)
Definition chain_names (landmarks cl : list string)
  : list (string * string) :=
  adjacent (present landmarks cl).

Definition sided_chain_names (landmarks cl : list string)
  : list (string * string) :=
  chain_names landmarks (_Skeleton.with_side "left " cl)
  ++ chain_names landmarks (_Skeleton.with_side "right " cl).

(** The edges of a tree part, by name. *)
Definition tree_names (landmarks : list string)
    (d : list (string * string)) : list (string * string) :=
  filter (fun p => both_in landmarks p = true) d.

Definition with_side_dict (side : string) (d : list (string * string))
  : list (string * string) :=
  map (fun '(key, val) => (side +:+ key, side +:+ val)) d.

Definition sided_tree_names (landmarks : list string)
    (d : list (string * string)) : list (string * string) :=
  tree_names landmarks (with_side_dict "left " d)
  ++ tree_names landmarks (with_side_dict "right " d).

(** The edges of a limb-to-spine attachment, by name: the three steps of
    the fallback. *)
Definition limb_names (landmarks : list string) (limb_end : string)
    (spine_attachment spine_list : list string)
  : list (string * string) :=
  let l := "left " +:+ limb_end in
  let r := "right " +:+ limb_end in
  match _Skeleton.first_in landmarks spine_attachment with
  | Some attachment => [(l, attachment); (r, attachment)]
  | None =>
      match _Skeleton.first_in landmarks spine_list with
      | Some next_spine => [(l, r); (l, next_spine); (r, next_spine)]
      | None =>
          if decide (limb_end <> "hip")
          then [(l, r); (l, "left hip"); (r, "right hip")]
          else [(l, r)]
      end
  end.

Definition shoulder_names (landmarks : list string)
  : list (string * string) :=
  if py_in "left clavicle" landmarks then
    limb_names landmarks "clavicle" ["shoulder centre"; "neck"]
               _Skeleton.spine_from_shoulders
  else if py_in "left shoulder" landmarks then
    limb_names landmarks "shoulder" ["shoulder centre"; "neck"]
               _Skeleton.spine_from_shoulders
  else [].

Definition head_link_names (landmarks : list string)
  : list (string * string) :=
  match find (both_in landmarks) head_spine_pairs with
  | Some p => [p]
  | None => []
  end.

(** The bones of a section, by name. *)
Definition bone_names (landmarks : list string)
    (sec : _Skeleton.Sections) : list (string * string) :=
  match sec with
  | _Skeleton.MAIN =>
      sided_chain_names landmarks _Skeleton.arm
      ++ shoulder_names landmarks
      ++ sided_chain_names landmarks _Skeleton.leg
      ++ limb_names landmarks "hip" ["pelvis"] _Skeleton.spine_from_hips
      ++ chain_names landmarks _Skeleton.spine
  | _Skeleton.HEAD =>
      chain_names landmarks _Skeleton.head ++ head_link_names landmarks
  | _Skeleton.FACE => sided_tree_names landmarks _Skeleton.face
  | _Skeleton.HANDS => sided_tree_names landmarks _Skeleton.hand
  | _Skeleton.FEET => sided_tree_names landmarks _Skeleton.foot
  | _Skeleton.FULL => []
  | _Skeleton.OBJECTS => chain_names landmarks _Skeleton.objects
  end.

(** The names the colouring looks for in a section. *)
Definition section_names (sec : _Skeleton.Sections) : list string :=
  flat_map (fun item : string * _Skeleton.part_shape =>
              match _Skeleton.section_of item.1 None with
              | Some s =>
                  if decide (s = sec)
                  then flat_map (side_names item.2) (sides_of item.1)
                  else []
              | None => []
              end)
           _Skeleton._body_parts.

(** Every pair of names that a limb-to-spine attachment can join. *)
Definition limb_candidates (limb_end : string)
    (spine_attachment spine_list : list string)
  : list (string * string) :=
  let l := "left " +:+ limb_end in
  let r := "right " +:+ limb_end in
  [(l, r)]
  ++ (if decide (limb_end <> "hip")
      then [(l, "left hip"); (r, "right hip")] else [])
  ++ map (fun s => (l, s)) (spine_attachment ++ spine_list)
  ++ map (fun s => (r, s)) (spine_attachment ++ spine_list).

(** An edge by name that fits a section: two different names, the first
    of them coloured in that section. *)
Definition edge_ok (sec : _Skeleton.Sections) (p : string * string)
  : Prop :=
  p.1 <> p.2 /\ p.1 ∈ section_names sec.

(** The edges, by name, of the sections enabled in a mask. *)
Definition enabled_names (landmarks : list string) (mask : Z)
  : list (string * string) :=
  concat (map (bone_names landmarks)
              (filter (fun sec => _Skeleton.enabled mask sec = true)
                      _Skeleton.Sections_members)).

(** [s1 | s2 | ...] for a list of sections. *)
Definition mask_of (secs : list _Skeleton.Sections) : Z :=
  foldr (fun sec mask => Z.lor (_Skeleton.value sec) mask) 0%Z secs.

(** *** Colour values *)

Definition channel_in_range (z : Z) : bool := (0 <=? z)%Z && (z <=? 255)%Z.

Definition colour_in_range (c : Z * Z * Z) : bool :=
  channel_in_range c.1.1 && channel_in_range c.1.2 && channel_in_range c.2.

(** A stored channel [c] against the exact interpolation between [s] and
    [e] at the [i]-th of [n] joints: [c <= (s*(n-1-i) + e*i)/(n-1) <= c+1],
    with the division multiplied out. *)
Definition near_exact (s e c : Z) (i n : nat) : Prop :=
  ((Z.of_nat n - 1) * c
   <= s * (Z.of_nat n - 1 - Z.of_nat i) + e * Z.of_nat i
   <= (Z.of_nat n - 1) * (c + 1))%Z.

Definition near_exact_b (s e c : Z) (i n : nat) : bool :=
  ((Z.of_nat n - 1) * c
   <=? s * (Z.of_nat n - 1 - Z.of_nat i) + e * Z.of_nat i)%Z
  && (s * (Z.of_nat n - 1 - Z.of_nat i) + e * Z.of_nat i
      <=? (Z.of_nat n - 1) * (c + 1))%Z.

(** The colours of a gradient for up to [m] joints, checked one by
    one. *)
Definition gradient_checked (start end_ : Z * Z * Z) (m : nat) : bool :=
  forallb (fun n =>
             forallb (fun i =>
                        let c := grad_colour start end_ i n in
                        colour_in_range c
                        && near_exact_b start.1.1 end_.1.1 c.1.1 i n
                        && near_exact_b start.1.2 end_.1.2 c.1.2 i n
                        && near_exact_b start.2 end_.2 c.2 i n)
                     (seq 0 n))
          (seq 0 (S m)).

Definition side_checked (body_part : string)
    (joints : _Skeleton.part_shape) (side : string) : bool :=
  match dict_get _Skeleton._part_colours (side +:+ body_part) with
  | Ok (_Skeleton.Flat c) => colour_in_range c
  | Ok (_Skeleton.Gradient start end_) =>
      gradient_checked start end_
        (length (_Skeleton.iter_joints joints))
  | Raise _ => true
  end.

Definition item_checked (item : string * _Skeleton.part_shape) : bool :=
  forallb (side_checked item.1 item.2) (sides_of item.1).

(** ** Basic facts about the runtime fragment *)

Lemma for_each_app {A S} (body : S -> A -> result S) l1 l2 s :
  for_each body (l1 ++ l2) s = (s' <~ for_each body l1 s ;; for_each body l2 s').
Proof.
  revert s. induction l1 as [|x l1 IH]; intros s; simpl; [done|].
  destruct (body s x); simpl; auto.
Qed.

Lemma enumerate_snoc {A} (l : list A) x :
  enumerate (l ++ [x]) = enumerate l ++ [(length l, x)].
Proof.
  unfold enumerate. rewrite length_app. simpl.
  rewrite seq_app. simpl. rewrite zip_with_app by (by rewrite length_seq).
  done.
Qed.

Lemma py_in_true x l : py_in x l = true <-> x ∈ l.
Proof. unfold py_in. by rewrite bool_decide_eq_true. Qed.

Lemma py_in_false x l : py_in x l = false <-> x ∉ l.
Proof. unfold py_in. by rewrite bool_decide_eq_false. Qed.

(** On a present name [index] returns the first position holding it. *)
Lemma index_present x l :
  x ∈ l ->
  exists k, index x l = Ok k /\ l !! k = Some x /\
            forall j, (j < k)%nat -> l !! j <> Some x.
Proof.
  induction l as [|y l IH]; intros Hin.
  - by apply elem_of_nil in Hin.
  - simpl. destruct (decide (y = x)) as [->|Hne].
    + exists 0%nat. split_and!; [done..|]. intros j Hj. lia.
    + apply elem_of_cons in Hin as [->|Hin]; [done|].
      destruct (IH Hin) as (k & -> & Hk & Hfirst). exists (S k).
      split_and!; [done..|]. intros [|j] Hj; simpl.
      * intros [= ?]. done.
      * apply Hfirst. lia.
Qed.

Lemma index_absent x l : x ∉ l -> index x l = Raise ValueError.
Proof.
  induction l as [|y l IH]; intros Hnin; [done|].
  apply not_elem_of_cons in Hnin as [Hne Hnin]. simpl.
  destruct (decide (y = x)); [congruence|]. by rewrite IH.
Qed.

Lemma index_Ok_lookup x l k : index x l = Ok k -> l !! k = Some x.
Proof.
  intros Hk. destruct (decide (x ∈ l)) as [Hin|Hnin].
  - destruct (index_present x l Hin) as (k' & Hk' & Hl & _). congruence.
  - rewrite index_absent in Hk by done. discriminate.
Qed.

(** Distinct present names have distinct positions. *)
Lemma index_inj x y l k :
  index x l = Ok k -> index y l = Ok k -> x = y.
Proof.
  intros Hx%index_Ok_lookup Hy%index_Ok_lookup. congruence.
Qed.

(** ** The intersection of two schemas *)

Section IntersectionFacts.
Import Intersection.
Implicit Types src dest : list string.

Lemma init_loop_built src l :
  exists I,
    for_each (init_body src) (enumerate l)
      {| _src_vec := []; _dest_vec := []; landmarks := [] |} = Ok I /\
    landmarks I = filter (fun name => name ∈ src) l /\
    length (_src_vec I) = length (landmarks I) /\
    length (_dest_vec I) = length (landmarks I) /\
    forall k name, landmarks I !! k = Some name ->
      exists i j, _dest_vec I !! k = Some j /\ l !! j = Some name /\
                  _src_vec I !! k = Some i /\ src !! i = Some name.
Proof.
  induction l as [|x l IH] using rev_ind.
  - eexists. split; [reflexivity|]. repeat split; simpl; try done.
  - destruct IH as (I & HI & Hlm & Hls & Hld & Hk).
    rewrite enumerate_snoc, for_each_app, HI. simpl.
    rewrite filter_app, filter_cons, filter_nil.
    destruct (py_in x src) eqn:Hx.
    + apply py_in_true in Hx.
      destruct (index_present x src Hx) as (i & -> & Hi & _). simpl.
      eexists. split; [reflexivity|].
      rewrite decide_True by done.
      repeat split; simpl.
      * by rewrite Hlm.
      * rewrite !length_app. simpl. lia.
      * rewrite !length_app. simpl. lia.
      * intros k name Hlook.
        destruct (decide (k < length (landmarks I))%nat) as [Hlt|Hge].
        -- rewrite lookup_app_l in Hlook by done.
           destruct (Hk k name Hlook) as (i' & j' & H1 & H2 & H3 & H4).
           exists i', j'.
           rewrite !lookup_app_l by (rewrite ?Hls, ?Hld; try done;
                                     by eapply lookup_lt_Some).
           done.
        -- assert (k = length (landmarks I)) as ->.
           { apply lookup_lt_Some in Hlook.
             rewrite length_app in Hlook. simpl in Hlook. lia. }
           rewrite lookup_app_r, Nat.sub_diag in Hlook by lia.
           injection Hlook as <-.
           exists i, (length l).
           rewrite <- Hld at 1. rewrite <- Hls.
           rewrite !lookup_app_r, !Nat.sub_diag by lia.
           done.
    + apply py_in_false in Hx. simpl.
      exists I. split; [done|].
      rewrite decide_False by done. rewrite app_nil_r.
      repeat split; try done.
      intros k name Hlook.
      destruct (Hk k name Hlook) as (i' & j' & H1 & H2 & H3 & H4).
      exists i', j'. rewrite lookup_app_l by (by eapply lookup_lt_Some).
      done.
Qed.

Lemma common_names_size src dest :
  NoDup dest ->
  length (filter (fun name => name ∈ src) dest) =
  size ((list_to_set src : gset string) ∩ list_to_set dest).
Proof.
  intros Hnd.
  rewrite <- (size_list_to_set (C := gset string))
    by (by apply NoDup_filter).
  f_equal. apply set_eq. intros x.
  rewrite elem_of_list_to_set, list_elem_of_filter, elem_of_intersection,
    !elem_of_list_to_set. done.
Qed.

(** C3. For duplicate-free schemas [src] and [dest] the constructor
    succeeds; [landmarks] is the list of the names common to both in the
    order of [dest], as many as the intersection of the two name sets
    has elements; and at every position [k] of it the two index vectors
    point back at that name: [dest[_dest_vec[k]] = landmarks[k] =
    src[_src_vec[k]]]. *)
Theorem intersection_init_spec src dest :
  NoDup src -> NoDup dest ->
  exists I, __init__ src dest = Ok I /\
    landmarks I = filter (fun name => name ∈ src) dest /\
    sublist (landmarks I) dest /\
    (forall name, name ∈ landmarks I <-> name ∈ src /\ name ∈ dest) /\
    length (landmarks I) =
      size ((list_to_set src : gset string) ∩ list_to_set dest) /\
    length (_src_vec I) = length (landmarks I) /\
    length (_dest_vec I) = length (landmarks I) /\
    forall k name, landmarks I !! k = Some name ->
      exists i j, _dest_vec I !! k = Some j /\ dest !! j = Some name /\
                  _src_vec I !! k = Some i /\ src !! i = Some name.
Proof.
  intros _ Hdest.
  destruct (init_loop_built src dest) as (I & HI & Hlm & Hls & Hld & Hk).
  exists I. split; [exact HI|]. split; [exact Hlm|].
  split; [rewrite Hlm; apply sublist_filter|].
  split; [intros name; rewrite Hlm, list_elem_of_filter; done|].
  split; [rewrite Hlm; by apply common_names_size|].
  done.
Qed.

Lemma intersection_init_spec_witness :
  exists I, __init__ ["nose"; "neck"; "pelvis"] ["pelvis"; "head"; "nose"]
              = Ok I /\
    landmarks I = ["pelvis"; "nose"] /\
    _src_vec I = [2; 0]%nat /\ _dest_vec I = [0; 2]%nat.
Proof.
  destruct (intersection_init_spec
              ["nose"; "neck"; "pelvis"] ["pelvis"; "head"; "nose"])
    as (I & HI & _);
    [compute_done..|].
  exists I. split; [exact HI|].
  vm_compute in HI. injection HI as <-. done.
Defined.
End IntersectionFacts.

(** ** Projection of keypoint arrays *)

Section ProjectionFacts.
Context {A : Type}.
Implicit Types (a : ndarray A) (vec : list nat) (buf : list A).

Lemma check_indices_ok n vec :
  Forall (fun i => i < n)%nat vec -> check_indices n vec = Ok tt.
Proof.
  intros H. unfold check_indices.
  replace (forallb _ vec) with true; [done|].
  symmetry. apply forallb_forall. intros i Hi%list_elem_of_In.
  rewrite Forall_forall in H. apply Nat.ltb_lt. auto.
Qed.

Lemma check_indices_fail n vec i :
  i ∈ vec -> (n <= i)%nat -> check_indices n vec = Raise IndexError.
Proof.
  intros Hi Hle. unfold check_indices.
  destruct (forallb _ vec) eqn:Hall; [|done].
  rewrite forallb_forall in Hall.
  apply list_elem_of_In, Hall, Nat.ltb_lt in Hi. lia.
Qed.

Lemma concat_lookup_uniform (ls : list (list A)) w k j :
  Forall (fun l => length l = w) ls -> (j < w)%nat ->
  concat ls !! (k * w + j)%nat = ls !! k ≫= fun l => l !! j.
Proof.
  intros Hall Hj. revert k.
  induction Hall as [|l ls Hl Hall IH]; intros k; [done|].
  destruct k as [|k]; simpl.
  - rewrite lookup_app_l by lia. done.
  - rewrite lookup_app_r by lia.
    replace (w + k * w + j - length l)%nat with (k * w + j)%nat by lia.
    apply IH.
Qed.

Lemma concat_length_uniform (ls : list (list A)) w :
  Forall (fun l => length l = w) ls ->
  length (concat ls) = (length ls * w)%nat.
Proof.
  induction 1 as [|l ls Hl Hall IH]; [done|].
  simpl. rewrite length_app. lia.
Qed.

Lemma entry_length w buf i :
  (i * w + w <= length buf)%nat -> length (entry w buf i) = w.
Proof.
  intros H. unfold entry. rewrite length_take, length_drop.
  lia.
Qed.

Lemma entry_lookup w buf i j :
  (j < w)%nat -> entry w buf i !! j = buf !! (i * w + j)%nat.
Proof.
  intros H. unfold entry. by rewrite lookup_take_lt, lookup_drop.
Qed.

Lemma gather_uniform w buf vec n :
  (n * w <= length buf)%nat -> Forall (fun i => i < n)%nat vec ->
  Forall (fun l => length l = w) (map (entry w buf) vec).
Proof.
  intros Hlen Hvec. apply Forall_fmap. eapply Forall_impl; [exact Hvec|].
  intros i Hi. simpl in *. apply entry_length.
  assert ((i + 1) * w <= n * w)%nat by (apply Nat.mul_le_mono_r; lia).
  lia.
Qed.

Lemma gather_length w buf vec n :
  (n * w <= length buf)%nat -> Forall (fun i => i < n)%nat vec ->
  length (gather w buf vec) = (length vec * w)%nat.
Proof.
  intros Hlen Hvec. unfold gather.
  erewrite concat_length_uniform by (by eapply gather_uniform).
  by rewrite length_map.
Qed.

Lemma gather_lookup w buf vec n k j :
  (n * w <= length buf)%nat -> Forall (fun i => i < n)%nat vec ->
  (j < w)%nat ->
  gather w buf vec !! (k * w + j)%nat
  = vec !! k ≫= fun i => buf !! (i * w + j)%nat.
Proof.
  intros Hlen Hvec Hj. unfold gather.
  erewrite concat_lookup_uniform by (by eauto using gather_uniform).
  rewrite list_lookup_fmap. destruct (vec !! k); simpl; [|done].
  by apply entry_lookup.
Qed.

Lemma source_project (self : Intersection.t) a :
  Intersection.source self a = project (Intersection._src_vec self) a.
Proof. reflexivity. Qed.

Lemma destination_project (self : Intersection.t) a :
  Intersection.destination self a
  = project (Intersection._dest_vec self) a.
Proof. reflexivity. Qed.

Lemma project_short vec a n i :
  landmark_axis a = Some n -> i ∈ vec -> (n <= i)%nat ->
  project vec a = Raise IndexError.
Proof.
  unfold landmark_axis, project, take_axis0, take_axis1.
  intros Hn Hi Hle.
  destruct (shape a) as [|n0 [|n1 [|n2 [|? ?]]]]; try discriminate;
    injection Hn as <-; simpl;
    by rewrite (check_indices_fail _ _ i).
Qed.

Lemma project_other vec a :
  length (shape a) <> 2%nat -> length (shape a) <> 3%nat ->
  project vec a = Ok None.
Proof.
  intros H2 H3. unfold project.
  apply Nat.eqb_neq in H2, H3. by rewrite H2, H3.
Qed.

Lemma project_long vec a n :
  landmark_axis a = Some n -> wf a ->
  Forall (fun i => i < n)%nat vec ->
  exists r, project vec a = Ok (Some r) /\
    shape r = projected_shape a (length vec) /\ wf r /\
    forall pos, at_pos r pos = gathered a vec pos.
Proof.
  unfold landmark_axis, project, take_axis0, take_axis1, wf,
    projected_shape.
  intros Hn Hwf Hvec.
  destruct a as [shp buf]. simpl in *.
  destruct shp as [|n0 [|n1 [|n2 [|? ?]]]]; try discriminate;
    injection Hn as <-; simpl in *;
    rewrite check_indices_ok by done; simpl;
    eexists; (split; [reflexivity|]); simpl; (split; [reflexivity|]).
  - (* [[landmarks, coordinates]] *)
    rewrite Nat.mul_1_r in *.
    split; [by rewrite (gather_length _ _ _ n0) by (done || lia)|].
    intros pos. unfold at_pos, gathered, at2; simpl.
    destruct pos as [|k [|j [|? ?]]]; try done.
    destruct (decide (j < n1)%nat) as [Hj|Hj].
    + rewrite (proj2 (Nat.ltb_lt j n1)) by done.
      rewrite andb_true_r.
      destruct (vec !! k) as [i|] eqn:Hk; simpl.
      * rewrite (proj2 (Nat.ltb_lt k (length vec)))
          by (by eapply lookup_lt_Some).
        rewrite (gather_lookup _ _ _ n0) by (done || lia).
        rewrite Hk. simpl.
        rewrite Forall_forall in Hvec.
        rewrite (proj2 (Nat.ltb_lt i n0))
          by (by eapply Hvec, list_elem_of_lookup_2).
        done.
      * apply lookup_ge_None in Hk.
        by rewrite (proj2 (Nat.ltb_ge k (length vec))).
    + rewrite (proj2 (Nat.ltb_ge j n1)) by lia.
      rewrite ?andb_false_r.
      destruct (vec !! k); simpl; by rewrite ?andb_false_r.
  - (* [[frames, landmarks, coordinates]] *)
    rewrite Nat.mul_1_r in *.
    assert (Forall (fun l => length l = (length vec * n2)%nat)
              (map (fun f => gather n2 (entry (n1 * n2) buf f) vec)
                   (seq 0 n0))) as Hunif.
    { apply Forall_fmap, Forall_forall. intros f Hf%elem_of_seq. simpl.
      eapply gather_length; [|done].
      rewrite entry_length; [done|].
      assert ((f + 1) * (n1 * n2) <= n0 * (n1 * n2))%nat
        by (apply Nat.mul_le_mono_r; lia).
      lia. }
    split.
    { rewrite (concat_length_uniform _ _ Hunif).
      by rewrite length_map, length_seq. }
    intros pos. unfold at_pos, gathered, at3; simpl.
    destruct pos as [|f [|k [|j [|? ?]]]]; try done.
    destruct (decide (f < n0)%nat) as [Hf|Hf];
      [rewrite (proj2 (Nat.ltb_lt f n0)) by done
      |rewrite (proj2 (Nat.ltb_ge f n0)) by lia;
       destruct (vec !! k); simpl;
       by rewrite ?(proj2 (Nat.ltb_ge f n0)) by lia].
    destruct (decide (j < n2)%nat) as [Hj|Hj];
      [rewrite (proj2 (Nat.ltb_lt j n2)) by done
      |rewrite (proj2 (Nat.ltb_ge j n2)) by lia;
       rewrite ?andb_false_r;
       destruct (vec !! k); simpl;
       by rewrite ?(proj2 (Nat.ltb_ge j n2)), ?andb_false_r by lia].
    simpl. rewrite !andb_true_r.
    destruct (vec !! k) as [i|] eqn:Hk; simpl.
    + pose proof (lookup_lt_Some _ _ _ Hk) as Hklt.
      rewrite (proj2 (Nat.ltb_lt k (length vec))) by done.
      rewrite Forall_forall in Hvec.
      assert (i < n1)%nat as Hi
        by (by eapply Hvec, list_elem_of_lookup_2).
      rewrite (proj2 (Nat.ltb_lt i n1)) by done.
      replace ((f * length vec + k) * n2 + j)%nat
        with (f * (length vec * n2) + (k * n2 + j))%nat by lia.
      rewrite (concat_lookup_uniform _ _ _ _ Hunif).
      2:{ assert ((k + 1) * n2 <= length vec * n2)%nat
            by (apply Nat.mul_le_mono_r; lia). lia. }
      rewrite list_lookup_fmap, lookup_seq_lt by done. simpl.
      assert ((f + 1) * (n1 * n2) <= n0 * (n1 * n2))%nat
        by (apply Nat.mul_le_mono_r; lia).
      erewrite gather_lookup;
        [|rewrite entry_length; [done|lia]
         |by apply Forall_forall|done].
      rewrite Hk. simpl. rewrite entry_lookup.
      2:{ assert ((i + 1) * n2 <= n1 * n2)%nat
            by (apply Nat.mul_le_mono_r; lia). lia. }
      f_equal. lia.
    + apply lookup_ge_None in Hk.
      by rewrite (proj2 (Nat.ltb_ge k (length vec))).
Qed.

(** C9. On an array of two or three axes whose landmark axis has length
    [n]: if some recorded source (destination) index is not below [n],
    [source] ([destination]) raises [IndexError] and returns nothing;
    if all of them are below [n], it returns a new well-formed array
    whose landmark axis has one entry per recorded index, whose other
    axes are those of the input, and whose element at every position is
    the input's element at the recorded index. *)
Theorem projection_bounds (self : Intersection.t) a n :
  landmark_axis a = Some n ->
  ((exists i, i ∈ Intersection._src_vec self /\ (n <= i)%nat) ->
     Intersection.source self a = Raise IndexError) /\
  ((exists i, i ∈ Intersection._dest_vec self /\ (n <= i)%nat) ->
     Intersection.destination self a = Raise IndexError) /\
  (wf a -> Forall (fun i => i < n)%nat (Intersection._src_vec self) ->
     exists r, Intersection.source self a = Ok (Some r) /\
       shape r = projected_shape a (length (Intersection._src_vec self))
       /\ wf r /\
       forall pos, at_pos r pos
                   = gathered a (Intersection._src_vec self) pos) /\
  (wf a -> Forall (fun i => i < n)%nat (Intersection._dest_vec self) ->
     exists r, Intersection.destination self a = Ok (Some r) /\
       shape r = projected_shape a (length (Intersection._dest_vec self))
       /\ wf r /\
       forall pos, at_pos r pos
                   = gathered a (Intersection._dest_vec self) pos).
Proof.
  intros Hn. rewrite source_project, destination_project.
  split_and!.
  - intros (i & Hi & Hle). by apply (project_short _ _ n i).
  - intros (i & Hi & Hle). by apply (project_short _ _ n i).
  - intros Hwf Hall. by apply (project_long _ _ n).
  - intros Hwf Hall. by apply (project_long _ _ n).
Qed.

(** C10. On an array whose number of axes is neither 2 nor 3 both
    [source] and [destination] fall through their branches and return
    [None]: no exception, no projection. *)
Theorem projection_other_ndim (self : Intersection.t) a :
  length (shape a) <> 2%nat -> length (shape a) <> 3%nat ->
  Intersection.source self a = Ok None /\
  Intersection.destination self a = Ok None.
Proof.
  intros H2 H3. rewrite source_project, destination_project.
  split; by apply project_other.
Qed.
End ProjectionFacts.

(** The intersection of [["nose"; "x"; "pelvis"]] with
    [["pelvis"; "nose"]] applied to a 2 x 2 array laid out like the
    destination: the source index 2 is out of range, the destination
    indices are not. *)
Lemma projection_bounds_witness :
  let self := {| Intersection._src_vec := [2; 0]%nat;
                 Intersection._dest_vec := [0; 1]%nat;
                 Intersection.landmarks := ["pelvis"; "nose"] |} in
  let a := {| shape := [2; 2]%nat; data := [10; 11; 20; 21]%Z |} in
  Intersection.source self a = Raise IndexError /\
  exists r, Intersection.destination self a = Ok (Some r) /\
            shape r = [2; 2]%nat /\ at_pos r [1; 0]%nat = Some 20%Z.
Proof.
  intros self a.
  destruct (projection_bounds self a 2 eq_refl) as (Hs & _ & _ & Hd).
  split.
  - apply Hs. exists 2%nat. split; [|lia]. simpl. apply list_elem_of_here.
  - destruct Hd as (r & Hr & Hshape & _ & Hat).
    + reflexivity.
    + simpl. repeat constructor.
    + exists r. split; [exact Hr|]. split; [exact Hshape|].
      rewrite Hat. reflexivity.
Defined.

Lemma projection_other_ndim_witness :
  let self := {| Intersection._src_vec := [2; 0]%nat;
                 Intersection._dest_vec := [0; 1]%nat;
                 Intersection.landmarks := ["pelvis"; "nose"] |} in
  let a := {| shape := [4]%nat; data := [10; 11; 20; 21]%Z |} in
  Intersection.source self a = Ok None /\
  Intersection.destination self a = Ok None.
Proof.
  intros self a. apply (projection_other_ndim self a); simpl; lia.
Defined.

(** ** Sequential chains *)

Section ChainFacts.
Import _Skeleton.
Implicit Types landmarks cl : list string.

Lemma idx_present landmarks name :
  name ∈ landmarks ->
  index name landmarks = Ok (idx landmarks name) /\
  landmarks !! idx landmarks name = Some name.
Proof.
  intros Hin. unfold idx.
  destruct (index_present _ _ Hin) as (k & -> & Hk & _). done.
Qed.

Lemma idx_inj landmarks x y :
  x ∈ landmarks -> y ∈ landmarks ->
  idx landmarks x = idx landmarks y -> x = y.
Proof.
  intros [_ Hx]%idx_present [_ Hy]%idx_present Heq.
  rewrite Heq in Hx. congruence.
Qed.

Lemma present_cons_in landmarks x l :
  x ∈ landmarks -> present landmarks (x :: l) = x :: present landmarks l.
Proof. intros H. unfold present. by rewrite filter_cons_True. Qed.

Lemma present_cons_notin landmarks x l :
  x ∉ landmarks -> present landmarks (x :: l) = present landmarks l.
Proof. intros H. unfold present. by rewrite filter_cons_False. Qed.

Lemma present_in landmarks l x :
  x ∈ present landmarks l <-> x ∈ landmarks /\ x ∈ l.
Proof. unfold present. by rewrite list_elem_of_filter. Qed.

Lemma adjacent_cons2 {A} (a b : A) l :
  adjacent (a :: b :: l) = (a, b) :: adjacent (b :: l).
Proof. reflexivity. Qed.

Lemma adjacent_length {A} (l : list A) :
  length (adjacent l) = (length l - 1)%nat.
Proof.
  unfold adjacent. rewrite length_zip_with.
  destruct l as [|a l]; [done|]. cbn [tail length]. lia.
Qed.

(** The first loop stops at the first present name. *)
Lemma seq_first_present landmarks cl :
  match seq_first landmarks cl with
  | None => present landmarks cl = []
  | Some (pt, rest) =>
      pt ∈ landmarks /\
      present landmarks cl = pt :: present landmarks rest
  end.
Proof.
  induction cl as [|x cl IH]; simpl; [done|].
  destruct (py_in x landmarks) eqn:Hx.
  - apply py_in_true in Hx. split; [done|]. by apply present_cons_in.
  - apply py_in_false in Hx. rewrite present_cons_notin by done.
    exact IH.
Qed.

(** The second loop extends the path from [pt] through the present names
    that are left. *)
Lemma seq_next_loop landmarks rest acc pt :
  pt ∈ landmarks ->
  exists last,
    for_each (seq_next landmarks) rest (acc, pt)
    = Ok (acc ++ adjacent (map (idx landmarks)
                               (pt :: present landmarks rest)), last).
Proof.
  revert acc pt. induction rest as [|x rest IH]; intros acc pt Hpt; simpl.
  - exists pt. unfold adjacent. simpl. by rewrite app_nil_r.
  - destruct (py_in x landmarks) eqn:Hx.
    + apply py_in_true in Hx.
      destruct (idx_present _ _ Hpt) as [-> _].
      destruct (idx_present _ _ Hx) as [-> _]. simpl.
      destruct (IH (acc ++ [(idx landmarks pt, idx landmarks x)]) x Hx)
        as (last & ->).
      exists last. rewrite present_cons_in by done. simpl.
      rewrite adjacent_cons2, <- app_assoc. done.
    + apply py_in_false in Hx. simpl.
      rewrite present_cons_notin by done. by apply IH.
Qed.

(** [_connect_sequence] never raises and yields the path through the
    present names. *)
Lemma connect_sequence_path landmarks cl :
  _connect_sequence landmarks cl = Ok (chain_path landmarks cl).
Proof.
  unfold _connect_sequence, chain_path.
  pose proof (seq_first_present landmarks cl) as H.
  destruct (seq_first landmarks cl) as [[pt rest]|].
  - destruct H as [Hpt ->].
    destruct (seq_next_loop landmarks rest [] pt Hpt) as (last & ->).
    done.
  - by rewrite H.
Qed.

Lemma present_remove_name landmarks x cl :
  present (remove_name x landmarks) cl
  = filter (fun name => name <> x) (present landmarks cl).
Proof.
  unfold present, remove_name. rewrite list_filter_filter.
  apply list_filter_iff. intros name.
  rewrite list_elem_of_filter. tauto.
Qed.

(** C6. For every candidate list and every schema, the chain connect
    succeeds before and after a name is removed from the schema; the
    removal does not increase the number of bones; and afterwards the
    bones are still one path: they join each remaining present joint to
    the next remaining present one, the remaining present joints being
    the former ones without the removed name, each at its position in
    the reduced schema. *)
Theorem chain_gap_skipping cl landmarks x :
  exists bones bones',
    _connect_sequence landmarks cl = Ok bones /\
    _connect_sequence (remove_name x landmarks) cl = Ok bones' /\
    (length bones' <= length bones)%nat /\
    present (remove_name x landmarks) cl
      = filter (fun name => name <> x) (present landmarks cl) /\
    bones' = adjacent (map (idx (remove_name x landmarks))
                           (present (remove_name x landmarks) cl)) /\
    length bones'
      = (length (present (remove_name x landmarks) cl) - 1)%nat /\
    Forall (fun name => remove_name x landmarks
                          !! idx (remove_name x landmarks) name
                        = Some name)
           (present (remove_name x landmarks) cl).
Proof.
  set (landmarks' := remove_name x landmarks).
  exists (chain_path landmarks cl), (chain_path landmarks' cl).
  rewrite !connect_sequence_path.
  split; [done|]. split; [done|].
  pose proof (present_remove_name landmarks x cl) as Hp.
  fold landmarks' in Hp.
  split.
  { unfold chain_path. rewrite !adjacent_length, !length_map, Hp.
    pose proof (length_filter (fun name => name <> x)
                  (present landmarks cl)). lia. }
  split; [exact Hp|]. split; [done|].
  split; [unfold chain_path; by rewrite adjacent_length, length_map|].
  apply Forall_forall. intros name [Hin _]%present_in.
  by apply idx_present.
Qed.
End ChainFacts.

(** ** The bone structure *)

(** Inversion of a successful [bind]. *)
Ltac bind_inv H :=
  match type of H with
  | bind ?m _ = Ok _ =>
      let E := fresh "E" in
      destruct m eqn:E; simpl in H; [|discriminate H]
  end.

Section BoneFacts.
Import _Skeleton.
Implicit Types landmarks : list string.

Lemma connect_sequence_symmetrically_path landmarks cl :
  _connect_sequence_symmetrically landmarks cl
  = Ok (chain_path landmarks (with_side "left " cl)
        ++ chain_path landmarks (with_side "right " cl)).
Proof.
  unfold _connect_sequence_symmetrically, _sides. simpl.
  by rewrite !connect_sequence_path.
Qed.

Lemma both_in_true landmarks p :
  both_in landmarks p = true <-> p.1 ∈ landmarks /\ p.2 ∈ landmarks.
Proof.
  unfold both_in. by rewrite andb_true_iff, !py_in_true.
Qed.

Lemma connect_tree_loop landmarks d acc :
  for_each (fun connections '(src, dest) =>
              if py_in src landmarks && py_in dest landmarks then
                a <~ index src landmarks ;;
                b <~ index dest landmarks ;;
                Ok (connections ++ [(a, b)])
              else Ok connections) d acc
  = Ok (acc ++ tree_edges landmarks d).
Proof.
  revert acc. induction d as [|[src dest] d IH]; intros acc; simpl.
  - unfold tree_edges. by rewrite app_nil_r.
  - unfold tree_edges. rewrite filter_cons.
    destruct (py_in src landmarks && py_in dest landmarks) eqn:Hb.
    + rewrite decide_True by done.
      apply (both_in_true landmarks (src, dest)) in Hb as [Hs Hd].
      simpl in Hs, Hd.
      destruct (idx_present _ _ Hs) as [-> _].
      destruct (idx_present _ _ Hd) as [-> _]. simpl.
      rewrite IH, <- app_assoc. done.
    + rewrite decide_False by (unfold both_in; simpl; congruence).
      simpl. apply IH.
Qed.

Lemma connect_tree_edges landmarks d :
  _connect_tree landmarks d = Ok (tree_edges landmarks d).
Proof. unfold _connect_tree. by rewrite connect_tree_loop. Qed.

Lemma connect_tree_symmetrically_ok landmarks d :
  exists bones, _connect_tree_symmetrically landmarks d = Ok bones.
Proof.
  unfold _connect_tree_symmetrically, _sides. simpl.
  rewrite !connect_tree_edges. simpl. eauto.
Qed.

Lemma find_app {A} (f : A -> bool) l1 l2 :
  find f (l1 ++ l2)
  = match find f l1 with Some x => Some x | None => find f l2 end.
Proof.
  induction l1 as [|x l1 IH]; simpl; [done|]. by destruct (f x).
Qed.

Lemma head_inner_find landmarks head_pt spine_pts :
  find (both_in landmarks) (map (fun s => (head_pt, s)) spine_pts)
  = (fun s => (head_pt, s)) <$> head_inner landmarks head_pt spine_pts.
Proof.
  induction spine_pts as [|s ss IH]; simpl; [done|].
  unfold both_in at 1. simpl.
  by destruct (py_in head_pt landmarks && py_in s landmarks).
Qed.

Lemma head_inner_Some landmarks head_pt spine_pts s :
  head_inner landmarks head_pt spine_pts = Some s ->
  head_pt ∈ landmarks /\ s ∈ landmarks.
Proof.
  induction spine_pts as [|s' ss IH]; simpl; [done|].
  destruct (py_in head_pt landmarks && py_in s' landmarks) eqn:Hb;
    [|exact IH].
  intros [= <-]. by apply (both_in_true landmarks (head_pt, s')) in Hb.
Qed.

(** The head link connects the first pair, in loop order, found whole in
    the schema, and nothing else. *)
Lemma head_link_first landmarks head_pts :
  match find (both_in landmarks)
             (flat_map (fun h => map (fun s => (h, s)) spine) head_pts)
  with
  | Some (head_pt, top_spine) =>
      head_pt ∈ landmarks /\ top_spine ∈ landmarks /\
      head_link landmarks head_pts
      = Ok [(idx landmarks head_pt, idx landmarks top_spine)]
  | None => head_link landmarks head_pts = Ok []
  end.
Proof.
  induction head_pts as [|h hs IH]; [done|].
  cbn [flat_map head_link].
  rewrite find_app, head_inner_find.
  destruct (head_inner landmarks h spine) as [s|] eqn:Hin; simpl.
  - destruct (head_inner_Some _ _ _ _ Hin) as [Hh Hs].
    split; [done|]. split; [done|].
    destruct (idx_present _ _ Hh) as [-> _].
    destruct (idx_present _ _ Hs) as [-> _]. done.
  - exact IH.
Qed.

Lemma head_link_ok landmarks :
  exists link, head_link landmarks (reverse head) = Ok link.
Proof.
  pose proof (head_link_first landmarks (reverse head)) as H.
  destruct (find _ _) as [[h s]|]; [destruct H as (_ & _ & H)|]; eauto.
Qed.

(** What a successful [_compute_bones] has stored. *)
Lemma compute_bones_inv landmarks bones :
  _compute_bones landmarks = Ok bones ->
  exists shoulders hips link face_bones hand_bones foot_bones,
    shoulder_pass landmarks ["clavicle"; "shoulder"] = Ok shoulders /\
    _limb2spine landmarks "hip" ["pelvis"] spine_from_hips = Ok hips /\
    head_link landmarks (reverse head) = Ok link /\
    _connect_tree_symmetrically landmarks face = Ok face_bones /\
    _connect_tree_symmetrically landmarks hand = Ok hand_bones /\
    _connect_tree_symmetrically landmarks foot = Ok foot_bones /\
    bones MAIN
      = (chain_path landmarks (with_side "left " arm)
         ++ chain_path landmarks (with_side "right " arm))
        ++ shoulders
        ++ (chain_path landmarks (with_side "left " leg)
            ++ chain_path landmarks (with_side "right " leg))
        ++ hips ++ chain_path landmarks spine /\
    bones HEAD = chain_path landmarks head ++ link /\
    bones FACE = face_bones /\ bones HANDS = hand_bones /\
    bones FEET = foot_bones /\ bones FULL = [] /\
    bones OBJECTS = chain_path landmarks objects.
Proof.
  unfold _compute_bones. intros H.
  rewrite !connect_sequence_symmetrically_path,
    !connect_sequence_path in H.
  simpl in H. do 6 bind_inv H.
  injection H as <-.
  eexists _, _, _, _, _, _. split_and!; try done.
  unfold set_sec. simpl. by rewrite <- !app_assoc.
Qed.

(** Conversely the shoulder pass and the hip pass are all that can make
    [_compute_bones] raise. *)
Lemma compute_bones_ok landmarks shoulders hips :
  shoulder_pass landmarks ["clavicle"; "shoulder"] = Ok shoulders ->
  _limb2spine landmarks "hip" ["pelvis"] spine_from_hips = Ok hips ->
  exists bones, _compute_bones landmarks = Ok bones.
Proof.
  intros Hs Hh. unfold _compute_bones.
  rewrite !connect_sequence_symmetrically_path,
    !connect_sequence_path, Hs, Hh.
  destruct (head_link_ok landmarks) as (link & ->).
  destruct (connect_tree_symmetrically_ok landmarks face) as (? & ->).
  destruct (connect_tree_symmetrically_ok landmarks hand) as (? & ->).
  destruct (connect_tree_symmetrically_ok landmarks foot) as (? & ->).
  cbn [bind]. eauto.
Qed.

Lemma first_in_Some landmarks candidates x :
  first_in landmarks candidates = Some x -> x ∈ landmarks.
Proof.
  induction candidates as [|c cs IH]; simpl; [done|].
  destruct (py_in c landmarks) eqn:Hc; [|exact IH].
  intros [= <-]. by apply py_in_true.
Qed.

(** [_limb2spine] raises exactly when a name it looks up without a
    guard is missing: one of the two limb ends, or, on the shoulder
    pass without any spine anchor, one of the hips. *)
Lemma limb2spine_result landmarks limb_end spine_attachment spine_list :
  let needs_hips :=
    first_in landmarks spine_attachment = None /\
    first_in landmarks spine_list = None /\ limb_end <> "hip" in
  if decide (("left " +:+ limb_end) ∈ landmarks /\
             ("right " +:+ limb_end) ∈ landmarks /\
             (needs_hips ->
              "left hip" ∈ landmarks /\ "right hip" ∈ landmarks))
  then exists bones,
         _limb2spine landmarks limb_end spine_attachment spine_list
         = Ok bones
  else _limb2spine landmarks limb_end spine_attachment spine_list
       = Raise ValueError.
Proof.
  intros needs_hips. unfold _limb2spine.
  destruct (decide (("left " +:+ limb_end) ∈ landmarks)) as [Hl|Hl].
  2:{ rewrite decide_False by tauto. by rewrite index_absent. }
  destruct (idx_present _ _ Hl) as [-> _]. cbn [bind].
  destruct (decide (("right " +:+ limb_end) ∈ landmarks)) as [Hr|Hr].
  2:{ rewrite decide_False by tauto. by rewrite index_absent. }
  destruct (idx_present _ _ Hr) as [-> _]. cbn [bind].
  subst needs_hips.
  destruct (first_in landmarks spine_attachment) as [a|] eqn:Ha.
  { rewrite decide_True by (split_and!; [done..|intros [? _]; done]).
    apply first_in_Some in Ha.
    destruct (idx_present _ _ Ha) as [-> _]. simpl. eauto. }
  destruct (first_in landmarks spine_list) as [s|] eqn:Hs.
  { rewrite decide_True
      by (split_and!; [done..|intros (_ & ? & _); done]).
    apply first_in_Some in Hs.
    destruct (idx_present _ _ Hs) as [-> _]. simpl. eauto. }
  destruct (decide (limb_end <> "hip")) as [Hne|Heq].
  2:{ rewrite decide_True by (split_and!; [done..|tauto]). eauto. }
  simpl.
  change ("left " +:+ "hip") with "left hip".
  change ("right " +:+ "hip") with "right hip".
  destruct (decide ("left hip" ∈ landmarks)) as [Hlh|Hlh].
  2:{ rewrite decide_False by tauto. by rewrite index_absent. }
  destruct (idx_present _ _ Hlh) as [-> _]. cbn [bind].
  destruct (decide ("right hip" ∈ landmarks)) as [Hrh|Hrh].
  2:{ rewrite decide_False by tauto. by rewrite index_absent. }
  destruct (idx_present _ _ Hrh) as [-> _]. cbn [bind].
  rewrite decide_True by tauto. eauto.
Qed.

(** The schemas on which the constructor's bone pass goes through: both
    hips are there, and the shoulder joint that passes the left-side
    guard has its right-side counterpart. *)
Lemma compute_bones_result landmarks :
  if decide ("left hip" ∈ landmarks /\ "right hip" ∈ landmarks /\
             ("left clavicle" ∈ landmarks ->
              "right clavicle" ∈ landmarks) /\
             ("left clavicle" ∉ landmarks ->
              "left shoulder" ∈ landmarks ->
              "right shoulder" ∈ landmarks))
  then exists bones, _compute_bones landmarks = Ok bones
  else _compute_bones landmarks = Raise ValueError.
Proof.
  pose proof (limb2spine_result landmarks "hip" ["pelvis"]
                spine_from_hips) as Hhip.
  pose proof (limb2spine_result landmarks "clavicle"
                ["shoulder centre"; "neck"] spine_from_shoulders) as Hc.
  pose proof (limb2spine_result landmarks "shoulder"
                ["shoulder centre"; "neck"] spine_from_shoulders) as Hs.
  cbn zeta in Hhip, Hc, Hs.
  change ("left " +:+ "hip") with "left hip" in *.
  change ("right " +:+ "hip") with "right hip" in *.
  change ("left " +:+ "clavicle") with "left clavicle" in *.
  change ("right " +:+ "clavicle") with "right clavicle" in *.
  change ("left " +:+ "shoulder") with "left shoulder" in *.
  change ("right " +:+ "shoulder") with "right shoulder" in *.
  assert (forall r : result (list bone),
            (exists b, r = Ok b) \/ r = Raise ValueError ->
            _limb2spine landmarks "hip" ["pelvis"] spine_from_hips
              = Raise ValueError ->
            shoulder_pass landmarks ["clavicle"; "shoulder"] = r ->
            _compute_bones landmarks = Raise ValueError) as Hraise.
  { intros r Hr Hh Hsp. unfold _compute_bones.
    rewrite !connect_sequence_symmetrically_path. cbn [bind].
    rewrite Hsp. destruct Hr as [[b ->]| ->]; [|done].
    cbn [bind]. by rewrite Hh. }
  assert (shoulder_pass landmarks ["clavicle"; "shoulder"]
          = if py_in "left clavicle" landmarks
            then _limb2spine landmarks "clavicle"
                   ["shoulder centre"; "neck"] spine_from_shoulders
            else if py_in "left shoulder" landmarks
            then _limb2spine landmarks "shoulder"
                   ["shoulder centre"; "neck"] spine_from_shoulders
            else Ok []) as Hsp by reflexivity.
  destruct (py_in "left clavicle" landmarks) eqn:Hlc;
    [apply py_in_true in Hlc|apply py_in_false in Hlc];
    [|destruct (py_in "left shoulder" landmarks) eqn:Hls;
      [apply py_in_true in Hls|apply py_in_false in Hls]];
    repeat case_decide;
    repeat match goal with
      | H : exists _, _ |- _ => destruct H as [? H]
      end;
    try (exfalso; tauto);
    try (eapply compute_bones_ok;
         [rewrite Hsp; first [eassumption|reflexivity]|eassumption]);
    try (unfold _compute_bones;
         rewrite !connect_sequence_symmetrically_path; cbn [bind];
         rewrite Hsp; match goal with
                      | H : _limb2spine _ _ _ _ = Raise _ |- _ =>
                          by rewrite H
                      end);
    try (eapply Hraise; [|eassumption|exact Hsp]; eauto).
Qed.
End BoneFacts.

(** ** The colour scheme *)

Section ColourFacts.
Import _Skeleton.
Implicit Types (landmarks : list string) (colours : colours_t).

Lemma apply_writes_app landmarks ws1 ws2 colours :
  apply_writes landmarks (ws1 ++ ws2) colours
  = apply_writes landmarks ws2 (apply_writes landmarks ws1 colours).
Proof. unfold apply_writes. by rewrite foldl_app. Qed.

Lemma apply_writes_cons landmarks (w : write) ws colours :
  apply_writes landmarks (w :: ws) colours
  = apply_writes landmarks ws
      (set_colour colours w.1.1 (idx landmarks w.1.2) w.2).
Proof. reflexivity. Qed.

Lemma colour_flat_writes landmarks sec side c joints colours :
  colour_flat landmarks sec side c joints colours
  = Ok (apply_writes landmarks
          (map (fun name => (sec, name, c))
               (present landmarks (with_side side joints)))
          colours).
Proof.
  unfold colour_flat. revert colours.
  induction joints as [|j joints IH]; intros colours; [done|].
  cbn [with_side map for_each].
  destruct (py_in (side +:+ j) landmarks) eqn:Hj.
  - apply py_in_true in Hj. destruct (idx_present _ _ Hj) as [-> _].
    cbn [bind]. rewrite present_cons_in by done.
    rewrite IH. done.
  - apply py_in_false in Hj. cbn [bind].
    rewrite present_cons_notin by done. apply IH.
Qed.

Lemma collect_loop landmarks side joints acc :
  for_each (fun part_joints joint =>
              if py_in (side +:+ joint) landmarks then
                k <~ index (side +:+ joint) landmarks ;;
                Ok (part_joints ++ [k])
              else Ok part_joints) joints acc
  = Ok (acc ++ map (idx landmarks)
                   (present landmarks (with_side side joints))).
Proof.
  revert acc. induction joints as [|j joints IH]; intros acc.
  - simpl. by rewrite app_nil_r.
  - cbn [with_side map for_each].
    destruct (py_in (side +:+ j) landmarks) eqn:Hj.
    + apply py_in_true in Hj. destruct (idx_present _ _ Hj) as [-> _].
      cbn [bind]. rewrite present_cons_in by done.
      rewrite IH. cbn [map]. by rewrite <- app_assoc.
    + apply py_in_false in Hj. cbn [bind].
      rewrite present_cons_notin by done. apply IH.
Qed.

Lemma collect_part_joints_present landmarks side joints :
  collect_part_joints landmarks side joints
  = Ok (map (idx landmarks) (present landmarks (with_side side joints))).
Proof. unfold collect_part_joints. by rewrite collect_loop. Qed.

Lemma gradient_defined_at start end_ m i n :
  gradient_defined start end_ m = true ->
  (i < n)%nat -> (n <= m)%nat ->
  gradient_at start end_ i n = Ok (grad_colour start end_ i n).
Proof.
  unfold gradient_defined. intros Hdef Hi Hn.
  rewrite forallb_forall in Hdef.
  specialize (Hdef n). rewrite forallb_forall in Hdef.
  specialize (Hdef ltac:(apply in_seq; lia) i ltac:(apply in_seq; lia)).
  unfold grad_colour. by destruct (gradient_at start end_ i n).
Qed.

(** The colouring loop of a gradient, from position [k] on. *)
Lemma gradient_loop landmarks sec start end_ m n names k colours :
  gradient_defined start end_ m = true ->
  (k + length names <= n)%nat -> (n <= m)%nat ->
  for_each (fun colours '(i, joint) =>
              t <~ gradient_t i n ;;
              c <~ gradient_colour start end_ t ;;
              Ok (set_colour colours sec joint c))
           (zip (seq k (length names)) (map (idx landmarks) names))
           colours
  = Ok (apply_writes landmarks
          (imap (fun i name =>
                   (sec, name, grad_colour start end_ (k + i) n))
                names)
          colours).
Proof.
  intros Hdef. revert k colours.
  induction names as [|name names IH]; intros k colours Hk Hn; [done|].
  cbn [length seq map zip zip_with for_each imap] in *.
  pose proof (gradient_defined_at start end_ m k n Hdef
                ltac:(lia) Hn) as Hat.
  unfold gradient_at in Hat.
  destruct (gradient_t k n) as [t|]; [|done]. cbn [bind] in *.
  rewrite Hat. cbn [bind].
  rewrite IH by (done || simpl in *; lia).
  rewrite apply_writes_cons. cbn [fst snd].
  rewrite Nat.add_0_r. f_equal. f_equal.
  apply imap_ext. intros i x _. simpl. do 2 f_equal. lia.
Qed.

Lemma colour_gradient_writes landmarks sec side start end_ joints
    colours :
  gradient_defined start end_ (length joints) = true ->
  colour_gradient landmarks sec side start end_ joints colours
  = Ok (apply_writes landmarks
          (part_writes landmarks sec (Gradient start end_)
                       (with_side side joints))
          colours).
Proof.
  intros Hdef. unfold colour_gradient, part_writes.
  rewrite collect_part_joints_present. cbn [bind].
  set (ps := present landmarks (with_side side joints)).
  rewrite length_map. unfold enumerate. rewrite length_map.
  destruct (0 <? length ps)%nat eqn:Hlen.
  - rewrite (gradient_loop _ _ _ _ (length joints)); [done..| |].
    + simpl. lia.
    + subst ps. unfold present, with_side.
      etrans; [apply length_filter|]. by rewrite length_map.
  - apply Nat.ltb_ge in Hlen.
    destruct ps; [done|simpl in Hlen; lia].
Qed.

Lemma colour_side_writes landmarks sec body_part joints colours side :
  side_ok body_part joints side = true ->
  colour_side landmarks sec body_part joints colours side
  = Ok (apply_writes landmarks
          (side_writes landmarks sec body_part joints side) colours).
Proof.
  unfold side_ok, colour_side, side_writes, side_names.
  destruct (dict_get _part_colours (side +:+ body_part))
    as [[c|start end_]|]; [| |done]; intros Hok; cbn [bind].
  - destruct joints as [l|d]; [done|]. cbn [keys bind iter_joints].
    by rewrite colour_flat_writes.
  - by apply colour_gradient_writes.
Qed.

Lemma colour_sides_writes landmarks sec body_part joints sides colours :
  forallb (side_ok body_part joints) sides = true ->
  for_each (fun colours side =>
              sec' <~ read_local (Some sec) ;;
              colour_side landmarks sec' body_part joints colours side)
           sides colours
  = Ok (apply_writes landmarks
          (flat_map (side_writes landmarks sec body_part joints) sides)
          colours).
Proof.
  revert colours. induction sides as [|side sides IH]; intros colours;
    [done|].
  cbn [forallb flat_map for_each read_local bind].
  intros [Hside Hsides]%andb_true_iff.
  rewrite colour_side_writes by done. cbn [bind].
  rewrite IH by done. by rewrite apply_writes_app.
Qed.

Lemma section_of_fixed body_part sec skeleton_sec :
  section_of body_part None = Some sec ->
  section_of body_part skeleton_sec = Some sec.
Proof.
  unfold section_of.
  repeat match goal with
         | |- context [if ?b then _ else _] => destruct b; [done|]
         end.
  done.
Qed.

Lemma colour_part_writes landmarks colours skeleton_sec item :
  item_ok item = true ->
  exists skeleton_sec',
    colour_part landmarks (colours, skeleton_sec) item
    = Ok (apply_writes landmarks (item_writes landmarks item) colours,
          skeleton_sec').
Proof.
  destruct item as [body_part joints].
  unfold item_ok, colour_part, item_writes. cbn [fst snd].
  destruct (section_of body_part None) as [sec|] eqn:Hsec; [|done].
  intros Hok. rewrite (section_of_fixed _ _ skeleton_sec Hsec).
  fold (sides_of body_part).
  rewrite colour_sides_writes by done. cbn [bind]. eauto.
Qed.

Lemma colour_parts_writes landmarks parts colours skeleton_sec :
  forallb item_ok parts = true ->
  exists skeleton_sec',
    for_each (colour_part landmarks) parts (colours, skeleton_sec)
    = Ok (apply_writes landmarks
            (flat_map (item_writes landmarks) parts) colours,
          skeleton_sec').
Proof.
  revert colours skeleton_sec.
  induction parts as [|item parts IH]; intros colours skeleton_sec.
  - intros _. by exists skeleton_sec.
  - cbn [forallb flat_map for_each].
    intros [Hitem Hparts]%andb_true_iff.
    destruct (colour_part_writes landmarks colours skeleton_sec item
                Hitem) as (sk' & ->). cbn [bind].
    destruct (IH (apply_writes landmarks (item_writes landmarks item)
                    colours) sk' Hparts) as (sk'' & ->).
    exists sk''. by rewrite apply_writes_app.
Qed.

Lemma body_parts_ok : forallb item_ok _body_parts = true.
Proof. vm_compute. reflexivity. Qed.

(** [_compute_colours] never raises; it performs the writes of
    [all_writes] on empty dictionaries. *)
Lemma compute_colours_writes landmarks :
  _compute_colours landmarks
  = Ok (apply_writes landmarks (all_writes landmarks) (fun _ => ∅)).
Proof.
  unfold _compute_colours.
  destruct (colour_parts_writes landmarks _body_parts (fun _ => ∅) None
              body_parts_ok) as (sk & ->).
  done.
Qed.

(** *** The names written *)

Lemma part_writes_names landmarks sec pc names :
  map (fun w : write => w.1.2) (part_writes landmarks sec pc names)
  = present landmarks names.
Proof.
  unfold part_writes. destruct pc as [c|start end_].
  - rewrite map_map. simpl. apply map_id.
  - apply list_eq. intros i.
    rewrite list_lookup_fmap, list_lookup_imap.
    by destruct (present landmarks names !! i).
Qed.

Lemma names_flat_map {X} (f : X -> list write) (g : X -> list string)
    landmarks (xs : list X) :
  Forall (fun x => map (fun w : write => w.1.2) (f x)
                   = present landmarks (g x)) xs ->
  map (fun w : write => w.1.2) (flat_map f xs)
  = present landmarks (flat_map g xs).
Proof.
  induction 1 as [|x xs Hx Hxs IH]; [done|].
  cbn [flat_map]. unfold present in *.
  by rewrite map_app, filter_app, Hx, IH.
Qed.

Lemma side_writes_names landmarks sec body_part joints side :
  side_ok body_part joints side = true ->
  map (fun w : write => w.1.2)
      (side_writes landmarks sec body_part joints side)
  = present landmarks (side_names joints side).
Proof.
  unfold side_ok, side_writes.
  destruct (dict_get _part_colours (side +:+ body_part)); [|done].
  intros _. apply part_writes_names.
Qed.

Lemma item_writes_names landmarks item :
  item_ok item = true ->
  map (fun w : write => w.1.2) (item_writes landmarks item)
  = present landmarks (flat_map (side_names item.2) (sides_of item.1)).
Proof.
  unfold item_ok, item_writes.
  destruct (section_of item.1 None) as [sec|]; [|done].
  intros Hok. apply names_flat_map.
  apply Forall_forall. intros side Hside.
  apply side_writes_names.
  rewrite forallb_forall in Hok. by apply Hok, list_elem_of_In.
Qed.

Lemma all_writes_names landmarks :
  map (fun w : write => w.1.2) (all_writes landmarks)
  = present landmarks coloured_names.
Proof.
  unfold all_writes, coloured_names. apply names_flat_map.
  apply Forall_forall. intros item Hitem.
  apply item_writes_names.
  pose proof body_parts_ok as Hok. rewrite forallb_forall in Hok.
  by apply Hok, list_elem_of_In.
Qed.

Lemma coloured_names_NoDup : NoDup coloured_names.
Proof. compute_done. Qed.

Lemma all_writes_NoDup landmarks :
  NoDup (map (fun w : write => w.1.2) (all_writes landmarks)).
Proof.
  rewrite all_writes_names. apply NoDup_filter, coloured_names_NoDup.
Qed.

Lemma all_writes_present landmarks (w : write) :
  w ∈ all_writes landmarks -> w.1.2 ∈ landmarks.
Proof.
  intros Hw.
  apply (list_elem_of_fmap_2 (fun w : write => w.1.2)) in Hw.
  change (w.1.2 ∈ map (fun w : write => w.1.2) (all_writes landmarks))
    in Hw.
  rewrite all_writes_names in Hw. by apply present_in in Hw as [? _].
Qed.

(** *** Reading the dictionaries back *)

Lemma set_colour_lookup colours sec k c sec' k' :
  set_colour colours sec k c sec' !! k'
  = if decide (sec' = sec /\ k' = k) then Some c
    else colours sec' !! k'.
Proof.
  unfold set_colour, set_sec.
  destruct (decide (sec' = sec)) as [->|Hsec].
  - destruct (decide (k' = k)) as [->|Hk].
    + rewrite decide_True by done. by rewrite lookup_insert_eq.
    + rewrite decide_False by tauto. by rewrite lookup_insert_ne.
  - by rewrite decide_False by tauto.
Qed.

Lemma apply_writes_snoc landmarks ws (w : write) colours :
  apply_writes landmarks (ws ++ [w]) colours
  = set_colour (apply_writes landmarks ws colours) w.1.1
               (idx landmarks w.1.2) w.2.
Proof. by rewrite apply_writes_app. Qed.

(** Every entry comes from a write. *)
Lemma apply_writes_source landmarks ws colours sec k c :
  apply_writes landmarks ws colours sec !! k = Some c ->
  colours sec !! k = Some c \/
  exists w : write, w ∈ ws /\ w.1.1 = sec /\
                    idx landmarks w.1.2 = k /\ w.2 = c.
Proof.
  induction ws as [|w ws IH] using rev_ind; [by left|].
  rewrite apply_writes_snoc, set_colour_lookup.
  destruct (decide _) as [[-> ->]|_].
  - intros [= <-]. right. exists w. rewrite elem_of_app.
    split_and!; try done. right. apply list_elem_of_here.
  - intros [?|(w' & Hw' & ?)]%IH; [by left|right].
    exists w'. rewrite elem_of_app. tauto.
Qed.

(** A write of a present name is not overwritten when every name is
    written once. *)
Lemma apply_writes_target landmarks ws colours (w : write) :
  NoDup (map (fun w : write => w.1.2) ws) ->
  (forall w' : write, w' ∈ ws -> w'.1.2 ∈ landmarks) ->
  w ∈ ws ->
  apply_writes landmarks ws colours w.1.1 !! idx landmarks w.1.2
  = Some w.2.
Proof.
  induction ws as [|w' ws IH] using rev_ind; intros Hnd Hin Hw.
  - by apply elem_of_nil in Hw.
  - rewrite apply_writes_snoc, set_colour_lookup.
    rewrite map_app in Hnd. apply NoDup_app in Hnd as (Hnd & Hsep & _).
    apply elem_of_app in Hw as [Hw|Hw%list_elem_of_singleton].
    + destruct (decide _) as [[_ Hidx]|_].
      * exfalso. apply (Hsep w.1.2).
        -- by apply (list_elem_of_fmap_2 (fun w : write => w.1.2)).
        -- apply idx_inj in Hidx; [|apply Hin; rewrite elem_of_app..].
           ++ rewrite Hidx. apply list_elem_of_here.
           ++ by left.
           ++ right. apply list_elem_of_here.
      * apply IH; [done| |done].
        intros w'' Hw''. apply Hin. rewrite elem_of_app. by left.
    + subst w'. by rewrite decide_True by done.
Qed.

Lemma NoDup_fmap_eq {X Y} (f : X -> Y) (l : list X) x y :
  NoDup (map f l) -> x ∈ l -> y ∈ l -> f x = f y -> x = y.
Proof.
  induction l as [|z l IH]; simpl; intros Hnd Hx Hy Hf.
  - by apply elem_of_nil in Hx.
  - apply NoDup_cons in Hnd as [Hz Hnd].
    apply elem_of_cons in Hx as [->|Hx];
      apply elem_of_cons in Hy as [->|Hy]; try done.
    + exfalso. apply Hz. rewrite Hf.
      by apply (list_elem_of_fmap_2 f).
    + exfalso. apply Hz. rewrite <- Hf.
      by apply (list_elem_of_fmap_2 f).
    + by apply IH.
Qed.

(** Two sections never hold the same landmark index. *)
Lemma compute_colours_disjoint landmarks colours s1 s2 :
  _compute_colours landmarks = Ok colours -> s1 <> s2 ->
  dom (colours s1) ## dom (colours s2).
Proof.
  rewrite compute_colours_writes. intros [= <-] Hne.
  apply elem_of_disjoint. intros k [c1 H1]%elem_of_dom [c2 H2]%elem_of_dom.
  apply apply_writes_source in H1 as [H1|(w1 & Hw1 & Hs1 & Hk1 & _)];
    [by rewrite lookup_empty in H1|].
  apply apply_writes_source in H2 as [H2|(w2 & Hw2 & Hs2 & Hk2 & _)];
    [by rewrite lookup_empty in H2|].
  apply Hne. rewrite <- Hs1, <- Hs2. f_equal. f_equal.
  apply (NoDup_fmap_eq (fun w : write => w.1.2) (all_writes landmarks));
    [apply all_writes_NoDup|done..|].
  apply (idx_inj landmarks); [by apply all_writes_present..|].
  by rewrite Hk1, Hk2.
Qed.

Lemma part_writes_sec landmarks sec pc names (w : write) :
  w ∈ part_writes landmarks sec pc names -> w.1.1 = sec.
Proof.
  unfold part_writes. destruct pc as [c|start end_].
  - intros (name & -> & _)%list_elem_of_fmap. done.
  - intros (i & Hi)%list_elem_of_lookup_1.
    rewrite list_lookup_imap in Hi.
    destruct (present landmarks names !! i); [|done].
    by injection Hi as <-.
Qed.

Lemma section_of_not_FULL body_part :
  section_of body_part None <> Some FULL.
Proof.
  unfold section_of.
  repeat match goal with
         | |- context [if ?b then _ else _] => destruct b; [done|]
         end.
  done.
Qed.

Lemma all_writes_sec landmarks (w : write) :
  w ∈ all_writes landmarks -> w.1.1 <> FULL.
Proof.
  unfold all_writes.
  intros (item & _ & Hw)%list_elem_of_In%in_flat_map.
  unfold item_writes in Hw.
  pose proof (section_of_not_FULL item.1) as Hsec.
  destruct (section_of item.1 None) as [sec|]; [|done].
  apply in_flat_map in Hw as (side & _ & Hw%list_elem_of_In).
  unfold side_writes in Hw.
  destruct (dict_get _part_colours (side +:+ item.1));
    [|by apply elem_of_nil in Hw].
  apply part_writes_sec in Hw. congruence.
Qed.

Lemma compute_colours_FULL landmarks colours :
  _compute_colours landmarks = Ok colours -> colours FULL = ∅.
Proof.
  rewrite compute_colours_writes. intros [= <-].
  apply map_eq. intros k. rewrite lookup_empty.
  destruct (apply_writes _ _ _ FULL !! k) as [c|] eqn:Hk; [|done].
  apply apply_writes_source in Hk as [Hk|(w & Hw & Hsec & _)];
    [by rewrite lookup_empty in Hk|].
  by apply all_writes_sec in Hw.
Qed.

(** *** [get_colour_dict] *)

Lemma colour_dict_snoc members sec self mask :
  get_colour_dict_over (members ++ [sec]) self mask
  = if enabled mask sec
    then _colours self sec ∪ get_colour_dict_over members self mask
    else get_colour_dict_over members self mask.
Proof. unfold get_colour_dict_over. by rewrite foldl_app. Qed.

Lemma colour_dict_source members self mask k c :
  get_colour_dict_over members self mask !! k = Some c ->
  exists sec, sec ∈ members /\ enabled mask sec = true /\
              _colours self sec !! k = Some c.
Proof.
  induction members as [|sec members IH] using rev_ind.
  - unfold get_colour_dict_over. simpl. by rewrite lookup_empty.
  - rewrite colour_dict_snoc.
    destruct (enabled mask sec) eqn:Hen.
    + rewrite lookup_union_Some_raw.
      intros [Hk|[_ (sec' & ? & ? & ?)%IH]].
      * exists sec. rewrite elem_of_app, list_elem_of_singleton. auto.
      * exists sec'. rewrite elem_of_app. auto.
    + intros (sec' & ? & ? & ?)%IH. exists sec'.
      rewrite elem_of_app. auto.
Qed.

Lemma colour_dict_target members self mask sec k c :
  (forall s1 s2, s1 <> s2 ->
                 dom (_colours self s1) ## dom (_colours self s2)) ->
  sec ∈ members -> enabled mask sec = true ->
  _colours self sec !! k = Some c ->
  get_colour_dict_over members self mask !! k = Some c.
Proof.
  intros Hdisj Hsec Hen Hk.
  induction members as [|sec' members IH] using rev_ind.
  - by apply elem_of_nil in Hsec.
  - rewrite colour_dict_snoc.
    destruct (decide (sec' = sec)) as [->|Hne].
    + rewrite Hen. by apply lookup_union_Some_l.
    + apply elem_of_app in Hsec as [Hsec|Hsec%list_elem_of_singleton];
        [|done].
      destruct (enabled mask sec'); [|by apply IH].
      rewrite lookup_union_r; [by apply IH|].
      apply not_elem_of_dom. intros Hk'.
      apply (proj1 (elem_of_disjoint _ _) (Hdisj sec' sec Hne) k Hk').
      by apply elem_of_dom.
Qed.

(** Skipping [FULL] in the iteration changes nothing. *)
Lemma get_colour_dict_canonical self mask :
  _colours self FULL = ∅ ->
  get_colour_dict_over Sections_canonical self mask
  = get_colour_dict self mask.
Proof.
  intros HFULL.
  unfold get_colour_dict, get_colour_dict_over, Sections_members,
    Sections_canonical.
  cbn [foldl]. rewrite HFULL.
  destruct (enabled mask FULL); [|done].
  by rewrite (left_id_L ∅ (∪)).
Qed.

(** *** The colours along a chain *)

Lemma dict_get_elem {V} (d : list (string * V)) key v :
  dict_get d key = Ok v -> (key, v) ∈ d.
Proof.
  induction d as [|[k v'] d IH]; simpl; [done|].
  destruct (decide (k = key)) as [->|_].
  - intros [= ->]. apply list_elem_of_here.
  - intros H. apply list_elem_of_further. by apply IH.
Qed.

Lemma chain_colours landmarks side body_part joints start end_ sec i name :
  dict_get _body_parts body_part = Ok (Chain joints) ->
  side ∈ sides_of body_part ->
  section_of body_part None = Some sec ->
  dict_get _part_colours (side +:+ body_part)
  = Ok (Gradient start end_) ->
  present landmarks (with_side side joints) !! i = Some name ->
  let n := length (present landmarks (with_side side joints)) in
  gradient_at start end_ i n = Ok (grad_colour start end_ i n) /\
  apply_writes landmarks (all_writes landmarks) (fun _ => ∅) sec
    !! idx landmarks name
  = Some (grad_colour start end_ i n).
Proof.
  intros Hbp%dict_get_elem Hside Hsec Hpc Hi n.
  pose proof body_parts_ok as Hok. rewrite forallb_forall in Hok.
  specialize (Hok _ (proj1 (list_elem_of_In _ _) Hbp)).
  unfold item_ok in Hok. cbn [fst snd] in Hok. rewrite Hsec in Hok.
  rewrite forallb_forall in Hok.
  specialize (Hok _ (proj1 (list_elem_of_In _ _) Hside)).
  unfold side_ok in Hok. rewrite Hpc in Hok. cbn [iter_joints] in Hok.
  split.
  - apply (gradient_defined_at _ _ (length joints)); [done| |].
    + by eapply lookup_lt_Some.
    + subst n. unfold present, with_side.
      etrans; [apply length_filter|]. by rewrite length_map.
  - apply (apply_writes_target landmarks (all_writes landmarks)
             (fun _ => ∅) (sec, name, grad_colour start end_ i n)).
    + apply all_writes_NoDup.
    + apply all_writes_present.
    + unfold all_writes. apply list_elem_of_In, in_flat_map.
      exists (body_part, Chain joints).
      split; [by apply list_elem_of_In|].
      unfold item_writes. cbn [fst snd]. rewrite Hsec.
      apply in_flat_map. exists side.
      split; [by apply list_elem_of_In|].
      unfold side_writes. rewrite Hpc.
      apply list_elem_of_In. unfold part_writes, side_names.
      cbn [iter_joints].
      apply (list_elem_of_lookup_2 _ i).
      rewrite list_lookup_imap, Hi. done.
Qed.
End ColourFacts.

(** ** Selecting sections *)

Section SelectorFacts.
Import _Skeleton.

Lemma bone_list_loop members self mask acc :
  foldl (fun bones sec =>
           if enabled mask sec then bones ++ _bones self sec else bones)
        acc members
  = acc ++ enabled_bones members (_bones self) mask.
Proof.
  unfold enabled_bones. revert acc.
  induction members as [|sec members IH]; intros acc.
  - simpl. by rewrite app_nil_r.
  - cbn [foldl]. rewrite IH, filter_cons.
    destruct (enabled mask sec).
    + rewrite decide_True by done. cbn [map concat].
      by rewrite <- app_assoc.
    + by rewrite decide_False by done.
Qed.

Lemma get_bone_list_over_enabled members self mask :
  get_bone_list_over members self mask
  = enabled_bones members (_bones self) mask.
Proof. unfold get_bone_list_over. by rewrite bone_list_loop. Qed.

(** Skipping [FULL] in the iteration changes nothing. *)
Lemma get_bone_list_canonical self mask :
  _bones self FULL = [] ->
  get_bone_list_over Sections_canonical self mask
  = get_bone_list self mask.
Proof.
  intros HFULL. unfold get_bone_list.
  rewrite !get_bone_list_over_enabled.
  unfold enabled_bones.
  change Sections_members
    with ([MAIN; HEAD; FACE; HANDS; FEET] ++ [FULL] ++ [OBJECTS]).
  change Sections_canonical
    with ([MAIN; HEAD; FACE; HANDS; FEET] ++ [OBJECTS]).
  rewrite !filter_app, !map_app, !concat_app.
  f_equal. rewrite (filter_cons _ FULL), filter_nil.
  destruct (decide (enabled mask FULL = true)); [|done].
  cbn [map concat]. by rewrite HFULL.
Qed.
End SelectorFacts.


(** ** The skeleton as constructed *)

Section SkeletonFacts.
Import _Skeleton.
Implicit Types landmarks : list string.

Lemma init_inv landmarks radius self :
  __init__ landmarks radius = Ok self ->
  _compute_bones landmarks = Ok (_bones self) /\
  _compute_colours landmarks = Ok (_colours self).
Proof.
  unfold __init__. intros H. do 2 bind_inv H. by injection H as <-.
Qed.

(** The constructor goes through exactly on the schemas on which the bone
    pass does; otherwise it raises [ValueError]. *)
Lemma init_result landmarks radius :
  if decide ("left hip" ∈ landmarks /\ "right hip" ∈ landmarks /\
             ("left clavicle" ∈ landmarks ->
              "right clavicle" ∈ landmarks) /\
             ("left clavicle" ∉ landmarks ->
              "left shoulder" ∈ landmarks ->
              "right shoulder" ∈ landmarks))
  then exists self, __init__ landmarks radius = Ok self
  else __init__ landmarks radius = Raise ValueError.
Proof.
  pose proof (compute_bones_result landmarks) as H.
  unfold __init__. rewrite compute_colours_writes.
  destruct (decide _).
  - destruct H as (bones & ->). cbn [bind]. eauto.
  - by rewrite H.
Qed.

(** C1. The constructor is not total: it raises [ValueError] on a schema
    without hips (the hip pass looks both hips up without a guard), on a
    schema with one hip only, and on a schema whose left shoulder or left
    clavicle has no right-side counterpart (the shoulder pass guards the
    left side only). *)
Theorem skeleton_init_raises :
  __init__ ["nose"; "neck"; "left shoulder"; "right shoulder"] 5
    = Raise ValueError /\
  __init__ ["left hip"; "pelvis"] 5 = Raise ValueError /\
  __init__ ["left shoulder"; "neck"; "left hip"; "right hip"] 5
    = Raise ValueError /\
  __init__ ["left clavicle"; "neck"; "left hip"; "right hip"] 5
    = Raise ValueError.
Proof. split_and!; vm_compute; reflexivity. Qed.

(** C2, as stated, fails: on the fixture the HEAD section is not empty. *)
Lemma fixture_head_not_empty :
  ~ (exists self, __init__ fixture 5 = Ok self /\
       print_bones self fixture (value MAIN)
         = Ok [("left hip", "pelvis"); ("right hip", "pelvis")] /\
       _bones self HEAD = []).
Proof.
  intros (self & Hinit & _ & Hhead).
  vm_compute in Hinit. injection Hinit as <-. discriminate Hhead.
Qed.

(** C2, amended. On the fixture the MAIN bones are exactly
    (left hip, pelvis) and (right hip, pelvis), from the first step of the
    hip fallback, and the HEAD bones are exactly (nose, pelvis): the
    pelvis is a spine candidate, so the head link attaches the nose to
    it. *)
Theorem fixture_bones :
  exists self, __init__ fixture 5 = Ok self /\
    _bones self MAIN = [(1, 3); (2, 3)]%nat /\
    print_bones self fixture (value MAIN)
      = Ok [("left hip", "pelvis"); ("right hip", "pelvis")] /\
    _bones self HEAD = [(0, 3)]%nat /\
    print_bones self fixture (value HEAD) = Ok [("nose", "pelvis")].
Proof.
  destruct (__init__ fixture 5) as [self|] eqn:Hinit;
    vm_compute in Hinit; [|discriminate Hinit].
  injection Hinit as <-. eexists. split; [reflexivity|].
  split_and!; vm_compute; reflexivity.
Qed.

(** C5. The head link never raises and adds at most one edge after the
    head chain.  The candidate pairs are visited with the reversed head
    list, nose before head top, outside and the spine list inside; the
    first pair with both names in the schema gives the edge, and when
    there is no such pair there is no edge. *)
Theorem head_link_spec landmarks :
  reverse head = ["nose"; "head top"] /\
  exists link,
    head_link landmarks (reverse head) = Ok link /\
    (length link <= 1)%nat /\
    match find (both_in landmarks) head_spine_pairs with
    | Some (head_pt, top_spine) =>
        head_pt ∈ landmarks /\ top_spine ∈ landmarks /\
        index head_pt landmarks = Ok (idx landmarks head_pt) /\
        index top_spine landmarks = Ok (idx landmarks top_spine) /\
        link = [(idx landmarks head_pt, idx landmarks top_spine)]
    | None => link = []
    end /\
    forall bones, _compute_bones landmarks = Ok bones ->
      exists chain, _connect_sequence landmarks head = Ok chain /\
                    bones HEAD = chain ++ link.
Proof.
  split; [reflexivity|].
  pose proof (head_link_first landmarks (reverse head)) as H.
  fold head_spine_pairs in H.
  destruct (head_link_ok landmarks) as (link & Hlink).
  exists link. split; [done|].
  assert (forall bones, _compute_bones landmarks = Ok bones ->
            exists chain, _connect_sequence landmarks head = Ok chain /\
                          bones HEAD = chain ++ link) as Hbones.
  { intros bones (? & ? & link' & ? & ? & ? & _ & _ & Hl & _ & _ & _ & _
                  & Hhead & _)%compute_bones_inv.
    exists (chain_path landmarks head).
    split; [apply connect_sequence_path|]. congruence. }
  destruct (find (both_in landmarks) head_spine_pairs) as [[h s]|].
  - destruct H as (Hh & Hs & H).
    assert (link = [(idx landmarks h, idx landmarks s)]) as ->
      by congruence.
    split; [simpl; lia|]. split; [|done].
    split_and!; try done; by apply idx_present.
  - assert (link = []) as -> by congruence.
    split; [simpl; lia|]. done.
Qed.

Lemma head_link_spec_witness :
  exists bones, _compute_bones fixture = Ok bones /\
                bones HEAD = [(0, 3)]%nat.
Proof.
  destruct (head_link_spec fixture) as (_ & link & Hlink & _ & _ & Hb).
  destruct (_compute_bones fixture) as [bones|] eqn:Hbones;
    [|by vm_compute in Hbones].
  exists bones. split; [reflexivity|].
  destruct (Hb bones eq_refl) as (chain & Hchain & ->).
  vm_compute in Hlink, Hchain.
  injection Hlink as <-. injection Hchain as <-. reflexivity.
Defined.

(** C7. On a constructed skeleton [get_bone_list] returns, for every
    mask, the bone lists of the enabled sections one after the other in
    the order MAIN, HEAD, FACE, HANDS, FEET, OBJECTS (whether or not the
    iteration over the enum also visits FULL); and the MAIN list is the
    arm chains, then the shoulder link, then the leg chains, then the hip
    link, then the spine chain. *)
Theorem bone_list_order landmarks radius self mask :
  __init__ landmarks radius = Ok self ->
  Sections_canonical = [MAIN; HEAD; FACE; HANDS; FEET; OBJECTS] /\
  get_bone_list self mask
    = enabled_bones Sections_canonical (_bones self) mask /\
  get_bone_list_over Sections_canonical self mask
    = get_bone_list self mask /\
  exists arms shoulders legs hips spine_bones,
    _connect_sequence_symmetrically landmarks arm = Ok arms /\
    shoulder_pass landmarks ["clavicle"; "shoulder"] = Ok shoulders /\
    _connect_sequence_symmetrically landmarks leg = Ok legs /\
    _limb2spine landmarks "hip" ["pelvis"] spine_from_hips = Ok hips /\
    _connect_sequence landmarks spine = Ok spine_bones /\
    _bones self MAIN = arms ++ shoulders ++ legs ++ hips ++ spine_bones.
Proof.
  intros [Hbones _]%init_inv.
  apply compute_bones_inv in Hbones
    as (shoulders & hips & link & ? & ? & ? & Hsh & Hhip & _ & _ & _ & _
        & Hmain & _ & _ & _ & _ & HFULL & _).
  split; [reflexivity|].
  pose proof (get_bone_list_canonical self mask HFULL) as Hcanon.
  split; [by rewrite <- Hcanon, get_bone_list_over_enabled|].
  split; [done|].
  eexists _, shoulders, _, hips, _.
  rewrite !connect_sequence_symmetrically_path, connect_sequence_path.
  by split_and!.
Qed.

Lemma bone_list_order_witness :
  exists self, __init__ fixture 5 = Ok self /\
    get_bone_list self 3 = [(1, 3); (2, 3); (0, 3)]%nat.
Proof.
  destruct (__init__ fixture 5) as [self|] eqn:Hinit;
    [|by vm_compute in Hinit].
  exists self. split; [reflexivity|].
  destruct (bone_list_order fixture 5 self 3 Hinit) as (_ & -> & _).
  vm_compute in Hinit. injection Hinit as <-. reflexivity.
Defined.

(** C8. On a constructed skeleton the colour dictionaries of two
    different sections have no landmark index in common (with or without
    duplicates in the schema), so that for every mask [get_colour_dict]
    holds every entry of every enabled section, and nothing else. *)
Theorem colour_sections_disjoint landmarks radius self :
  __init__ landmarks radius = Ok self ->
  (forall s1 s2, s1 <> s2 ->
     dom (_colours self s1) ## dom (_colours self s2)) /\
  (forall mask sec k c,
     enabled mask sec = true -> _colours self sec !! k = Some c ->
     get_colour_dict self mask !! k = Some c) /\
  (forall mask k c,
     get_colour_dict self mask !! k = Some c ->
     exists sec, enabled mask sec = true /\
                 _colours self sec !! k = Some c) /\
  (forall mask, get_colour_dict_over Sections_canonical self mask
                = get_colour_dict self mask).
Proof.
  intros [_ Hcol]%init_inv.
  assert (forall s1 s2, s1 <> s2 ->
            dom (_colours self s1) ## dom (_colours self s2)) as Hdisj
    by (intros s1 s2; by apply (compute_colours_disjoint landmarks)).
  split; [exact Hdisj|]. split_and!.
  - intros mask sec k c Hen Hk.
    apply (colour_dict_target _ _ _ sec); try done.
    destruct sec; compute_done.
  - intros mask k c (sec & _ & ? & ?)%colour_dict_source. eauto.
  - intros mask. apply get_colour_dict_canonical.
    by apply (compute_colours_FULL landmarks).
Qed.

Lemma colour_sections_disjoint_witness :
  exists self, __init__ fixture 5 = Ok self /\
    dom (_colours self MAIN) ## dom (_colours self HEAD) /\
    get_colour_dict self 3 !! 0%nat = Some (210, 210, 0)%Z.
Proof.
  destruct (__init__ fixture 5) as [self|] eqn:Hinit;
    [|by vm_compute in Hinit].
  exists self. split; [reflexivity|].
  destruct (colour_sections_disjoint fixture 5 self Hinit)
    as (Hdisj & Hget & _).
  split; [by apply Hdisj|].
  apply (Hget 3%Z HEAD); [reflexivity|].
  vm_compute in Hinit. injection Hinit as <-. reflexivity.
Defined.
End SkeletonFacts.

(** ** The gradient along a chain *)

Section GradientFacts.
Import _Skeleton.
Implicit Types landmarks : list string.

Lemma gradient_at_inv start end_ i n c :
  gradient_at start end_ i n = Ok c ->
  exists t, gradient_t i n = Ok t /\
    channel start.1.1 end_.1.1 t = Ok c.1.1 /\
    channel start.1.2 end_.1.2 t = Ok c.1.2 /\
    channel start.2 end_.2 t = Ok c.2.
Proof.
  unfold gradient_at, gradient_colour. intros H. bind_inv H.
  destruct start as [[s0 s1] s2], end_ as [[e0 e1] e2].
  do 3 bind_inv H. injection H as <-. eauto.
Qed.

Lemma gradient_t_value i n t :
  gradient_t i n = Ok t ->
  t = if (1 <? n)%nat
      then PyFloat (SFdiv prec emax (float_of_int (Z.of_nat i))
                          (float_of_int (Z.of_nat n - 1)))
      else PyInt 1.
Proof.
  unfold gradient_t, py_truediv.
  destruct (1 <? n)%nat eqn:Hn; [|congruence].
  apply Nat.ltb_lt in Hn.
  destruct (Z.of_nat n - 1 =? 0)%Z eqn:Hz; [|congruence].
  apply Z.eqb_eq in Hz. lia.
Qed.

(** The colours of one chain part, given its entries in the tables and
    the colours of its one-joint and two-joint gradients. *)
Lemma chain_gradient_part landmarks side body_part joints start end_ sec :
  dict_get _body_parts body_part = Ok (Chain joints) ->
  side ∈ sides_of body_part ->
  section_of body_part None = Some sec ->
  dict_get _part_colours (side +:+ body_part)
  = Ok (Gradient start end_) ->
  grad_colour start end_ 0 1 = end_ ->
  grad_colour start end_ 0 2 = start ->
  grad_colour start end_ 1 2 = end_ ->
  forall i name n,
    present landmarks (with_side side joints) !! i = Some name ->
    n = length (present landmarks (with_side side joints)) ->
    exists t c,
      gradient_t i n = Ok t /\
      t = (if (1 <? n)%nat
           then PyFloat (SFdiv prec emax (float_of_int (Z.of_nat i))
                               (float_of_int (Z.of_nat n - 1)))
           else PyInt 1) /\
      channel start.1.1 end_.1.1 t = Ok c.1.1 /\
      channel start.1.2 end_.1.2 t = Ok c.1.2 /\
      channel start.2 end_.2 t = Ok c.2 /\
      landmarks !! idx landmarks name = Some name /\
      apply_writes landmarks (all_writes landmarks) (fun _ => ∅) sec
        !! idx landmarks name = Some c /\
      (n = 1%nat -> c = end_) /\
      (n = 2%nat -> i = 0%nat -> c = start) /\
      (n = 2%nat -> i = 1%nat -> c = end_).
Proof.
  intros Hbp Hside Hsec Hpc H01 H02 H12 i name n Hi ->.
  destruct (chain_colours landmarks side body_part joints start end_ sec
              i name Hbp Hside Hsec Hpc Hi) as [Hat Hlook].
  destruct (gradient_at_inv _ _ _ _ _ Hat) as (t & Ht & Hc0 & Hc1 & Hc2).
  exists t, (grad_colour start end_ i
               (length (present landmarks (with_side side joints)))).
  split; [exact Ht|]. split; [by apply gradient_t_value|].
  split_and!; try done.
  - apply idx_present.
    apply list_elem_of_lookup_2 in Hi. by apply present_in in Hi as [? _].
  - intros Hn. apply lookup_lt_Some in Hi. rewrite Hn in *.
    by replace i with 0%nat by lia.
  - intros Hn ->. by rewrite Hn.
  - intros Hn ->. by rewrite Hn.
Qed.

(** One case of the theorem below: the tables are read by computation. *)
Ltac chain_part landmarks side body_part :=
  eexists _, _, _, _, _;
  split; [reflexivity|]; split; [reflexivity|];
  split; [reflexivity|];
  split; [apply compute_colours_writes|];
  apply (chain_gradient_part landmarks side body_part);
  [reflexivity|compute_done|reflexivity|reflexivity
  |vm_compute; reflexivity..].

(** C4, amended. For each chain-shaped part, with its side, and every
    schema: the colouring never raises, and with [n] the number of the
    part's joints found in the schema, in chain order, the [i]-th of them
    has [t = i / (n - 1)] in floating point when [n > 1] and the integer
    [t = 1] otherwise, and is stored under its landmark index with the
    colour whose channels are [int(start[c] * (1 - t) + end[c] * t)],
    truncated and not rounded.  One joint alone gets exactly the end
    colour; of two joints the first gets exactly the start colour and the
    second exactly the end colour. *)
Theorem chain_gradient side body_part landmarks :
  (side, body_part) ∈ chain_parts ->
  exists joints start end_ sec colours,
    dict_get _body_parts body_part = Ok (Chain joints) /\
    dict_get _part_colours (side +:+ body_part)
    = Ok (Gradient start end_) /\
    section_of body_part None = Some sec /\
    _compute_colours landmarks = Ok colours /\
    forall i name n,
      present landmarks (with_side side joints) !! i = Some name ->
      n = length (present landmarks (with_side side joints)) ->
      exists t c,
        gradient_t i n = Ok t /\
        t = (if (1 <? n)%nat
             then PyFloat (SFdiv prec emax (float_of_int (Z.of_nat i))
                                 (float_of_int (Z.of_nat n - 1)))
             else PyInt 1) /\
        channel start.1.1 end_.1.1 t = Ok c.1.1 /\
        channel start.1.2 end_.1.2 t = Ok c.1.2 /\
        channel start.2 end_.2 t = Ok c.2 /\
        landmarks !! idx landmarks name = Some name /\
        colours sec !! idx landmarks name = Some c /\
        (n = 1%nat -> c = end_) /\
        (n = 2%nat -> i = 0%nat -> c = start) /\
        (n = 2%nat -> i = 1%nat -> c = end_).
Proof.
  intros Hin. unfold chain_parts in Hin.
  repeat (apply elem_of_cons in Hin as [[= -> ->]|Hin]);
    [..|by apply elem_of_nil in Hin].
  - chain_part landmarks "" "spine".
  - chain_part landmarks "left " "leg".
  - chain_part landmarks "right " "leg".
  - chain_part landmarks "left " "arm".
  - chain_part landmarks "right " "arm".
  - chain_part landmarks "" "head".
  - chain_part landmarks "" "objects".
Qed.

(** The second of the four right-leg joints has its red channel
    interpolated between 100 and 0 at [t = 1/3]. *)
Lemma chain_gradient_witness :
  exists colours,
    _compute_colours right_leg_schema = Ok colours /\
    colours MAIN !! 1%nat = Some (66, 66, 220)%Z.
Proof.
  destruct (chain_gradient "right " "leg" right_leg_schema)
    as (joints & start & end_ & sec & colours & Hj & Hc & Hs & Hcol & H).
  { compute_done. }
  exists colours. split; [exact Hcol|].
  vm_compute in Hj, Hc, Hs.
  injection Hj as <-. injection Hc as <- <-. injection Hs as <-.
  destruct (H 1%nat "right ankle" 4%nat eq_refl eq_refl)
    as (t & c & Ht & _ & Hc0 & Hc1 & Hc2 & _ & Hlook & _).
  vm_compute in Ht. injection Ht as <-.
  vm_compute in Hc0, Hc1, Hc2.
  destruct c as [[c0 c1] c2]. simpl in *.
  injection Hc0 as <-. injection Hc1 as <-. injection Hc2 as <-.
  exact Hlook.
Defined.

(** C4, as stated, fails: on [right_leg_schema] the right ankle is the
    second of four right-leg joints; the constructor stores red 66 for
    it, the truncation of 66.67, where rounding gives 67. *)
Lemma gradient_round_counterexample :
  exists self t,
    __init__ right_leg_schema 5 = Ok self /\
    index "right ankle" right_leg_schema = Ok 1%nat /\
    present right_leg_schema (with_side "right " leg)
      = ["right foot"; "right ankle"; "right knee"; "right hip"] /\
    gradient_t 1 4 = Ok t /\
    _colours self MAIN !! 1%nat = Some (66, 66, 220)%Z /\
    channel 100 0 t = Ok 66%Z /\
    spec_channel 100 0 t = Ok 67%Z.
Proof.
  pose proof (init_result right_leg_schema 5) as Hinit.
  rewrite decide_True in Hinit by compute_done.
  destruct Hinit as (self & Hinit).
  exists self, (PyFloat (S754_finite false 6004799503160661 (-54))).
  split; [exact Hinit|].
  apply init_inv in Hinit as [_ Hcol].
  rewrite compute_colours_writes in Hcol. injection Hcol as Hcol.
  rewrite <- Hcol.
  split_and!; vm_compute; reflexivity.
Qed.
End GradientFacts.


(** ** More on the intersection *)

Section IntersectionMore.
Import Intersection.
Implicit Types src dest : list string.

(** The vectors built by the constructor's loop over a prefix [l] of
    [dest], with or without duplicates in the schemas. *)
Lemma init_loop_vectors src l :
  exists I,
    for_each (init_body src) (enumerate l)
      {| _src_vec := []; _dest_vec := []; landmarks := [] |} = Ok I /\
    landmarks I = filter (fun name => name ∈ src) l /\
    _src_vec I = map (idx src) (landmarks I) /\
    length (_dest_vec I) = length (landmarks I) /\
    (forall k j, _dest_vec I !! k = Some j ->
                 (j < length l)%nat /\ l !! j = landmarks I !! k) /\
    (forall k1 k2 j1 j2, (k1 < k2)%nat ->
       _dest_vec I !! k1 = Some j1 -> _dest_vec I !! k2 = Some j2 ->
       (j1 < j2)%nat).
Proof.
  induction l as [|x l IH] using rev_ind.
  - eexists. split; [reflexivity|]. simpl. split_and!; try done.
  - destruct IH as (I & HI & Hlm & Hs & Hd & Hk & Hsorted).
    rewrite enumerate_snoc, for_each_app, HI. simpl.
    rewrite filter_app, filter_cons, filter_nil, length_app. simpl.
    destruct (py_in x src) eqn:Hx.
    + apply py_in_true in Hx.
      destruct (idx_present _ _ Hx) as [-> _]. simpl.
      eexists. split; [reflexivity|]. rewrite decide_True by done.
      simpl. split_and!.
      * by rewrite Hlm.
      * by rewrite map_app, Hs.
      * rewrite !length_app. simpl. lia.
      * intros k j Hlook.
        apply lookup_app_Some in Hlook as [Hlook|[Hge Hlook]].
        -- destruct (Hk k j Hlook) as [Hj Hl]. split; [lia|].
           rewrite !lookup_app_l; [done| |done].
           rewrite <- Hd. by eapply lookup_lt_Some.
        -- apply list_lookup_singleton_Some in Hlook as [Hk0 <-].
           split; [lia|].
           assert (k = length (landmarks I)) as -> by lia.
           by rewrite !lookup_app_r, !Nat.sub_diag by lia.
      * intros k1 k2 j1 j2 Hlt H1 H2.
        apply lookup_app_Some in H2 as [H2|[Hge H2]].
        -- apply (Hsorted k1 k2); [done| |done].
           rewrite lookup_app_l in H1; [done|].
           apply lookup_lt_Some in H2. lia.
        -- apply list_lookup_singleton_Some in H2 as [Hk0 <-].
           rewrite lookup_app_l in H1 by lia.
           by apply Hk in H1 as [? _].
    + apply py_in_false in Hx. simpl. exists I. split; [done|].
      rewrite decide_False by done. rewrite app_nil_r.
      split_and!; try done.
      intros k j Hlook. destruct (Hk k j Hlook) as [Hj Hl].
      split; [lia|]. by rewrite lookup_app_l.
Qed.

Lemma init_vectors src dest I :
  __init__ src dest = Ok I ->
  landmarks I = filter (fun name => name ∈ src) dest /\
  _src_vec I = map (idx src) (landmarks I) /\
  length (_dest_vec I) = length (landmarks I) /\
  (forall k j, _dest_vec I !! k = Some j ->
               (j < length dest)%nat /\ dest !! j = landmarks I !! k) /\
  (forall k1 k2 j1 j2, (k1 < k2)%nat ->
     _dest_vec I !! k1 = Some j1 -> _dest_vec I !! k2 = Some j2 ->
     (j1 < j2)%nat).
Proof.
  intros HI. destruct (init_loop_vectors src dest) as (I' & HI' & H).
  unfold __init__ in HI. rewrite HI' in HI. by injection HI as <-.
Qed.

Lemma src_vec_in_range src dest I :
  __init__ src dest = Ok I ->
  Forall (fun i => i < length src)%nat (_src_vec I).
Proof.
  intros (Hlm & -> & _)%init_vectors.
  apply Forall_fmap, Forall_forall. intros name Hname. simpl.
  rewrite Hlm in Hname. apply list_elem_of_filter in Hname as [Hin _].
  destruct (idx_present _ _ Hin) as [_ Hl]. by eapply lookup_lt_Some.
Qed.

Lemma dest_vec_in_range src dest I :
  __init__ src dest = Ok I ->
  Forall (fun j => j < length dest)%nat (_dest_vec I).
Proof.
  intros (_ & _ & _ & Hk & _)%init_vectors.
  apply Forall_lookup. intros k j Hj. by apply Hk in Hj as [? _].
Qed.

(** X1. For any two name lists, duplicates allowed, the constructor never
    raises; the source indices are the first positions of the common
    names in [src], every recorded index is a valid position of its
    schema, and the destination indices are strictly increasing. *)
Theorem intersection_vectors src dest :
  exists I, __init__ src dest = Ok I /\
    landmarks I = filter (fun name => name ∈ src) dest /\
    _src_vec I = map (idx src) (landmarks I) /\
    Forall (fun i => i < length src)%nat (_src_vec I) /\
    Forall (fun j => j < length dest)%nat (_dest_vec I) /\
    (forall k1 k2 j1 j2, (k1 < k2)%nat ->
       _dest_vec I !! k1 = Some j1 -> _dest_vec I !! k2 = Some j2 ->
       (j1 < j2)%nat).
Proof.
  destruct (init_loop_vectors src dest) as (I & HI & _).
  exists I. split; [exact HI|].
  pose proof (src_vec_in_range src dest I HI).
  pose proof (dest_vec_in_range src dest I HI).
  apply init_vectors in HI as (? & ? & _ & _ & ?). done.
Qed.

Lemma intersection_vectors_witness :
  exists I, __init__ ["a"; "b"; "a"] ["b"; "c"; "a"; "a"] = Ok I /\
    _src_vec I = [1; 0; 0]%nat /\ _dest_vec I = [0; 2; 3]%nat.
Proof.
  destruct (intersection_vectors ["a"; "b"; "a"] ["b"; "c"; "a"; "a"])
    as (I & HI & _).
  exists I. split; [exact HI|].
  vm_compute in HI. by injection HI as <-.
Defined.
End IntersectionMore.

(** ** Projections through an intersection *)

Section ProjectionMore.
Context {A : Type}.
Import Intersection.
Implicit Types (a b : ndarray A) (vec : list nat).

Lemma landmark_axis_projected a n m :
  landmark_axis a = Some n ->
  landmark_axis {| shape := projected_shape a m; data := data a |}
  = Some m.
Proof.
  unfold landmark_axis, projected_shape. simpl.
  by destruct (shape a) as [|n0 [|n1 [|n2 [|? ?]]]].
Qed.

Lemma Forall_lt_le vec n m :
  Forall (fun i => i < n)%nat vec -> (n <= m)%nat ->
  Forall (fun i => i < m)%nat vec.
Proof. intros H Hle. eapply Forall_impl; [exact H|]. simpl. lia. Qed.

(** A projection along in-range indices, with the landmark axis of the
    result. *)
Lemma project_in_range vec a n :
  landmark_axis a = Some n -> wf a ->
  Forall (fun i => i < n)%nat vec ->
  exists r, project vec a = Ok (Some r) /\ wf r /\
    landmark_axis r = Some (length vec) /\
    forall pos, at_pos r pos = gathered a vec pos.
Proof.
  intros Hn Hwf Hvec.
  destruct (project_long vec a n Hn Hwf Hvec)
    as (r & Hr & Hs & Hwr & Hat).
  exists r. split_and!; try done.
  pose proof (landmark_axis_projected a n (length vec) Hn) as H.
  unfold landmark_axis in *. simpl in H. by rewrite Hs.
Qed.

Lemma gathered_at a vec k i :
  vec !! k = Some i ->
  (forall c, gathered a vec [k; c] = at_pos a [i; c]) /\
  (forall f c, gathered a vec [f; k; c] = at_pos a [f; i; c]).
Proof.
  intros Hk. unfold gathered, at_pos.
  split; intros; destruct (shape a) as [|n0 [|n1 [|n2 [|? ?]]]];
    try done; by rewrite Hk.
Qed.

(** X2. Arrays laid out like the schemas never make the projections fail:
    when the landmark axis of [a] covers [src] and that of [b] covers
    [dest], [source] and [destination] both return arrays, well formed,
    whose landmark axes have one entry per common landmark, so that the
    two results have the same number of landmarks. *)
Theorem projections_of_aligned_arrays src dest I a b n m :
  __init__ src dest = Ok I ->
  wf a -> landmark_axis a = Some n -> (length src <= n)%nat ->
  wf b -> landmark_axis b = Some m -> (length dest <= m)%nat ->
  exists ra rb,
    source I a = Ok (Some ra) /\ destination I b = Ok (Some rb) /\
    wf ra /\ wf rb /\
    landmark_axis ra = Some (length (landmarks I)) /\
    landmark_axis rb = Some (length (landmarks I)).
Proof.
  intros HI Hwa Ha Hn Hwb Hb Hm.
  pose proof (src_vec_in_range _ _ _ HI) as Hs.
  pose proof (dest_vec_in_range _ _ _ HI) as Hd.
  apply init_vectors in HI as (_ & Hsv & Hdl & _).
  destruct (project_in_range (_src_vec I) a n Ha Hwa)
    as (ra & ? & ? & Hra & _); [by eapply Forall_lt_le|].
  destruct (project_in_range (_dest_vec I) b m Hb Hwb)
    as (rb & ? & ? & Hrb & _); [by eapply Forall_lt_le|].
  exists ra, rb. rewrite source_project, destination_project.
  split_and!; try done.
  - by rewrite Hra, Hsv, length_map.
  - by rewrite Hrb, Hdl.
Qed.

(** X3. The two projections are aligned by name: for every position [k]
    of the common list, row [k] of [source(a)] is the row of [a] at the
    position of [landmarks[k]] in [src], and row [k] of [destination(b)]
    is the row of [b] at a position of the same name in [dest], for
    arrays of two axes and, frame by frame, for arrays of three. *)
Theorem projections_aligned_by_name src dest I a b n m ra rb :
  __init__ src dest = Ok I ->
  wf a -> landmark_axis a = Some n -> (length src <= n)%nat ->
  wf b -> landmark_axis b = Some m -> (length dest <= m)%nat ->
  source I a = Ok (Some ra) -> destination I b = Ok (Some rb) ->
  forall k name, landmarks I !! k = Some name ->
    exists i j, src !! i = Some name /\ dest !! j = Some name /\
      (forall c, at_pos ra [k; c] = at_pos a [i; c]) /\
      (forall c, at_pos rb [k; c] = at_pos b [j; c]) /\
      (forall f c, at_pos ra [f; k; c] = at_pos a [f; i; c]) /\
      (forall f c, at_pos rb [f; k; c] = at_pos b [f; j; c]).
Proof.
  intros HI Hwa Ha Hn Hwb Hb Hm Hra Hrb k name Hk.
  pose proof (src_vec_in_range _ _ _ HI) as Hs.
  pose proof (dest_vec_in_range _ _ _ HI) as Hd.
  apply init_vectors in HI as (Hlm & Hsv & Hdl & Hdk & _).
  destruct (project_in_range (_src_vec I) a n Ha Hwa)
    as (ra' & Hra' & _ & _ & Hata); [by eapply Forall_lt_le|].
  destruct (project_in_range (_dest_vec I) b m Hb Hwb)
    as (rb' & Hrb' & _ & _ & Hatb); [by eapply Forall_lt_le|].
  rewrite source_project in Hra. rewrite destination_project in Hrb.
  assert (ra' = ra) as -> by congruence.
  assert (rb' = rb) as -> by congruence.
  assert (name ∈ src) as Hin.
  { apply list_elem_of_lookup_2 in Hk. rewrite Hlm in Hk.
    by apply list_elem_of_filter in Hk as [? _]. }
  destruct (idx_present _ _ Hin) as [_ Hi].
  assert (_src_vec I !! k = Some (idx src name)) as Hsk
    by (by rewrite Hsv, list_lookup_fmap, Hk).
  destruct (_dest_vec I !! k) as [j|] eqn:Hj.
  2:{ apply lookup_ge_None in Hj. apply lookup_lt_Some in Hk. lia. }
  destruct (Hdk k j Hj) as [_ Hdj]. rewrite Hk in Hdj.
  exists (idx src name), j.
  destruct (gathered_at a _ _ _ Hsk) as [Ha2 Ha3].
  destruct (gathered_at b _ _ _ Hj) as [Hb2 Hb3].
  split_and!; try done; intros; by rewrite ?Hata, ?Hatb.
Qed.
End ProjectionMore.

Lemma projections_of_aligned_arrays_witness :
  exists I ra rb,
    Intersection.__init__ ["nose"; "x"; "pelvis"] ["pelvis"; "nose"]
      = Ok I /\
    Intersection.source I
      {| shape := [3; 2]%nat; data := [10; 11; 20; 21; 30; 31]%Z |}
      = Ok (Some ra) /\
    Intersection.destination I
      {| shape := [2; 2]%nat; data := [50; 51; 60; 61]%Z |}
      = Ok (Some rb) /\
    landmark_axis ra = Some 2%nat /\ landmark_axis rb = Some 2%nat.
Proof.
  destruct (Intersection.__init__ ["nose"; "x"; "pelvis"]
              ["pelvis"; "nose"]) as [I|] eqn:HI;
    [|by vm_compute in HI].
  destruct (projections_of_aligned_arrays
              ["nose"; "x"; "pelvis"] ["pelvis"; "nose"] I
              {| shape := [3; 2]%nat; data := [10; 11; 20; 21; 30; 31]%Z |}
              {| shape := [2; 2]%nat; data := [50; 51; 60; 61]%Z |}
              3 2 HI eq_refl eq_refl (le_n _) eq_refl eq_refl (le_n _))
    as (ra & rb & Hra & Hrb & _ & _ & Ha & Hb).
  exists I, ra, rb. split; [reflexivity|].
  vm_compute in HI. injection HI as <-.
  split_and!; done.
Defined.

Lemma projections_aligned_by_name_witness :
  let I := {| Intersection._src_vec := [2; 0]%nat;
              Intersection._dest_vec := [0; 1]%nat;
              Intersection.landmarks := ["pelvis"; "nose"] |} in
  let a := {| shape := [3; 2]%nat; data := [10; 11; 20; 21; 30; 31]%Z |} in
  let b := {| shape := [2; 2]%nat; data := [50; 51; 60; 61]%Z |} in
  let ra := {| shape := [2; 2]%nat; data := [30; 31; 10; 11]%Z |} in
  let rb := {| shape := [2; 2]%nat; data := [50; 51; 60; 61]%Z |} in
  exists i j, ["nose"; "x"; "pelvis"] !! i = Some "pelvis" /\
    ["pelvis"; "nose"] !! j = Some "pelvis" /\
    at_pos ra [0; 1]%nat = at_pos a [i; 1%nat] /\
    at_pos rb [0; 1]%nat = at_pos b [j; 1%nat].
Proof.
  intros I a b ra rb.
  destruct (projections_aligned_by_name
              ["nose"; "x"; "pelvis"] ["pelvis"; "nose"] I a b 3 2 ra rb
              eq_refl eq_refl eq_refl (le_n _) eq_refl eq_refl (le_n _)
              eq_refl eq_refl 0%nat "pelvis" eq_refl)
    as (i & j & Hi & Hj & Ha & Hb & _).
  exists i, j. split_and!; done.
Defined.

(** ** Special intersections *)

Section IntersectionSpecial.
Context {A : Type}.
Import Intersection.
Implicit Types (a : ndarray A) (l src dest : list string).

Lemma entry_S w (buf : list A) i :
  entry w buf (S i) = entry w (drop w buf) i.
Proof.
  unfold entry. by rewrite drop_drop.
Qed.

(** Gathering every entry in order gives the buffer back. *)
Lemma gather_seq w (buf : list A) n :
  length buf = (n * w)%nat -> gather w buf (seq 0 n) = buf.
Proof.
  unfold gather. revert buf. induction n as [|n IH]; intros buf Hlen.
  - by destruct buf.
  - cbn [seq map concat]. rewrite <- fmap_S_seq.
    change (map (entry w buf) (S <$> seq 0 n))
      with (entry w buf <$> (S <$> seq 0 n)).
    rewrite <- list_fmap_compose.
    rewrite (list_fmap_ext _ (entry w (drop w buf)) (seq 0 n))
      by (intros; apply entry_S).
    change (entry w (drop w buf) <$> seq 0 n)
      with (map (entry w (drop w buf)) (seq 0 n)).
    rewrite IH by (rewrite length_drop; lia).
    unfold entry. simpl. apply take_drop.
Qed.

Lemma project_all a n :
  wf a -> landmark_axis a = Some n ->
  project (seq 0 n) a = Ok (Some a).
Proof.
  unfold wf, landmark_axis, project, take_axis0, take_axis1.
  destruct a as [shp buf]. simpl. intros Hwf Hn.
  assert (Forall (fun i => i < n)%nat (seq 0 n)) as Hall
    by (apply Forall_forall; intros i Hi%elem_of_seq; lia).
  destruct shp as [|n0 [|n1 [|n2 [|? ?]]]]; try discriminate;
    injection Hn as <-; simpl in *;
    rewrite check_indices_ok by done; simpl;
    rewrite length_seq; do 3 f_equal.
  - by apply gather_seq.
  - rewrite Nat.mul_1_r in *.
    rewrite (map_ext_in _ (entry (n1 * n2) buf)).
    + by apply (gather_seq (n1 * n2) buf n0).
    + intros f Hf%in_seq. apply gather_seq, entry_length.
      assert ((f + 1) * (n1 * n2) <= n0 * (n1 * n2))%nat
        by (apply Nat.mul_le_mono_r; lia).
      lia.
Qed.

Lemma idx_seq l : NoDup l -> map (idx l) l = seq 0 (length l).
Proof.
  intros Hnd. apply list_eq. intros k.
  rewrite list_lookup_fmap.
  destruct (l !! k) as [x|] eqn:Hk; simpl.
  - rewrite lookup_seq_lt by (by eapply lookup_lt_Some). f_equal.
    destruct (idx_present l x) as [_ Hx];
      [by eapply list_elem_of_lookup_2|].
    by eapply NoDup_lookup.
  - apply lookup_ge_None in Hk. symmetry.
    apply lookup_ge_None. by rewrite length_seq.
Qed.

Lemma filter_all (l : list string) (P : string -> Prop)
    `{!forall x, Decision (P x)} :
  Forall P l -> filter P l = l.
Proof.
  induction 1 as [|x l Hx Hl IH]; [done|].
  by rewrite filter_cons_True, IH.
Qed.

Lemma init_self l I :
  NoDup l -> __init__ l l = Ok I ->
  landmarks I = l /\ _src_vec I = seq 0 (length l) /\
  _dest_vec I = seq 0 (length l).
Proof.
  intros Hnd (Hlm & Hsv & Hdl & Hdk & _)%init_vectors.
  rewrite filter_all in Hlm by (by apply Forall_forall).
  rewrite Hlm in *. split; [done|].
  split; [by rewrite Hsv, idx_seq|].
  apply list_eq. intros k.
  destruct (_dest_vec I !! k) as [j|] eqn:Hj.
  - destruct (Hdk k j Hj) as [Hlt Hl].
    apply lookup_lt_is_Some_2 in Hlt as [x Hx].
    rewrite Hx in Hl. symmetry in Hl.
    rewrite (NoDup_lookup l k j x Hnd Hl Hx).
    symmetry. apply lookup_seq_lt. by eapply lookup_lt_Some.
  - apply lookup_ge_None in Hj. symmetry.
    apply lookup_ge_None. rewrite length_seq. lia.
Qed.

Lemma filter_none (l : list string) (P : string -> Prop)
    `{!forall x, Decision (P x)} :
  Forall (fun x => ~ P x) l -> filter P l = [].
Proof.
  induction 1 as [|x l Hx Hl IH]; [done|].
  by rewrite filter_cons_False, IH.
Qed.

(** X4. The intersection of a duplicate-free schema with itself is the
    schema, and both its projections return an array laid out like the
    schema unchanged. *)
Theorem intersection_with_itself l a :
  NoDup l -> wf a -> landmark_axis a = Some (length l) ->
  exists I, __init__ l l = Ok I /\ landmarks I = l /\
    source I a = Ok (Some a) /\ destination I a = Ok (Some a).
Proof.
  intros Hnd Hwf Ha.
  destruct (init_loop_vectors l l) as (I & HI & _).
  exists I. split; [exact HI|].
  destruct (init_self l I Hnd HI) as (Hlm & Hs & Hd).
  split; [done|].
  rewrite source_project, destination_project, Hs, Hd.
  split; by apply project_all.
Qed.

(** X5. For duplicate-free schemas, swapping source and destination gives
    the same common landmarks, up to their order. *)
Theorem intersection_swap src dest :
  NoDup src -> NoDup dest ->
  exists I J, __init__ src dest = Ok I /\ __init__ dest src = Ok J /\
    landmarks I ≡ₚ landmarks J.
Proof.
  intros Hs Hd.
  destruct (init_loop_vectors src dest) as (I & HI & HlI & _).
  destruct (init_loop_vectors dest src) as (J & HJ & HlJ & _).
  exists I, J. split; [exact HI|]. split; [exact HJ|].
  rewrite HlI, HlJ. apply NoDup_Permutation.
  - by apply NoDup_filter.
  - by apply NoDup_filter.
  - intros x. rewrite !list_elem_of_filter. tauto.
Qed.

Lemma project_nil a n :
  landmark_axis a = Some n ->
  exists r, project [] a = Ok (Some r) /\ data r = [] /\
            landmark_axis r = Some 0%nat.
Proof.
  unfold landmark_axis, project, take_axis0, take_axis1.
  destruct a as [shp buf]. simpl. intros Hn.
  destruct shp as [|n0 [|n1 [|n2 [|? ?]]]]; try discriminate;
    simpl; eexists; (split; [reflexivity|]); simpl; (split; [|done]).
  - done.
  - induction (seq 0 n0) as [|f fs IH]; [done|]. exact IH.
Qed.

(** X6. Schemas without a common name have an empty intersection, and
    its projections return, for any array of two or three axes whatever
    the length of its landmark axis, an array without landmarks. *)
Theorem intersection_of_disjoint src dest a n :
  (forall name, name ∈ dest -> name ∉ src) ->
  landmark_axis a = Some n ->
  exists I r, __init__ src dest = Ok I /\
    landmarks I = [] /\ _src_vec I = [] /\ _dest_vec I = [] /\
    source I a = Ok (Some r) /\ destination I a = Ok (Some r) /\
    data r = [] /\ landmark_axis r = Some 0%nat.
Proof.
  intros Hdisj Ha.
  destruct (init_loop_vectors src dest) as (I & HI & Hlm & Hsv & Hdl & _).
  assert (landmarks I = []) as Hnil.
  { rewrite Hlm. apply filter_none, Forall_forall. auto. }
  rewrite Hnil in *. simpl in Hsv.
  apply nil_length_inv in Hdl.
  destruct (project_nil a n Ha) as (r & Hr & ? & ?).
  exists I, r. rewrite source_project, destination_project, Hsv, Hdl.
  split_and!; done.
Qed.
End IntersectionSpecial.

Lemma intersection_with_itself_witness :
  exists I,
    Intersection.__init__ ["nose"; "pelvis"] ["nose"; "pelvis"] = Ok I /\
    Intersection.source I
      {| shape := [2; 2]%nat; data := [50; 51; 60; 61]%Z |}
    = Ok (Some {| shape := [2; 2]%nat; data := [50; 51; 60; 61]%Z |}).
Proof.
  destruct (intersection_with_itself ["nose"; "pelvis"]
              {| shape := [2; 2]%nat; data := [50; 51; 60; 61]%Z |})
    as (I & HI & _ & Hs & _); [compute_done|reflexivity..|].
  by exists I.
Defined.

Lemma intersection_swap_witness :
  exists I J,
    Intersection.__init__ ["nose"; "x"; "pelvis"] ["pelvis"; "nose"]
      = Ok I /\
    Intersection.__init__ ["pelvis"; "nose"] ["nose"; "x"; "pelvis"]
      = Ok J /\
    Intersection.landmarks I = ["pelvis"; "nose"] /\
    Intersection.landmarks J = ["nose"; "pelvis"] /\
    Intersection.landmarks I ≡ₚ Intersection.landmarks J.
Proof.
  destruct (intersection_swap ["nose"; "x"; "pelvis"] ["pelvis"; "nose"])
    as (I & J & HI & HJ & Hp); [compute_done..|].
  exists I, J. split; [exact HI|]. split; [exact HJ|].
  vm_compute in HI, HJ. injection HI as <-. injection HJ as <-.
  split_and!; done.
Defined.

Lemma intersection_of_disjoint_witness :
  exists I r,
    Intersection.__init__ ["nose"; "neck"] ["pelvis"] = Ok I /\
    Intersection.source I {| shape := [1; 2]%nat; data := [50; 51]%Z |}
      = Ok (Some r) /\
    data r = [].
Proof.
  destruct (intersection_of_disjoint ["nose"; "neck"] ["pelvis"]
              {| shape := [1; 2]%nat; data := [50; 51]%Z |} 1)
    as (I & r & HI & _ & _ & _ & Hs & _ & Hd & _).
  - intros name ->%list_elem_of_singleton. compute_done.
  - reflexivity.
  - by exists I, r.
Defined.

(** ** The skeleton by names *)

Section NameFacts.
Import _Skeleton.
Implicit Types landmarks cl : list string.

Lemma adjacent_fmap {X Y} (f : X -> Y) (l : list X) :
  adjacent (map f l) = map (fun q => (f q.1, f q.2)) (adjacent l).
Proof.
  induction l as [|a [|b l] IH]; [done..|].
  rewrite adjacent_cons2. cbn [map]. rewrite adjacent_cons2.
  cbn [map]. f_equal. exact IH.
Qed.

Lemma adjacent_elem {X} (l : list X) (p : X * X) :
  p ∈ adjacent l -> p.1 ∈ l /\ p.2 ∈ l.
Proof.
  induction l as [|a [|b l] IH]; try (by intros ?%elem_of_nil).
  rewrite adjacent_cons2.
  intros [->|H]%elem_of_cons; simpl.
  - split; [apply list_elem_of_here|].
    apply list_elem_of_further, list_elem_of_here.
  - destruct (IH H). split; by apply list_elem_of_further.
Qed.

Lemma adjacent_NoDup {X} (l : list X) (p : X * X) :
  NoDup l -> p ∈ adjacent l -> p.1 <> p.2.
Proof.
  induction l as [|a [|b l] IH]; try (by intros _ ?%elem_of_nil).
  rewrite adjacent_cons2.
  intros [Ha Hnd]%NoDup_cons [->|H]%elem_of_cons; simpl.
  - intros ->. apply Ha, list_elem_of_here.
  - by apply IH.
Qed.

Lemma chain_path_names landmarks cl :
  chain_path landmarks cl
  = map (pair_idx landmarks) (chain_names landmarks cl).
Proof. unfold chain_path, chain_names. by rewrite adjacent_fmap. Qed.

Lemma chain_names_present landmarks cl :
  Forall (both_present landmarks) (chain_names landmarks cl).
Proof.
  apply Forall_forall. intros p [H1 H2]%adjacent_elem.
  apply present_in in H1 as [? _]. apply present_in in H2 as [? _].
  by split.
Qed.

Lemma tree_edges_names landmarks d :
  tree_edges landmarks d
  = map (pair_idx landmarks) (tree_names landmarks d).
Proof. reflexivity. Qed.

Lemma tree_names_present landmarks d :
  Forall (both_present landmarks) (tree_names landmarks d).
Proof.
  apply Forall_forall. intros p [H _]%list_elem_of_filter.
  by apply both_in_true.
Qed.

Lemma connect_tree_symmetrically_names landmarks d :
  _connect_tree_symmetrically landmarks d
  = Ok (map (pair_idx landmarks) (sided_tree_names landmarks d)).
Proof.
  unfold _connect_tree_symmetrically, _sides, sided_tree_names.
  cbn [for_each]. rewrite !connect_tree_edges. cbn [bind].
  by rewrite !tree_edges_names, map_app.
Qed.

Lemma first_in_elem landmarks candidates x :
  first_in landmarks candidates = Some x -> x ∈ candidates.
Proof.
  induction candidates as [|c cs IH]; simpl; [done|].
  destruct (py_in c landmarks).
  - intros [= <-]. apply list_elem_of_here.
  - intros H. by apply list_elem_of_further, IH.
Qed.

(** A successful [_limb2spine] returns the edges of [limb_names], whose
    names are all in the schema. *)
Lemma limb2spine_names landmarks limb_end spine_attachment spine_list bs :
  _limb2spine landmarks limb_end spine_attachment spine_list = Ok bs ->
  bs = map (pair_idx landmarks)
           (limb_names landmarks limb_end spine_attachment spine_list) /\
  Forall (both_present landmarks)
         (limb_names landmarks limb_end spine_attachment spine_list).
Proof.
  unfold _limb2spine, limb_names, both_present.
  destruct (decide (("left " +:+ limb_end) ∈ landmarks)) as [Hl|Hl];
    [|by rewrite index_absent].
  destruct (idx_present _ _ Hl) as [-> _]. cbn [bind].
  destruct (decide (("right " +:+ limb_end) ∈ landmarks)) as [Hr|Hr];
    [|by rewrite index_absent].
  destruct (idx_present _ _ Hr) as [-> _]. cbn [bind].
  destruct (first_in landmarks spine_attachment) as [a|] eqn:Ha.
  { apply first_in_Some in Ha.
    destruct (idx_present _ _ Ha) as [-> _]. cbn [bind].
    intros [= <-]. split; [done|]. by repeat constructor. }
  destruct (first_in landmarks spine_list) as [s|] eqn:Hs.
  { apply first_in_Some in Hs.
    destruct (idx_present _ _ Hs) as [-> _]. cbn [bind].
    intros [= <-]. split; [done|]. by repeat constructor. }
  destruct (decide (limb_end <> "hip")) as [Hne|Heq].
  2:{ intros [= <-]. split; [done|]. by repeat constructor. }
  simpl.
  change ("left " +:+ "hip") with "left hip".
  change ("right " +:+ "hip") with "right hip".
  destruct (decide ("left hip" ∈ landmarks)) as [Hlh|Hlh];
    [|by rewrite index_absent].
  destruct (idx_present _ _ Hlh) as [-> _]. cbn [bind].
  destruct (decide ("right hip" ∈ landmarks)) as [Hrh|Hrh];
    [|by rewrite index_absent].
  destruct (idx_present _ _ Hrh) as [-> _]. cbn [bind].
  intros [= <-]. split; [done|]. by repeat constructor.
Qed.

Lemma shoulder_pass_names landmarks bs :
  shoulder_pass landmarks ["clavicle"; "shoulder"] = Ok bs ->
  bs = map (pair_idx landmarks) (shoulder_names landmarks) /\
  Forall (both_present landmarks) (shoulder_names landmarks).
Proof.
  unfold shoulder_names. cbn [shoulder_pass].
  change ("left " +:+ "clavicle") with "left clavicle".
  change ("left " +:+ "shoulder") with "left shoulder".
  destruct (py_in "left clavicle" landmarks);
    [apply limb2spine_names|].
  destruct (py_in "left shoulder" landmarks);
    [apply limb2spine_names|].
  intros [= <-]. by split.
Qed.

Lemma head_link_names_spec landmarks :
  head_link landmarks (reverse head)
  = Ok (map (pair_idx landmarks) (head_link_names landmarks)) /\
  Forall (both_present landmarks) (head_link_names landmarks).
Proof.
  unfold head_link_names.
  pose proof (head_link_first landmarks (reverse head)) as H.
  fold head_spine_pairs in H.
  destruct (find (both_in landmarks) head_spine_pairs) as [[h s]|].
  - destruct H as (Hh & Hs & ->). split; [done|]. by repeat constructor.
  - by rewrite H.
Qed.

(** The bones of a constructed skeleton are the positions of the edges
    of [bone_names], whose names are all in the schema. *)
Lemma compute_bones_names landmarks bones sec :
  _compute_bones landmarks = Ok bones ->
  bones sec = map (pair_idx landmarks) (bone_names landmarks sec) /\
  Forall (both_present landmarks) (bone_names landmarks sec).
Proof.
  intros (shoulders & hips & link & fb & hb & ftb & Hsh & Hhip & Hlink
          & Hface & Hhand & Hfoot & HMAIN & HHEAD & HFACE & HHANDS
          & HFEET & HFULL & HOBJ)%compute_bones_inv.
  apply shoulder_pass_names in Hsh as [-> Hshp].
  apply limb2spine_names in Hhip as [-> Hhipp].
  destruct (head_link_names_spec landmarks) as [Hl Hlp].
  rewrite Hl in Hlink. injection Hlink as <-.
  rewrite connect_tree_symmetrically_names in Hface, Hhand, Hfoot.
  injection Hface as <-. injection Hhand as <-. injection Hfoot as <-.
  destruct sec; cbn [bone_names].
  - rewrite HMAIN, !chain_path_names. unfold sided_chain_names.
    rewrite !map_app. split; [by rewrite <- !app_assoc|].
    rewrite !Forall_app. split_and!; try done;
      apply chain_names_present.
  - rewrite HHEAD, chain_path_names, map_app. split; [done|].
    rewrite Forall_app. split; [apply chain_names_present|done].
  - rewrite HFACE. split; [done|]. unfold sided_tree_names.
    rewrite Forall_app. split; apply tree_names_present.
  - rewrite HHANDS. split; [done|]. unfold sided_tree_names.
    rewrite Forall_app. split; apply tree_names_present.
  - rewrite HFEET. split; [done|]. unfold sided_tree_names.
    rewrite Forall_app. split; apply tree_names_present.
  - by rewrite HFULL.
  - rewrite HOBJ, chain_path_names. split; [done|].
    apply chain_names_present.
Qed.
End NameFacts.

(** ** What the bones connect *)

Section EdgeFacts.
Import _Skeleton.
Implicit Types landmarks cl : list string.

Lemma section_names_coloured sec name :
  name ∈ section_names sec -> name ∈ coloured_names.
Proof.
  unfold section_names, coloured_names.
  intros (item & Hitem & H)%list_elem_of_In%in_flat_map.
  apply list_elem_of_In, in_flat_map. exists item. split; [done|].
  destruct (section_of item.1 None) as [s|]; [|done].
  by destruct (decide (s = sec)).
Qed.

Lemma chain_names_ok landmarks sec cl (p : string * string) :
  NoDup cl -> Forall (fun x => x ∈ section_names sec) cl ->
  p ∈ chain_names landmarks cl -> edge_ok sec p.
Proof.
  intros Hnd Hsec Hp. unfold edge_ok.
  assert (NoDup (present landmarks cl)) as Hnd'
    by (by apply NoDup_filter).
  split; [by apply (adjacent_NoDup _ _ Hnd')|].
  apply adjacent_elem in Hp as [[_ H1]%present_in [_ H2]%present_in].
  rewrite Forall_forall in Hsec. by apply Hsec.
Qed.

Lemma tree_names_ok landmarks sec d (p : string * string) :
  Forall (edge_ok sec) d -> p ∈ tree_names landmarks d -> edge_ok sec p.
Proof.
  intros Hd [_ Hp]%list_elem_of_filter.
  rewrite Forall_forall in Hd. by apply Hd.
Qed.

Lemma limb_names_candidates landmarks limb_end att sl
    (p : string * string) :
  p ∈ limb_names landmarks limb_end att sl ->
  p ∈ limb_candidates limb_end att sl.
Proof.
  unfold limb_names, limb_candidates.
  set (l := "left " +:+ limb_end). set (r := "right " +:+ limb_end).
  rewrite !elem_of_app, !list_elem_of_fmap.
  destruct (first_in landmarks att) as [a|] eqn:Ha.
  { apply first_in_elem in Ha.
    intros [->|[->|H]%elem_of_cons]%elem_of_cons;
      [| |by apply elem_of_nil in H]; right; right;
      [left|right]; exists a; rewrite elem_of_app; auto. }
  destruct (first_in landmarks sl) as [s|] eqn:Hs.
  { apply first_in_elem in Hs.
    intros [->|[->|[->|H]%elem_of_cons]%elem_of_cons]%elem_of_cons;
      [| | |by apply elem_of_nil in H].
    - left. apply list_elem_of_here.
    - right; right; left. exists s. rewrite elem_of_app. auto.
    - right; right; right. exists s. rewrite elem_of_app. auto. }
  destruct (decide (limb_end <> "hip")).
  - intros [->|H]%elem_of_cons; [left; apply list_elem_of_here|].
    right; left. exact H.
  - intros ->%list_elem_of_singleton. left. apply list_elem_of_here.
Qed.

Lemma head_link_names_pairs landmarks (p : string * string) :
  p ∈ head_link_names landmarks -> p ∈ head_spine_pairs.
Proof.
  unfold head_link_names.
  destruct (find (both_in landmarks) head_spine_pairs) as [q|] eqn:Hq;
    [|by intros ?%elem_of_nil].
  intros ->%list_elem_of_singleton.
  apply find_some in Hq as [Hq _]. by apply list_elem_of_In.
Qed.

Lemma edge_ok_chains :
  Forall (fun sc : Sections * list string =>
            NoDup sc.2 /\ Forall (fun x => x ∈ section_names sc.1) sc.2)
    [(MAIN, with_side "left " arm); (MAIN, with_side "right " arm);
     (MAIN, with_side "left " leg); (MAIN, with_side "right " leg);
     (MAIN, spine); (HEAD, head); (OBJECTS, objects)].
Proof. compute_done. Qed.

Lemma edge_ok_tables :
  Forall (fun sd : Sections * list (string * string) =>
            Forall (fun p => p.1 <> p.2 /\ p.1 ∈ section_names sd.1)
                   sd.2)
    [(MAIN, limb_candidates "clavicle" ["shoulder centre"; "neck"]
              spine_from_shoulders);
     (MAIN, limb_candidates "shoulder" ["shoulder centre"; "neck"]
              spine_from_shoulders);
     (MAIN, limb_candidates "hip" ["pelvis"] spine_from_hips);
     (HEAD, head_spine_pairs);
     (FACE, with_side_dict "left " face);
     (FACE, with_side_dict "right " face);
     (HANDS, with_side_dict "left " hand);
     (HANDS, with_side_dict "right " hand);
     (FEET, with_side_dict "left " foot);
     (FEET, with_side_dict "right " foot)].
Proof. compute_done. Qed.

(** Reading one entry of the two tables above. *)
Ltac chain_entry n :=
  let H := fresh in
  pose proof edge_ok_chains as H;
  rewrite Forall_forall in H;
  eapply chain_names_ok;
  [eapply (proj1 (H _ ltac:(apply (list_elem_of_lookup_2 _ n);
                            reflexivity)))
  |eapply (proj2 (H _ ltac:(apply (list_elem_of_lookup_2 _ n);
                            reflexivity)))
  |eassumption].

Ltac table_entry n :=
  let H := fresh in
  pose proof edge_ok_tables as H;
  rewrite Forall_forall in H;
  exact (H _ ltac:(apply (list_elem_of_lookup_2 _ n); reflexivity)).

(** Every edge of [bone_names] joins two different names and starts at
    a name coloured in the section of the edge. *)
Lemma bone_names_ok landmarks sec (p : string * string) :
  p ∈ bone_names landmarks sec -> edge_ok sec p.
Proof.
  assert (forall sec' d, Forall (edge_ok sec') d ->
            p ∈ d -> edge_ok sec' p) as Hin
    by (intros sec' d Hd; rewrite Forall_forall in Hd; apply Hd).
  destruct sec; cbn [bone_names]; unfold sided_chain_names,
    sided_tree_names, shoulder_names;
    rewrite ?elem_of_app; intros H;
    repeat match type of H with _ \/ _ => destruct H as [H|H] end.
  - chain_entry 0%nat.
  - chain_entry 1%nat.
  - destruct (py_in "left clavicle" landmarks).
    + apply limb_names_candidates in H. eapply Hin; [|exact H].
      table_entry 0%nat.
    + destruct (py_in "left shoulder" landmarks);
        [|by apply elem_of_nil in H].
      apply limb_names_candidates in H. eapply Hin; [|exact H].
      table_entry 1%nat.
  - chain_entry 2%nat.
  - chain_entry 3%nat.
  - apply limb_names_candidates in H. eapply Hin; [|exact H].
    table_entry 2%nat.
  - chain_entry 4%nat.
  - chain_entry 5%nat.
  - apply head_link_names_pairs in H. eapply Hin; [|exact H].
    table_entry 3%nat.
  - eapply tree_names_ok; [|exact H]. table_entry 4%nat.
  - eapply tree_names_ok; [|exact H]. table_entry 5%nat.
  - eapply tree_names_ok; [|exact H]. table_entry 6%nat.
  - eapply tree_names_ok; [|exact H]. table_entry 7%nat.
  - eapply tree_names_ok; [|exact H]. table_entry 8%nat.
  - eapply tree_names_ok; [|exact H]. table_entry 9%nat.
  - by apply elem_of_nil in H.
  - chain_entry 6%nat.
Qed.
End EdgeFacts.

(** ** Bones, colours and names together *)

Section SkeletonMore.
Import _Skeleton.
Implicit Types landmarks : list string.

Lemma getitem_idx landmarks name :
  name ∈ landmarks -> getitem landmarks (idx landmarks name) = Ok name.
Proof.
  intros [_ H]%idx_present. unfold getitem. by rewrite H.
Qed.

Lemma print_loop landmarks (ns acc : list (string * string)) :
  Forall (both_present landmarks) ns ->
  for_each (fun names '(b0, b1) =>
              n0 <~ getitem landmarks b0 ;;
              n1 <~ getitem landmarks b1 ;;
              Ok (names ++ [(n0, n1)]))
           (map (pair_idx landmarks) ns) acc
  = Ok (acc ++ ns).
Proof.
  intros Hns. revert acc.
  induction Hns as [|[n0 n1] ns [H0 H1] Hns IH]; intros acc.
  - simpl. by rewrite app_nil_r.
  - cbn [map for_each pair_idx fst snd]. simpl in H0, H1.
    rewrite !getitem_idx by done. cbn [bind].
    rewrite IH, <- app_assoc. done.
Qed.

Lemma bones_of_sections landmarks bones (secs : list Sections) :
  _compute_bones landmarks = Ok bones ->
  concat (map bones secs)
  = map (pair_idx landmarks) (concat (map (bone_names landmarks) secs)) /\
  Forall (both_present landmarks)
         (concat (map (bone_names landmarks) secs)).
Proof.
  intros Hb. induction secs as [|sec secs [IH1 IH2]]; [done|].
  destruct (compute_bones_names landmarks bones sec Hb) as [H1 H2].
  cbn [map concat]. rewrite map_app, H1, IH1. split; [done|].
  by apply Forall_app.
Qed.

Lemma get_bone_list_names landmarks self mask :
  _compute_bones landmarks = Ok (_bones self) ->
  get_bone_list self mask
  = map (pair_idx landmarks) (enabled_names landmarks mask) /\
  Forall (both_present landmarks) (enabled_names landmarks mask).
Proof.
  intros Hb. unfold get_bone_list.
  rewrite get_bone_list_over_enabled.
  by apply bones_of_sections.
Qed.

Lemma get_bone_list_elem self mask (b : bone) :
  b ∈ get_bone_list self mask ->
  exists sec, enabled mask sec = true /\ b ∈ _bones self sec.
Proof.
  unfold get_bone_list. rewrite get_bone_list_over_enabled.
  unfold enabled_bones.
  intros (l & (sec & <- & Hsec)%in_map_iff & Hb)%list_elem_of_In%in_concat.
  apply list_elem_of_In, list_elem_of_filter in Hsec as [Hen _].
  exists sec. split; [done|]. by apply list_elem_of_In.
Qed.

Lemma side_pc_ok (item : string * part_shape) side :
  item ∈ _body_parts -> side ∈ sides_of item.1 ->
  exists pc, dict_get _part_colours (side +:+ item.1) = Ok pc.
Proof.
  intros Hitem Hside.
  pose proof body_parts_ok as Hok. rewrite forallb_forall in Hok.
  specialize (Hok _ (proj1 (list_elem_of_In _ _) Hitem)).
  unfold item_ok in Hok.
  destruct (section_of item.1 None); [|done].
  rewrite forallb_forall in Hok.
  specialize (Hok _ (proj1 (list_elem_of_In _ _) Hside)).
  unfold side_ok in Hok.
  destruct (dict_get _part_colours (side +:+ item.1)); [eauto|done].
Qed.

(** A present name of a section is written, in that section. *)
Lemma writes_cover landmarks sec name :
  name ∈ section_names sec -> name ∈ landmarks ->
  exists c, (sec, name, c) ∈ all_writes landmarks.
Proof.
  unfold section_names.
  intros (item & Hitem & H)%list_elem_of_In%in_flat_map Hin.
  apply list_elem_of_In in Hitem.
  destruct (section_of item.1 None) as [s|] eqn:Hsec; [|done].
  destruct (decide (s = sec)) as [->|]; [|done].
  apply in_flat_map in H as (side & Hside%list_elem_of_In
                             & Hname%list_elem_of_In).
  destruct (side_pc_ok item side Hitem Hside) as (pc & Hpc).
  assert (name ∈ map (fun w : write => w.1.2)
            (part_writes landmarks sec pc (side_names item.2 side)))
    as (w & -> & Hw)%list_elem_of_fmap
    by (rewrite part_writes_names; by apply present_in).
  pose proof (part_writes_sec _ _ _ _ _ Hw) as Hws.
  destruct w as [[s n] c]. cbn [fst snd] in *. subst s. exists c.
  unfold all_writes. apply list_elem_of_In, in_flat_map.
  exists item. split; [by apply list_elem_of_In|].
  unfold item_writes. rewrite Hsec. apply in_flat_map.
  exists side. split; [by apply list_elem_of_In|].
  unfold side_writes. rewrite Hpc. by apply list_elem_of_In.
Qed.

(** Every write goes to a present name of its section. *)
Lemma all_writes_section_names landmarks (w : write) :
  w ∈ all_writes landmarks -> w.1.2 ∈ section_names w.1.1.
Proof.
  unfold all_writes.
  intros (item & Hitem & Hw)%list_elem_of_In%in_flat_map.
  unfold item_writes in Hw.
  destruct (section_of item.1 None) as [sec|] eqn:Hsec; [|done].
  apply in_flat_map in Hw as (side & Hside & Hw%list_elem_of_In).
  unfold side_writes in Hw.
  destruct (dict_get _part_colours (side +:+ item.1)) as [pc|];
    [|by apply elem_of_nil in Hw].
  pose proof (part_writes_sec _ _ _ _ _ Hw) as ->.
  apply (list_elem_of_fmap_2 (fun w : write => w.1.2)) in Hw.
  change (w.1.2 ∈ map (fun w : write => w.1.2)
            (part_writes landmarks sec pc (side_names item.2 side)))
    in Hw.
  rewrite part_writes_names in Hw. apply present_in in Hw as [_ Hw].
  unfold section_names. apply list_elem_of_In, in_flat_map.
  exists item. split; [done|]. rewrite Hsec.
  rewrite decide_True by done. apply in_flat_map.
  exists side. split; [done|]. by apply list_elem_of_In.
Qed.

(** The colour dictionary of a section holds exactly the positions of
    the present names of that section. *)
Lemma colours_dom landmarks colours sec k :
  _compute_colours landmarks = Ok colours ->
  is_Some (colours sec !! k) <->
  exists name, name ∈ section_names sec /\ index name landmarks = Ok k.
Proof.
  rewrite compute_colours_writes. intros [= <-]. split.
  - intros [c Hc].
    apply apply_writes_source in Hc as [Hc|(w & Hw & <- & <- & _)];
      [by rewrite lookup_empty in Hc|].
    exists w.1.2.
    split; [by apply (all_writes_section_names landmarks)|].
    by apply idx_present, all_writes_present.
  - intros (name & Hname & Hk).
    assert (name ∈ landmarks) as Hin
      by (apply index_Ok_lookup in Hk; by eapply list_elem_of_lookup_2).
    destruct (writes_cover landmarks sec name Hname Hin) as (c & Hw).
    exists c.
    destruct (idx_present _ _ Hin) as [Hidx _].
    assert (k = idx landmarks name) as -> by congruence.
    apply (apply_writes_target landmarks (all_writes landmarks)
             (fun _ => ∅) (sec, name, c));
      [apply all_writes_NoDup|apply all_writes_present|done].
Qed.

(** X7. Every bone of a constructed skeleton joins two different, valid
    positions of the schema. *)
Theorem bones_in_range landmarks radius self sec (b : bone) :
  __init__ landmarks radius = Ok self -> b ∈ _bones self sec ->
  (b.1 < length landmarks)%nat /\ (b.2 < length landmarks)%nat /\
  b.1 <> b.2.
Proof.
  intros [Hb _]%init_inv Hin.
  destruct (compute_bones_names landmarks _ sec Hb) as [Heq Hpres].
  rewrite Heq in Hin.
  apply list_elem_of_fmap in Hin as (p & -> & Hp).
  rewrite Forall_forall in Hpres. destruct (Hpres p Hp) as [H1 H2].
  destruct (bone_names_ok landmarks sec p Hp) as [Hne _].
  destruct (idx_present _ _ H1) as [_ Hl1].
  destruct (idx_present _ _ H2) as [_ Hl2].
  unfold pair_idx. simpl. split_and!.
  - by eapply lookup_lt_Some.
  - by eapply lookup_lt_Some.
  - intros Heq'. by apply Hne, (idx_inj landmarks).
Qed.

(** X8. On a constructed skeleton and its own schema [print_bones] never
    raises, and it names the bones of [get_bone_list] one by one: the
    positions of the two names of an entry are the two ends of the
    bone. *)
Theorem print_bones_names landmarks radius self mask :
  __init__ landmarks radius = Ok self ->
  exists names,
    print_bones self landmarks mask = Ok names /\
    Forall2 (fun (b : bone) (p : string * string) =>
               index p.1 landmarks = Ok b.1 /\
               index p.2 landmarks = Ok b.2)
            (get_bone_list self mask) names.
Proof.
  intros [Hb _]%init_inv.
  destruct (get_bone_list_names landmarks self mask Hb) as [Heq Hpres].
  exists (enabled_names landmarks mask). unfold print_bones.
  rewrite Heq, print_loop by done. split; [done|]. clear Heq.
  induction Hpres as [|p ns [H1 H2] Hns IH]; [constructor|].
  cbn [map]. constructor; [|exact IH].
  unfold pair_idx. simpl. split; by apply idx_present.
Qed.

(** X9. What the drawing code relies on: every bone that
    [get_bone_list] returns for a mask has a colour for its first end
    in the [get_colour_dict] of the same mask. *)
Theorem bone_start_coloured landmarks radius self mask (b : bone) :
  __init__ landmarks radius = Ok self ->
  b ∈ get_bone_list self mask ->
  is_Some (get_colour_dict self mask !! b.1).
Proof.
  intros Hinit (sec & Hen & Hin)%get_bone_list_elem.
  apply init_inv in Hinit as [Hb Hc].
  destruct (compute_bones_names landmarks _ sec Hb) as [Heq Hpres].
  rewrite Heq in Hin.
  apply list_elem_of_fmap in Hin as (p & -> & Hp).
  rewrite Forall_forall in Hpres. destruct (Hpres p Hp) as [H1 _].
  destruct (bone_names_ok landmarks sec p Hp) as [_ Hsec].
  destruct (proj2 (colours_dom landmarks _ sec (idx landmarks p.1) Hc))
    as [c Hcol].
  { exists p.1. split; [done|]. by apply idx_present. }
  exists c. apply (colour_dict_target _ _ _ sec); try done.
  - intros s1 s2. by apply (compute_colours_disjoint landmarks).
  - destruct sec; compute_done.
Qed.

(** X10. A position has a colour in a section exactly when it is the
    position of one of the names that section colours; names outside
    the tables are never coloured. *)
Theorem coloured_positions landmarks radius self sec k :
  __init__ landmarks radius = Ok self ->
  is_Some (_colours self sec !! k) <->
  exists name, name ∈ section_names sec /\ index name landmarks = Ok k.
Proof.
  intros [_ Hc]%init_inv. by apply colours_dom.
Qed.

(** X11. The constructor succeeds exactly on the schemas with both hips
    in which the shoulder joint tried first, the clavicle if the left
    one is there and else the shoulder, has its right side whenever it
    has its left side; on every other schema it raises [ValueError]. *)
Theorem constructor_precondition landmarks radius :
  let ok :=
    "left hip" ∈ landmarks /\ "right hip" ∈ landmarks /\
    ("left clavicle" ∈ landmarks -> "right clavicle" ∈ landmarks) /\
    ("left clavicle" ∉ landmarks -> "left shoulder" ∈ landmarks ->
     "right shoulder" ∈ landmarks) in
  ((exists self, __init__ landmarks radius = Ok self) <-> ok) /\
  (~ ok -> __init__ landmarks radius = Raise ValueError).
Proof.
  intros ok. pose proof (init_result landmarks radius) as H.
  fold ok in H. destruct (decide ok) as [Hok|Hno].
  - split; [tauto|]. tauto.
  - split; [|done]. split; [|tauto].
    intros (self & Hself). congruence.
Qed.

(** X12. Unless the schema holds a landmark called "left nose" or "right
    nose", the FACE section has ear-to-eye bones only: the eye is looked
    up against the side's own nose, so the unsided "nose" is never
    joined to an eye. *)
Theorem face_bones_ear_to_eye landmarks radius self (b : bone) :
  __init__ landmarks radius = Ok self ->
  "left nose" ∉ landmarks -> "right nose" ∉ landmarks ->
  b ∈ _bones self FACE ->
  exists side, side ∈ _sides /\
    index (side +:+ "ear") landmarks = Ok b.1 /\
    index (side +:+ "eye") landmarks = Ok b.2.
Proof.
  intros [Hb _]%init_inv Hl Hr Hin.
  destruct (compute_bones_names landmarks _ FACE Hb) as [Heq _].
  rewrite Heq in Hin.
  apply list_elem_of_fmap in Hin as (p & -> & Hp).
  cbn [bone_names] in Hp. unfold sided_tree_names, tree_names in Hp.
  apply elem_of_app in Hp
    as [[[H1 H2]%both_in_true Hp]%list_elem_of_filter
       |[[H1 H2]%both_in_true Hp]%list_elem_of_filter];
    cbn in Hp;
    repeat (apply elem_of_cons in Hp as [->|Hp]);
    try (by apply elem_of_nil in Hp); simpl in H1, H2; try done.
  - exists "left ". split; [compute_done|].
    unfold pair_idx. split; by apply idx_present.
  - exists "right ". split; [compute_done|].
    unfold pair_idx. split; by apply idx_present.
Qed.
End SkeletonMore.

(** ** Masks *)

Section MaskFacts.
Import _Skeleton.
Implicit Types landmarks : list string.

Lemma enabled_lor m1 m2 sec :
  enabled (Z.lor m1 m2) sec = enabled m1 sec || enabled m2 sec.
Proof.
  unfold enabled. rewrite Z.land_lor_distr_r.
  destruct (Z.eqb_spec (Z.land (value sec) m1) 0) as [E1|E1],
    (Z.eqb_spec (Z.land (value sec) m2) 0) as [E2|E2]; simpl.
  - by rewrite E1, E2.
  - apply negb_true_iff, Z.eqb_neq. rewrite Z.lor_eq_0_iff. tauto.
  - apply negb_true_iff, Z.eqb_neq. rewrite Z.lor_eq_0_iff. tauto.
  - apply negb_true_iff, Z.eqb_neq. rewrite Z.lor_eq_0_iff. tauto.
Qed.

Lemma enabled_value s sec :
  s ∈ Sections_canonical -> sec ∈ Sections_canonical ->
  enabled (value s) sec = bool_decide (s = sec).
Proof.
  unfold Sections_canonical. intros Hs Hsec.
  repeat (apply elem_of_cons in Hs as [->|Hs]);
    try (by apply elem_of_nil in Hs);
    repeat (apply elem_of_cons in Hsec as [->|Hsec]);
    try (by apply elem_of_nil in Hsec); reflexivity.
Qed.

Lemma enabled_mask_of secs sec :
  Forall (fun s => s ∈ Sections_canonical) secs ->
  sec ∈ Sections_canonical ->
  enabled (mask_of secs) sec = true <-> sec ∈ secs.
Proof.
  intros Hsecs Hsec. induction Hsecs as [|s secs Hs Hsecs IH].
  - unfold enabled, mask_of. cbn [foldr]. rewrite Z.land_0_r.
    split; [done|]. by intros ?%elem_of_nil.
  - cbn [mask_of foldr]. fold (mask_of secs).
    rewrite enabled_lor, orb_true_iff, IH.
    rewrite enabled_value by done.
    rewrite bool_decide_eq_true, elem_of_cons.
    split; (intros [?|?]; [left; congruence|by right]).
Qed.

Lemma filter_ext_elem {X} (P Q : X -> Prop)
    `{!forall x, Decision (P x), !forall x, Decision (Q x)} (l : list X) :
  (forall x, x ∈ l -> P x <-> Q x) -> filter P l = filter Q l.
Proof.
  induction l as [|x l IH]; intros Hext; [done|].
  rewrite !filter_cons, IH
    by (intros y Hy; apply Hext; by apply list_elem_of_further).
  destruct (decide (P x)) as [HP|HP].
  - rewrite decide_True; [done|].
    apply Hext; [apply list_elem_of_here|done].
  - rewrite decide_False; [done|]. intros HQ.
    apply HP, Hext; [apply list_elem_of_here|done].
Qed.

(** X13. Combining section flags with [|] selects exactly those
    sections: for a constructed skeleton and any list of one-bit
    sections, in any order and with repetitions, [get_bone_list] on
    their combined mask is the bone lists of the listed sections in the
    order MAIN, HEAD, FACE, HANDS, FEET, OBJECTS, and [get_colour_dict]
    holds exactly the entries of the listed sections; [FULL] is the
    combination of the first five and leaves OBJECTS out. *)
Theorem mask_selects_sections landmarks radius self secs :
  __init__ landmarks radius = Ok self ->
  Forall (fun s => s ∈ Sections_canonical) secs ->
  value FULL = mask_of [MAIN; HEAD; FACE; HANDS; FEET] /\
  get_bone_list self (mask_of secs)
  = concat (map (_bones self)
                (filter (fun sec => sec ∈ secs) Sections_canonical)) /\
  forall k c,
    get_colour_dict self (mask_of secs) !! k = Some c <->
    exists sec, sec ∈ secs /\ _colours self sec !! k = Some c.
Proof.
  intros [Hb Hc]%init_inv Hsecs. split; [reflexivity|].
  apply compute_bones_inv in Hb
    as (? & ? & ? & ? & ? & ? & _ & _ & _ & _ & _ & _ & _ & _ & _ & _
        & _ & HFULL & _).
  split.
  - rewrite <- (get_bone_list_canonical self _ HFULL).
    rewrite get_bone_list_over_enabled. unfold enabled_bones.
    do 2 f_equal. apply filter_ext_elem.
    intros sec Hsec. by apply enabled_mask_of.
  - intros k c. split.
    + intros (sec & Hin & Hen & Hk)%colour_dict_source.
      exists sec. split; [|done].
      apply enabled_mask_of; [done| |done].
      destruct sec; try compute_done.
      rewrite (compute_colours_FULL landmarks _ Hc) in Hk.
      by rewrite lookup_empty in Hk.
    + intros (sec & Hsec & Hk).
      rewrite Forall_forall in Hsecs. pose proof (Hsecs sec Hsec).
      apply (colour_dict_target _ _ _ sec); try done.
      * intros s1 s2. by apply (compute_colours_disjoint landmarks).
      * destruct sec; compute_done.
      * apply enabled_mask_of; [by apply Forall_forall|done..].
Qed.
End MaskFacts.

(** ** Schemas with the same names *)

Section OrderFacts.
Import _Skeleton.
Implicit Types landmarks : list string.

Variables L L' : list string.
Hypothesis same : forall x, x ∈ L <-> x ∈ L'.

Lemma py_in_same x : py_in x L = py_in x L'.
Proof. unfold py_in. apply bool_decide_ext, same. Qed.

Lemma present_same l : present L l = present L' l.
Proof. unfold present. apply list_filter_iff. intros x. apply same. Qed.

Lemma first_in_same l : first_in L l = first_in L' l.
Proof.
  induction l as [|x l IH]; [done|]. simpl.
  by rewrite py_in_same, IH.
Qed.

Lemma both_in_same p : both_in L p = both_in L' p.
Proof. unfold both_in. by rewrite !py_in_same. Qed.

Lemma find_both_same l :
  find (both_in L) l = find (both_in L') l.
Proof.
  induction l as [|p l IH]; [done|]. simpl.
  by rewrite both_in_same, IH.
Qed.

Lemma tree_names_same d : tree_names L d = tree_names L' d.
Proof.
  unfold tree_names. apply list_filter_iff. intros p.
  by rewrite both_in_same.
Qed.

Lemma bone_names_same sec : bone_names L sec = bone_names L' sec.
Proof.
  destruct sec; cbn [bone_names];
    unfold sided_chain_names, sided_tree_names, shoulder_names,
      limb_names, head_link_names, chain_names;
    by rewrite ?present_same, ?py_in_same, ?first_in_same,
         ?find_both_same, ?tree_names_same.
Qed.

Lemma enabled_names_same mask :
  enabled_names L mask = enabled_names L' mask.
Proof.
  unfold enabled_names. f_equal. apply map_ext. apply bone_names_same.
Qed.

Lemma all_writes_same : all_writes L = all_writes L'.
Proof.
  unfold all_writes, item_writes, side_writes, part_writes.
  apply flat_map_ext. intros item.
  destruct (section_of item.1 None); [|done].
  apply flat_map_ext. intros side.
  destruct (dict_get _part_colours (side +:+ item.1)); [|done].
  by rewrite present_same.
Qed.

Lemma init_same radius :
  (exists self, __init__ L radius = Ok self) <->
  (exists self', __init__ L' radius = Ok self').
Proof.
  pose proof (init_result L radius) as H.
  pose proof (init_result L' radius) as H'.
  assert (forall x, x ∉ L <-> x ∉ L') as same'
    by (intros x; by rewrite same).
  repeat case_decide; try tauto;
    try (exfalso; rewrite ?same, ?same' in *; tauto).
  split; intros [self Hs]; congruence.
Qed.
End OrderFacts.

Section OrderTheorems.
Import _Skeleton.
Implicit Types landmarks : list string.

Lemma print_bones_enabled landmarks radius self mask :
  __init__ landmarks radius = Ok self ->
  print_bones self landmarks mask = Ok (enabled_names landmarks mask).
Proof.
  intros [Hb _]%init_inv.
  destruct (get_bone_list_names landmarks self mask Hb) as [Heq Hpres].
  unfold print_bones. by rewrite Heq, print_loop.
Qed.

(** The colour stored for a present name in a section is the colour of
    the write to that name in that section. *)
Lemma colour_of_name landmarks colours sec name c :
  _compute_colours landmarks = Ok colours -> name ∈ landmarks ->
  colours sec !! idx landmarks name = Some c <->
  (sec, name, c) ∈ all_writes landmarks.
Proof.
  rewrite compute_colours_writes. intros [= <-] Hin. split.
  - intros [H|(w & Hw & Hs & Hk & Hc)]%apply_writes_source;
      [by rewrite lookup_empty in H|].
    apply idx_inj in Hk; [|by apply all_writes_present|done].
    destruct w as [[s n] c']. simpl in *. by subst.
  - intros Hw.
    apply (apply_writes_target landmarks (all_writes landmarks)
             (fun _ => ∅) (sec, name, c));
      [apply all_writes_NoDup|apply all_writes_present|done].
Qed.

(** X14. The skeleton depends on the names of the schema, not on their
    order: for two schemas with the same names the constructor succeeds
    on both or on neither, and the bones by name, as [print_bones]
    gives them, are the same for every mask. *)
Theorem bones_independent_of_order landmarks landmarks' radius :
  (forall x, x ∈ landmarks <-> x ∈ landmarks') ->
  ((exists self, __init__ landmarks radius = Ok self) <->
   (exists self', __init__ landmarks' radius = Ok self')) /\
  forall self self' mask,
    __init__ landmarks radius = Ok self ->
    __init__ landmarks' radius = Ok self' ->
    print_bones self landmarks mask = print_bones self' landmarks' mask.
Proof.
  intros Hsame. split; [by apply init_same|].
  intros self self' mask Hs Hs'.
  rewrite (print_bones_enabled _ _ _ _ Hs),
    (print_bones_enabled _ _ _ _ Hs').
  f_equal. by apply enabled_names_same.
Qed.

(** X15. The colour of a landmark depends on the names of the schema,
    not on their order: for two schemas with the same names every name
    has, at its position in either schema, the same colour in the same
    section. *)
Theorem colours_independent_of_order landmarks landmarks' colours colours'
    sec name k k' :
  (forall x, x ∈ landmarks <-> x ∈ landmarks') ->
  _compute_colours landmarks = Ok colours ->
  _compute_colours landmarks' = Ok colours' ->
  index name landmarks = Ok k -> index name landmarks' = Ok k' ->
  colours sec !! k = colours' sec !! k'.
Proof.
  intros Hsame Hc Hc' Hk Hk'.
  assert (name ∈ landmarks) as Hin
    by (apply index_Ok_lookup in Hk; by eapply list_elem_of_lookup_2).
  assert (name ∈ landmarks') as Hin' by (by apply Hsame).
  assert (k = idx landmarks name) as ->
    by (destruct (idx_present _ _ Hin); congruence).
  assert (k' = idx landmarks' name) as ->
    by (destruct (idx_present _ _ Hin'); congruence).
  apply option_eq. intros c.
  rewrite (colour_of_name _ _ _ _ _ Hc Hin),
    (colour_of_name _ _ _ _ _ Hc' Hin').
  by rewrite (all_writes_same _ _ Hsame).
Qed.
End OrderTheorems.

(** ** Colour values *)

Section ValueFacts.
Import _Skeleton.
Implicit Types landmarks : list string.

Lemma body_parts_checked : forallb item_checked _body_parts = true.
Proof. vm_compute. reflexivity. Qed.

Lemma near_exact_b_true s e c i n :
  near_exact_b s e c i n = true -> near_exact s e c i n.
Proof.
  unfold near_exact_b, near_exact.
  intros [H1 H2]%andb_true_iff. apply Z.leb_le in H1, H2. lia.
Qed.

Lemma colour_in_range_true (c : colour) :
  colour_in_range c = true ->
  (0 <= c.1.1 <= 255)%Z /\ (0 <= c.1.2 <= 255)%Z /\ (0 <= c.2 <= 255)%Z.
Proof.
  unfold colour_in_range, channel_in_range.
  rewrite !andb_true_iff, !Z.leb_le. lia.
Qed.

Lemma gradient_checked_at start end_ m i n :
  gradient_checked start end_ m = true -> (i < n)%nat -> (n <= m)%nat ->
  colour_in_range (grad_colour start end_ i n) = true /\
  near_exact start.1.1 end_.1.1 (grad_colour start end_ i n).1.1 i n /\
  near_exact start.1.2 end_.1.2 (grad_colour start end_ i n).1.2 i n /\
  near_exact start.2 end_.2 (grad_colour start end_ i n).2 i n.
Proof.
  unfold gradient_checked. intros Hc Hi Hn.
  rewrite forallb_forall in Hc.
  specialize (Hc n ltac:(apply in_seq; lia)).
  rewrite forallb_forall in Hc.
  specialize (Hc i ltac:(apply in_seq; lia)). cbv zeta in Hc.
  rewrite !andb_true_iff in Hc. destruct Hc as [[[? ?] ?] ?].
  split_and!; [done|by apply near_exact_b_true..].
Qed.

Lemma side_checked_of (item : string * part_shape) side :
  item ∈ _body_parts -> side ∈ sides_of item.1 ->
  side_checked item.1 item.2 side = true.
Proof.
  intros Hitem Hside.
  pose proof body_parts_checked as Hok. rewrite forallb_forall in Hok.
  specialize (Hok _ (proj1 (list_elem_of_In _ _) Hitem)).
  unfold item_checked in Hok. rewrite forallb_forall in Hok.
  by apply Hok, list_elem_of_In.
Qed.

Lemma present_length landmarks l :
  (length (present landmarks l) <= length l)%nat.
Proof. apply length_filter. Qed.

(** Every write carries a colour with channels from 0 to 255. *)
Lemma all_writes_in_range landmarks (w : write) :
  w ∈ all_writes landmarks -> colour_in_range w.2 = true.
Proof.
  unfold all_writes.
  intros (item & Hitem%list_elem_of_In & Hw)%list_elem_of_In%in_flat_map.
  unfold item_writes in Hw.
  destruct (section_of item.1 None) as [sec|]; [|done].
  apply in_flat_map in Hw as (side & Hside%list_elem_of_In
                              & Hw%list_elem_of_In).
  pose proof (side_checked_of item side Hitem Hside) as Hck.
  unfold side_writes in Hw. unfold side_checked in Hck.
  destruct (dict_get _part_colours (side +:+ item.1)) as [[c|s e]|];
    [| |by apply elem_of_nil in Hw]; unfold part_writes in Hw.
  - by apply list_elem_of_fmap in Hw as (name & -> & _).
  - apply list_elem_of_lookup_1 in Hw as (i & Hi).
    rewrite list_lookup_imap in Hi.
    destruct (present landmarks (side_names item.2 side) !! i)
      as [name|] eqn:Hname; [|done].
    injection Hi as <-. cbn [snd].
    apply (gradient_checked_at s e _ i _ Hck).
    + by eapply lookup_lt_Some.
    + etrans; [apply present_length|].
      unfold side_names, with_side. by rewrite length_map.
Qed.

(** X16. Every colour of a constructed skeleton is a valid 8-bit RGB
    colour: each of its three channels lies between 0 and 255. *)
Theorem colours_are_rgb landmarks radius self sec k (c : colour) :
  __init__ landmarks radius = Ok self ->
  _colours self sec !! k = Some c ->
  (0 <= c.1.1 <= 255)%Z /\ (0 <= c.1.2 <= 255)%Z /\ (0 <= c.2 <= 255)%Z.
Proof.
  intros [_ Hc]%init_inv Hk.
  rewrite compute_colours_writes in Hc. injection Hc as Hc.
  rewrite <- Hc in Hk.
  apply apply_writes_source in Hk as [Hk|(w & Hw & _ & _ & <-)];
    [by rewrite lookup_empty in Hk|].
  by apply colour_in_range_true, (all_writes_in_range landmarks).
Qed.

(** The stored colour of a chain joint against the exact interpolation,
    for one chain part. *)
Lemma chain_near_part landmarks side body_part joints start end_ sec :
  dict_get _body_parts body_part = Ok (Chain joints) ->
  side ∈ sides_of body_part ->
  section_of body_part None = Some sec ->
  dict_get _part_colours (side +:+ body_part)
  = Ok (Gradient start end_) ->
  forall i name n,
    present landmarks (with_side side joints) !! i = Some name ->
    n = length (present landmarks (with_side side joints)) ->
    exists c : colour,
      apply_writes landmarks (all_writes landmarks) (fun _ => ∅) sec
        !! idx landmarks name = Some c /\
      near_exact start.1.1 end_.1.1 c.1.1 i n /\
      near_exact start.1.2 end_.1.2 c.1.2 i n /\
      near_exact start.2 end_.2 c.2 i n.
Proof.
  intros Hbp Hside Hsec Hpc i name n Hi ->.
  destruct (chain_colours landmarks side body_part joints start end_ sec
              i name Hbp Hside Hsec Hpc Hi) as [_ Hlook].
  eexists. split; [exact Hlook|].
  pose proof (side_checked_of (body_part, Chain joints) side
                (dict_get_elem _ _ _ Hbp) Hside) as Hck.
  unfold side_checked in Hck. cbn [fst snd] in Hck.
  rewrite Hpc in Hck. cbn [iter_joints] in Hck.
  apply (gradient_checked_at _ _ _ i _ Hck).
  - by eapply lookup_lt_Some.
  - etrans; [apply present_length|].
    unfold with_side. by rewrite length_map.
Qed.

Ltac near_part landmarks side body_part :=
  eexists _, _, _, _, _;
  split; [reflexivity|]; split; [reflexivity|];
  split; [reflexivity|];
  split; [apply compute_colours_writes|];
  apply (chain_near_part landmarks side body_part);
  [reflexivity|compute_done|reflexivity|reflexivity].

(** X17. Truncation keeps every gradient channel within one unit below
    the exact interpolation: for each chain part and every schema, the
    channel [c] stored for the [i]-th of the [n] present joints
    satisfies [c <= (start*(n-1-i) + end*i) / (n-1) <= c + 1], the
    division being exact; it is never above the exact value. *)
Theorem chain_gradient_near_exact side body_part landmarks :
  (side, body_part) ∈ chain_parts ->
  exists joints start end_ sec colours,
    dict_get _body_parts body_part = Ok (Chain joints) /\
    dict_get _part_colours (side +:+ body_part)
    = Ok (Gradient start end_) /\
    section_of body_part None = Some sec /\
    _compute_colours landmarks = Ok colours /\
    forall i name n,
      present landmarks (with_side side joints) !! i = Some name ->
      n = length (present landmarks (with_side side joints)) ->
      exists c : colour,
        colours sec !! idx landmarks name = Some c /\
        near_exact start.1.1 end_.1.1 c.1.1 i n /\
        near_exact start.1.2 end_.1.2 c.1.2 i n /\
        near_exact start.2 end_.2 c.2 i n.
Proof.
  intros Hin. unfold chain_parts in Hin.
  repeat (apply elem_of_cons in Hin as [[= -> ->]|Hin]);
    [..|by apply elem_of_nil in Hin].
  - near_part landmarks "" "spine".
  - near_part landmarks "left " "leg".
  - near_part landmarks "right " "leg".
  - near_part landmarks "left " "arm".
  - near_part landmarks "right " "arm".
  - near_part landmarks "" "head".
  - near_part landmarks "" "objects".
Qed.
End ValueFacts.

(** ** Trees and limb attachments *)

Section AttachmentFacts.
Import _Skeleton.
Implicit Types landmarks : list string.

(** X18. [_connect_tree] never raises: it returns one bone per
    child:parent pair whose two names are both in the schema, in the
    order of the dictionary, from the position of the child to the
    position of the parent, and nothing for the other pairs. *)
Theorem connect_tree_spec landmarks (d : list (string * string)) :
  exists bones,
    _connect_tree landmarks d = Ok bones /\
    Forall2 (fun (b : bone) (p : string * string) =>
               index p.1 landmarks = Ok b.1 /\
               index p.2 landmarks = Ok b.2)
            bones
            (filter (fun p => p.1 ∈ landmarks /\ p.2 ∈ landmarks) d).
Proof.
  exists (tree_edges landmarks d). split; [apply connect_tree_edges|].
  unfold tree_edges.
  rewrite (list_filter_iff _ (fun p => p.1 ∈ landmarks /\ p.2 ∈ landmarks))
    by (intros p; apply both_in_true).
  induction d as [|p d IH]; [constructor|].
  rewrite filter_cons. destruct (decide _) as [[H1 H2]|_]; [|exact IH].
  cbn [map]. constructor; [|exact IH].
  simpl. split; by apply idx_present.
Qed.

End AttachmentFacts.

(** ** The properties above on concrete schemas *)

Lemma bones_in_range_witness :
  exists self, _Skeleton.__init__ fixture 5 = Ok self /\
    (1, 3)%nat ∈ _Skeleton._bones self _Skeleton.MAIN /\
    (1 < length fixture)%nat /\ (3 < length fixture)%nat.
Proof.
  destruct (_Skeleton.__init__ fixture 5) as [self|] eqn:Hinit;
    [|by vm_compute in Hinit].
  exists self. split; [reflexivity|].
  assert ((1, 3)%nat ∈ _Skeleton._bones self _Skeleton.MAIN) as Hb.
  { pose proof Hinit as Hv. vm_compute in Hv. injection Hv as <-.
    apply list_elem_of_here. }
  split; [exact Hb|].
  destruct (bones_in_range fixture 5 self _Skeleton.MAIN (1, 3)%nat
              Hinit Hb) as (H1 & H2 & _).
  by split.
Defined.

Lemma print_bones_names_witness :
  exists self names, _Skeleton.__init__ fixture 5 = Ok self /\
    _Skeleton.print_bones self fixture 3 = Ok names.
Proof.
  destruct (_Skeleton.__init__ fixture 5) as [self|] eqn:Hinit;
    [|by vm_compute in Hinit].
  destruct (print_bones_names fixture 5 self 3 Hinit) as (names & H & _).
  by exists self, names.
Defined.

Lemma bone_start_coloured_witness :
  exists self, _Skeleton.__init__ fixture 5 = Ok self /\
    (1, 3)%nat ∈ _Skeleton.get_bone_list self 3 /\
    is_Some (_Skeleton.get_colour_dict self 3 !! 1%nat).
Proof.
  destruct (_Skeleton.__init__ fixture 5) as [self|] eqn:Hinit;
    [|by vm_compute in Hinit].
  exists self. split; [reflexivity|].
  assert ((1, 3)%nat ∈ _Skeleton.get_bone_list self 3) as Hb.
  { pose proof Hinit as Hv. vm_compute in Hv. injection Hv as <-.
    apply list_elem_of_here. }
  split; [exact Hb|].
  exact (bone_start_coloured fixture 5 self 3 (1, 3)%nat Hinit Hb).
Defined.

Lemma coloured_positions_witness :
  exists self, _Skeleton.__init__ fixture 5 = Ok self /\
    is_Some (_Skeleton._colours self _Skeleton.HEAD !! 0%nat).
Proof.
  destruct (_Skeleton.__init__ fixture 5) as [self|] eqn:Hinit;
    [|by vm_compute in Hinit].
  exists self. split; [reflexivity|].
  apply (coloured_positions fixture 5 self _Skeleton.HEAD 0 Hinit).
  exists "nose". split; [compute_done|reflexivity].
Defined.

Lemma constructor_precondition_witness :
  _Skeleton.__init__ ["nose"; "neck"] 5 = Raise ValueError.
Proof.
  apply (proj2 (constructor_precondition ["nose"; "neck"] 5)).
  intros (H & _).
  repeat (apply elem_of_cons in H as [H|H]; [discriminate H|]).
  by apply elem_of_nil in H.
Defined.

Lemma face_bones_ear_to_eye_witness :
  let schema :=
    ["left ear"; "left eye"; "nose"; "left hip"; "right hip"] in
  exists self side, _Skeleton.__init__ schema 5 = Ok self /\
    (0, 1)%nat ∈ _Skeleton._bones self _Skeleton.FACE /\
    index (side +:+ "ear") schema = Ok 0%nat /\
    index (side +:+ "eye") schema = Ok 1%nat.
Proof.
  intros schema.
  destruct (_Skeleton.__init__ schema 5) as [self|] eqn:Hinit;
    [|by vm_compute in Hinit].
  assert ((0, 1)%nat ∈ _Skeleton._bones self _Skeleton.FACE) as Hb.
  { pose proof Hinit as Hv. vm_compute in Hv. injection Hv as <-.
    apply list_elem_of_here. }
  destruct (face_bones_ear_to_eye schema 5 self (0, 1)%nat Hinit)
    as (side & _ & H1 & H2); [compute_done..|exact Hb|].
  by exists self, side.
Defined.

Lemma mask_selects_sections_witness :
  exists self, _Skeleton.__init__ fixture 5 = Ok self /\
    _Skeleton.get_bone_list self
      (mask_of [_Skeleton.HEAD; _Skeleton.MAIN])
    = _Skeleton._bones self _Skeleton.MAIN
      ++ _Skeleton._bones self _Skeleton.HEAD.
Proof.
  destruct (_Skeleton.__init__ fixture 5) as [self|] eqn:Hinit;
    [|by vm_compute in Hinit].
  exists self. split; [reflexivity|].
  destruct (mask_selects_sections fixture 5 self
              [_Skeleton.HEAD; _Skeleton.MAIN] Hinit)
    as (_ & -> & _); [compute_done|].
  simpl. by rewrite app_nil_r.
Defined.

Lemma bones_independent_of_order_witness :
  exists self self',
    _Skeleton.__init__ fixture 5 = Ok self /\
    _Skeleton.__init__ (reverse fixture) 5 = Ok self' /\
    _Skeleton.print_bones self fixture 3
    = _Skeleton.print_bones self' (reverse fixture) 3.
Proof.
  destruct (_Skeleton.__init__ fixture 5) as [self|] eqn:Hinit;
    [|by vm_compute in Hinit].
  destruct (_Skeleton.__init__ (reverse fixture) 5) as [self'|]
    eqn:Hinit'; [|by vm_compute in Hinit'].
  exists self, self'. split; [reflexivity|]. split; [reflexivity|].
  assert (forall x, x ∈ fixture <-> x ∈ reverse fixture) as Hsame
    by (intros x; by rewrite elem_of_reverse).
  by apply (proj2 (bones_independent_of_order fixture (reverse fixture)
                     5 Hsame)).
Defined.

Lemma colours_independent_of_order_witness :
  exists colours colours',
    _Skeleton._compute_colours fixture = Ok colours /\
    _Skeleton._compute_colours (reverse fixture) = Ok colours' /\
    colours _Skeleton.MAIN !! 3%nat = colours' _Skeleton.MAIN !! 0%nat.
Proof.
  assert (forall x, x ∈ fixture <-> x ∈ reverse fixture) as Hsame
    by (intros x; by rewrite elem_of_reverse).
  eexists _, _.
  split; [apply compute_colours_writes|].
  split; [apply compute_colours_writes|].
  apply (colours_independent_of_order fixture (reverse fixture) _ _
           _Skeleton.MAIN "pelvis" 3 0 Hsame
           (compute_colours_writes _) (compute_colours_writes _));
    reflexivity.
Defined.

Lemma colours_are_rgb_witness :
  exists self, _Skeleton.__init__ fixture 5 = Ok self /\
    _Skeleton._colours self _Skeleton.HEAD !! 0%nat
    = Some (210, 210, 0)%Z /\
    (0 <= 210 <= 255)%Z.
Proof.
  destruct (_Skeleton.__init__ fixture 5) as [self|] eqn:Hinit;
    [|by vm_compute in Hinit].
  exists self. split; [reflexivity|].
  assert (_Skeleton._colours self _Skeleton.HEAD !! 0%nat
          = Some (210, 210, 0)%Z) as Hc.
  { pose proof Hinit as Hv. vm_compute in Hv. injection Hv as <-.
    reflexivity. }
  split; [exact Hc|].
  by destruct (colours_are_rgb fixture 5 self _Skeleton.HEAD 0
                 (210, 210, 0)%Z Hinit Hc) as (H & _).
Defined.

Lemma chain_gradient_near_exact_witness :
  exists colours (c : Z * Z * Z),
    _Skeleton._compute_colours right_leg_schema = Ok colours /\
    colours _Skeleton.MAIN !! 1%nat = Some c /\
    near_exact 100 0 c.1.1 1 4.
Proof.
  destruct (chain_gradient_near_exact "right " "leg" right_leg_schema)
    as (joints & start & end_ & sec & colours & Hj & Hc & Hs & Hcol & H).
  { compute_done. }
  exists colours.
  vm_compute in Hj, Hc, Hs.
  injection Hj as <-. injection Hc as <- <-. injection Hs as <-.
  destruct (H 1%nat "right ankle" 4%nat eq_refl eq_refl)
    as (c & Hlook & H0 & _).
  exists c. by split_and!.
Defined.

